(** * TimetableProcessor, bus scheduling core: a shallow embedding

    The Python modules [Bus_Scheduling/Scheduling_Utilities.py],
    [Scheduling_Classes.py], [Scheduling_Precalculation.py],
    [Schedule_Rendering.py] and [Scheduling_Main.py] are rendered as Rocq
    functions, one per Python function and under the same name.

    Conventions of the embedding:
    - a Python [int] is a [Z]; a Python number that may be a [float] is a
      [Qc] (the exact rational the float stands for);
    - a Python [str] is a [string] whose characters are the code points
      below 256;
    - a Python [dict] is an insertion-ordered association list ([PyDict]),
      a Python [set] a [gset] or, where iteration order is observable, a
      duplicate-free list;
    - running a Python function gives a [result]: it returns ([Ok]), raises
      ([Raise]) or never returns ([Hang]). *)

From Stdlib Require Import ZArith QArith Qcanon String Ascii List Lia.
From Stdlib Require Import Lqa.
From stdpp Require Import base numbers strings list sorting gmap.

Local Open Scope Z_scope.
Set Warnings "-register-all".

(* ================================================================== *)
(** * Part I: the program *)
(* ================================================================== *)

(** ** Python values, exceptions and containers *)

Module Py.

Inductive exn : Type :=
| ValueError (msg : string)
| KeyError
| IndexError
| TypeError
| AssertionError
| Exception (msg : string).

Inductive result (A : Type) : Type :=
| Ok (a : A)
| Raise (e : exn)
| Hang.
Global Arguments Ok {A} a.
Global Arguments Raise {A} e.
Global Arguments Hang {A}.

Global Instance result_ret : MRet result := fun _ a => Ok a.
Global Instance result_bind : MBind result := fun _ _ f r =>
  match r with
  | Ok a => f a
  | Raise e => Raise e
  | Hang => Hang
  end.
Global Instance result_fmap : FMap result := fun _ _ f r =>
  match r with
  | Ok a => Ok (f a)
  | Raise e => Raise e
  | Hang => Hang
  end.

Definition is_Ok {A} (r : result A) : Prop := exists a, r = Ok a.

(** [assert c] *)
Definition assert (c : bool) : result unit :=
  if c then Ok tt else Raise AssertionError.

(** [l[i]] on a list: negative indices count from the end. *)
Definition getitem {A} (l : list A) (i : Z) : result A :=
  let n := Z.of_nat (length l) in
  let k := if i <? 0 then i + n else i in
  if (k <? 0) || (n <=? k) then Raise IndexError
  else match l !! Z.to_nat k with
       | Some x => Ok x
       | None => Raise IndexError
       end.

(** [a[i, j]] on a two-dimensional numpy array, given as its rows. *)
Definition getitem2 (a : list (list Z)) (i j : Z) : result Z :=
  row ← getitem a i; getitem row j.

(** [for x in l] with a body that may raise: left to right, stopping at
    the first exception. *)
Fixpoint mapM {A B} (f : A -> result B) (l : list A) : result (list B) :=
  match l with
  | [] => Ok []
  | x :: l' => y ← f x; ys ← mapM f l'; Ok (y :: ys)
  end.

(** [[x for x in l if c(x)]] *)
Fixpoint filterM {A} (c : A -> result bool) (l : list A) : result (list A) :=
  match l with
  | [] => Ok []
  | x :: l' => b ← c x; ys ← filterM c l'; Ok (if b : bool then x :: ys else ys)
  end.

(** [enumerate(l)] *)
Definition enumerate {A} (l : list A) : list (Z * A) :=
  imap (fun i x => (Z.of_nat i, x)) l.

(** [range(n)] *)
Definition range (n : Z) : list Z :=
  map Z.of_nat (seq 0 (Z.to_nat n)).

(** ** Sorting

    [list.sort] and [sorted] are stable, so their result is the one of
    a stable insertion sort. [le] is the order on keys. *)
Section Sort.
Context {A K : Type} (le : K -> K -> bool) (key : A -> K).

Fixpoint insert_by (x : A) (l : list A) : list A :=
  match l with
  | [] => [x]
  | y :: l' => if le (key y) (key x) then y :: insert_by x l' else x :: y :: l'
  end.

Definition sort_by (l : list A) : list A := foldr insert_by [] l.
End Sort.

(** Tuples compare lexicographically. *)
Definition pair_leb (p q : Z * Z) : bool :=
  (p.1 <? q.1) || ((p.1 =? q.1) && (p.2 <=? q.2)).

Definition Qc_leb (p q : Qc) : bool := bool_decide (p ≤ q)%Qc.

(** ** Strings *)

(** [s.split(sep)] for a one-character separator. *)
Fixpoint split (sep : ascii) (s : string) : list string :=
  match s with
  | EmptyString => [EmptyString]
  | String c s' =>
      if Ascii.eqb c sep then EmptyString :: split sep s'
      else match split sep s' with
           | h :: t => String c h :: t
           | [] => [String c EmptyString]
           end
  end.

(** The characters [int()] skips at both ends of its argument: the C
    white space, and the two further white-space code points below 256. *)
Definition is_space (c : ascii) : bool :=
  let n := nat_of_ascii c in
  (n =? 9)%nat || (n =? 10)%nat || (n =? 11)%nat || (n =? 12)%nat
  || (n =? 13)%nat || (n =? 32)%nat || (n =? 133)%nat || (n =? 160)%nat.

Definition digit_val (c : ascii) : option Z :=
  let n := nat_of_ascii c in
  if (48 <=? n)%nat && (n <=? 57)%nat then Some (Z.of_nat n - 48) else None.

Fixpoint lstrip (s : string) : string :=
  match s with
  | EmptyString => EmptyString
  | String c s' => if is_space c then lstrip s' else s
  end.

Definition strip (s : string) : string :=
  String.rev (lstrip (String.rev (lstrip s))).

(** The digits of a decimal literal; one underscore may stand between
    two digits. [seen] tells that the previous character was a digit. *)
Fixpoint digits (acc : Z) (seen : bool) (s : string) : option Z :=
  match s with
  | EmptyString => if seen then Some acc else None
  | String c s' =>
      match digit_val c with
      | Some d => digits (10 * acc + d) true s'
      | None =>
          if Ascii.eqb c "_" && seen then digits acc false s' else None
      end
  end.

(** [int(s)], base ten. *)
Definition int (s : string) : result Z :=
  let bad := Raise (ValueError "invalid literal for int() with base 10") in
  match strip s with
  | EmptyString => bad
  | String c r =>
      if Ascii.eqb c "+" then from_option Ok bad (digits 0 false r)
      else if Ascii.eqb c "-" then from_option (fun z => Ok (- z)) bad (digits 0 false r)
      else from_option Ok bad (digits 0 false (String c r))
  end.

End Py.

Export Py.

(** ** Python dictionaries: association lists in insertion order *)

Module PyDict.
Section Dict.
Context {K V : Type} `{EqDecision K}.

Definition t := list (K * V).

(** [d.get(k)] *)
Fixpoint get (d : list (K * V)) (k : K) : option V :=
  match d with
  | [] => None
  | (k', v) :: d' => if decide (k' = k) then Some v else get d' k
  end.

(** [d[k]] *)
Definition getitem (d : list (K * V)) (k : K) : result V :=
  match get d k with
  | Some v => Ok v
  | None => Raise KeyError
  end.

(** [d[k] = v]: a present key keeps its place, a new key goes last. *)
Fixpoint set (d : list (K * V)) (k : K) (v : V) : list (K * V) :=
  match d with
  | [] => [(k, v)]
  | (k', v') :: d' =>
      if decide (k' = k) then (k, v) :: d' else (k', v') :: set d' k v
  end.

(** [{k: v for k, v in items}] and [d.update(items)] *)
Definition update (d : list (K * V)) (items : list (K * V)) : list (K * V) :=
  foldl (fun d kv => set d kv.1 kv.2) d items.

Definition of_items (items : list (K * V)) : list (K * V) := update [] items.

Definition keys (d : list (K * V)) : list K := map fst d.
End Dict.
End PyDict.

(** ** Scheduling_Utilities.py *)

Module Utilities.

Definition ParseHxM (hhmm : string) : result Z :=
  match Py.split ":" hhmm with
  | [shh; smm] =>
      if negb ((String.length shh =? 1)%nat || (String.length shh =? 2)%nat)
      then Raise (ValueError "Invalid time format")
      else if negb (String.length smm =? 2)%nat
      then Raise (ValueError "Invalid time format")
      else
        hh ← Py.int shh;
        mm ← Py.int smm;
        if negb ((0 <=? hh) && (hh <? 24))
        then Raise (ValueError "More than 23 hours")
        else if negb ((0 <=? mm) && (mm <? 60))
        then Raise (ValueError "More than 60 minutes")
        else Ok (60 * hh + mm)
  | _ => Raise (ValueError "not enough values to unpack")
  end.

End Utilities.


(** ** Scheduling_Classes.py *)

Module Classes.

(** A value read from or written to JSON. *)
Inductive json : Type :=
| JNull
| JBool (b : bool)
| JInt (z : Z)
| JFloat (q : Qc)
| JStr (s : string)
| JList (l : list json)
| JDict (d : list (string * json)).

(** Truth value of a JSON value in an [if]. *)
Definition truthy (j : json) : bool :=
  match j with
  | JNull => false
  | JBool b => b
  | JInt z => negb (z =? 0)
  | JFloat q => negb (bool_decide (q = 0%Qc))
  | JStr s => negb (String.eqb s EmptyString)
  | JList l => match l with [] => false | _ => true end
  | JDict d => match d with [] => false | _ => true end
  end.

(** The dataclass [Trip]. [Day] is a [datetime.date], held as its
    proleptic Gregorian ordinal, or [None]. [StartTimeMins] and
    [EndTimeMins] are not dataclass fields: they start as the class
    attribute -1 and take no part in [__eq__]. *)
Record Trip : Type := mkTrip {
  Line : Z;
  TripNo : Z;
  StartStop : string;
  EndStop : string;
  StartTime : string;
  EndTime : string;
  Via : option (list json);
  Day : option Z;
  StartTimeMins : Z;
  EndTimeMins : Z
}.

(** [Trip(Line=.., ..)] *)
Definition new_Trip (line tripNo : Z) (startStop endStop startTime endTime : string)
    (via : option (list json)) (day : option Z) : Trip :=
  mkTrip line tripNo startStop endStop startTime endTime via day (-1) (-1).

(** [t1 == t2], the generated [__eq__]: the eight fields. *)
Definition Trip_eq (t1 t2 : Trip) : Prop :=
  Line t1 = Line t2 /\ TripNo t1 = TripNo t2 /\
  StartStop t1 = StartStop t2 /\ EndStop t1 = EndStop t2 /\
  StartTime t1 = StartTime t2 /\ EndTime t1 = EndTime t2 /\
  Via t1 = Via t2 /\ Day t1 = Day t2.

Definition with_minutes (t : Trip) (s e : Z) : Trip :=
  mkTrip (Line t) (TripNo t) (StartStop t) (EndStop t) (StartTime t) (EndTime t)
         (Via t) (Day t) s e.

(** [Trip.RecalcMinutes]: the trip after the call. *)
Definition RecalcMinutes (self : Trip) (firstDay : option Z) : result Trip :=
  startTimeMins ← Utilities.ParseHxM (StartTime self);
  endTimeMins ← Utilities.ParseHxM (EndTime self);
  _ ← Py.assert (0 <=? startTimeMins);
  _ ← Py.assert (0 <=? endTimeMins);
  let endTimeMins :=
    if endTimeMins <? startTimeMins then endTimeMins + 24 * 60 else endTimeMins in
  match Day self, firstDay with
  | Some day, Some first =>
      let daydiff := day - first in
      Ok (with_minutes self (startTimeMins + daydiff * 24 * 60)
                            (endTimeMins + daydiff * 24 * 60))
  | _, _ => Ok (with_minutes self startTimeMins endTimeMins)
  end.

(** The two calls into [datetime] are parameters:
    [strftime d] is [d.strftime("%Y-%m-%d")] and [strptime s] is
    [datetime.datetime.strptime(s, "%Y-%m-%d").date()]. *)
Section Json.
Variable strftime : Z -> string.
Variable strptime : string -> result Z.

Definition ToDictForJson (self : Trip) : list (string * json) :=
  let res := [] in
  let res :=
    match Day self with
    | Some d => PyDict.set res "Day" (JStr (strftime d))
    | None => res
    end in
  let res := PyDict.update res
    [ ("Line", JInt (Line self));
      ("Trip", JInt (TripNo self));
      ("Start stop", JStr (StartStop self));
      ("End stop", JStr (EndStop self));
      ("Start time", JStr (StartTime self));
      ("End time", JStr (EndTime self)) ] in
  match Via self with
  | Some (x :: l) => PyDict.set res "Stops" (JList (x :: l))
  | _ => res
  end.

(** The record is typed, so a value of another JSON type under a key
    is a [TypeError] here. *)
Definition as_int (j : json) : result Z :=
  match j with JInt z => Ok z | _ => Raise TypeError end.
Definition as_str (j : json) : result string :=
  match j with JStr s => Ok s | _ => Raise TypeError end.
Definition as_list (j : json) : result (list json) :=
  match j with JList l => Ok l | _ => Raise TypeError end.
Definition as_dict (j : json) : result (list (string * json)) :=
  match j with JDict d => Ok d | _ => Raise TypeError end.

(** [Via=d.get("Stops")] *)
Definition get_Via (d : list (string * json)) : result (option (list json)) :=
  match PyDict.get d "Stops" with
  | None => Ok None
  | Some JNull => Ok None
  | Some j => l ← as_list j; Ok (Some l)
  end.

(** [Day=strptime(d["Day"], ..).date() if d.get("Day") else None] *)
Definition get_Day (d : list (string * json)) : result (option Z) :=
  if from_option truthy false (PyDict.get d "Day")
  then j ← PyDict.getitem d "Day"; s ← as_str j; day ← strptime s; Ok (Some day)
  else Ok None.

Definition FromDictForJson (d : list (string * json)) : result Trip :=
  line ← PyDict.getitem d "Line" ≫= as_int;
  tripNo ← PyDict.getitem d "Trip" ≫= as_int;
  startStop ← PyDict.getitem d "Start stop" ≫= as_str;
  endStop ← PyDict.getitem d "End stop" ≫= as_str;
  startTime ← PyDict.getitem d "Start time" ≫= as_str;
  endTime ← PyDict.getitem d "End time" ≫= as_str;
  via ← get_Via d;
  day ← get_Day d;
  Ok (new_Trip line tripNo startStop endStop startTime endTime via day).
End Json.

(** The dataclass [Deadhead]. *)
Record Deadhead : Type := mkDeadhead {
  dh_StartStop : string;
  dh_EndStop : string;
  DurationMins : Z
}.

End Classes.

Export Classes.

(** ** Scheduling_Precalculation.py *)

Module Precalculation.

(** [GetDistFromEdge]. [distance] may become a float in the
    waiting-penalty line, hence the result type. *)
Definition GetDistFromEdge (edge : Z * Z) (trips : list Trip)
    (stopsMap : list (string * Z)) (distances : list (list Z))
    (depotIdx : option Z) (depotVal : Z) (linePenalty : Z) : result Qc :=
  let '(trip1, trip2) := edge in
  let distance : Qc := 0%Qc in
  '(fromId, distance) ←
    (if trip1 =? -1 then
       match depotIdx with
       | None => Raise (ValueError "Depot not specified")
       | Some d => Ok (Some d, (distance + Qc_of_Z depotVal)%Qc)
       end
     else
       tripn1 ← Py.getitem trips trip1;
       Ok (PyDict.get stopsMap (EndStop tripn1), distance));
  '(toId, distance) ←
    (if trip2 =? -2 then
       match depotIdx with
       | None => Raise (ValueError "Depot not specified")
       | Some d => Ok (Some d, (distance + Qc_of_Z depotVal)%Qc)
       end
     else
       tripn2 ← Py.getitem trips trip2;
       Ok (PyDict.get stopsMap (StartStop tripn2), distance));
  match fromId, toId with
  | Some fromId, Some toId =>
      distance ←
        (if (0 <=? trip1) && (0 <=? trip2) then
           t1 ← Py.getitem trips trip1;
           t2 ← Py.getitem trips trip2;
           let distance :=
             if negb (Line t1 =? Line t2)
             then (distance + Qc_of_Z linePenalty)%Qc else distance in
           d ← Py.getitem2 distances fromId toId;
           let waitingTime := StartTimeMins t2 - EndTimeMins t1 - d in
           Ok (if 0 <? waitingTime
               then (distance + Q2Qc (1 # 1000) * Qc_of_Z waitingTime)%Qc
               else distance)
         else Ok distance);
      d ← Py.getitem2 distances fromId toId;
      let distance := (distance + Qc_of_Z d)%Qc in
      if bool_decide (distance < 0)%Qc
      then Raise (ValueError "Negative distance")
      else Ok distance
  | _, _ =>
      (* an absent stop: numpy refuses the [None] index in the
         waiting-time line with a ValueError of its own when both trips
         are real and the matrix has more than one entry; on every other
         path this line is reached *)
      Raise (ValueError "Stop not found")
  end.

Definition GetDistFromEdgeCached (edge : Z * Z) (edgesWeights : list (Z * Z * Qc)) : result Qc :=
  PyDict.getitem edgesWeights edge.

(** [CreateDeadheadMap]: [stops] is the list of stop names. *)
Definition CreateDeadheadMap (edges : list (Z * Z)) (trips : list Trip)
    (stops : list string) (distances : list (list Z))
    (depotIdx : option Z) (depotVal linePenalty : Z) : result (list (Z * Z * Qc)) :=
  let indexMap := PyDict.of_items (map (fun '(i, stop) => (stop, i)) (Py.enumerate stops)) in
  items ← Py.mapM (fun e =>
             w ← GetDistFromEdge e trips indexMap distances depotIdx depotVal linePenalty;
             Ok (e, w)) edges;
  Ok (PyDict.of_items items).

(** The condition of the comprehension in [CreateFeasibilityGraph]. *)
Definition can_follow (stopsMap : list (string * Z)) (distances : list (list Z))
    (maxWaitHours : Z) (t1 t2 : Trip) : result bool :=
  a ← PyDict.getitem stopsMap (EndStop t1);
  b ← PyDict.getitem stopsMap (StartStop t2);
  d ← Py.getitem2 distances a b;
  Ok ((EndTimeMins t1 + d <=? StartTimeMins t2)
      && (StartTimeMins t2 <=? EndTimeMins t1 + maxWaitHours * 60)).

Definition CreateFeasibilityGraph (trips : list Trip) (stopsMap : list (string * Z))
    (distances : list (list Z)) (maxWaitHours : Z) : result (list (Z * Z)) :=
  pairs ← Py.filterM
    (fun '((i, t1), (j, t2)) => can_follow stopsMap distances maxWaitHours t1 t2)
    (it1 ← Py.enumerate trips; it2 ← Py.enumerate trips; [(it1, it2)]);
  Ok (map (fun '((i, _), (j, _)) => (i, j)) pairs).

End Precalculation.

Export Precalculation.

(** ** Scheduling_Main.py *)

Module Main.

(** [for x in l: st = body(st, x)] with a body that may raise or hang. *)
Fixpoint foldM {A S} (body : S -> A -> result S) (st : S) (l : list A) : result S :=
  match l with
  | [] => Ok st
  | x :: l' => st' ← body st x; foldM body st' l'
  end.

(** [sum(l)] *)
Definition Qc_sum (l : list Qc) : Qc := foldl Qcplus 0%Qc l.

(** *** ConvertEdgesToBuses *)

(** The key [lambda bs: (-len(bs), bs[0])]. *)
Definition bus_key (bs : list Z) : result (Z * Z) :=
  b0 ← Py.getitem bs 0; Ok (- Z.of_nat (length bs), b0).

(** [buses.sort(key=lambda bs: (-len(bs), bs[0]))]: the keys are
    computed first, then the list is sorted on them. *)
Definition sort_buses (buses : list (list Z)) : result (list (list Z)) :=
  keyed ← Py.mapM (fun bs => k ← bus_key bs; Ok (k, bs)) buses;
  Ok (map snd (Py.sort_by Py.pair_leb fst keyed)).

(** The loop [while v := be.get(v)]: it stops when [v] has no successor
    or the successor is 0 (falsy). One unit of [fuel] is one evaluation
    of [be.get]. *)
Fixpoint follow (fuel : nat) (be : list (Z * Z)) (tripsCount : Z) (v : Z)
    (used : gset Z) (current : list Z) : result (gset Z * list Z) :=
  match fuel with
  | O => Hang
  | S fuel' =>
      match PyDict.get be v with
      | None => Ok (used, current)
      | Some w =>
          if w =? 0 then Ok (used, current)
          else
            let used := used ∪ {[w]} in
            if tripsCount <=? w then Ok (used, current)
            else follow fuel' be tripsCount w used (current ++ [w])
      end
  end.

(** The body of [for u, v in be.items()]. *)
Definition chain_step (fuel : nat) (be : list (Z * Z)) (tripsCount : Z)
    (st : gset Z * list (list Z)) (uv : Z * Z) : result (gset Z * list (list Z)) :=
  let '(used, chains) := st in
  let '(u, v) := uv in
  if bool_decide (u ∈ used) || bool_decide (v ∈ used) then Ok (used, chains)
  else
    '(used, current) ← follow fuel be tripsCount v (used ∪ {[u]} ∪ {[v]}) [u; v];
    Ok (used, chains ++ [current]).

(** A walk that evaluates [be.get] more often than [be] has keys has
    met a key twice and goes on for ever, which bounds the fuel (see
    [follow_Hang_for_ever] and [follow_more_fuel] below). *)
Definition ConvertEdgesToBuses (tripsCount : Z) (edges : list (Z * Z)) : result (list (list Z)) :=
  let edges := Py.sort_by Py.pair_leb id edges in
  let be := PyDict.of_items edges in
  '(used, chains) ← foldM (chain_step (S (length be)) be tripsCount) (∅, []) be;
  let solo := filter (fun i => i ∉ used) (Py.range tripsCount) in
  let buses := chains ++ map (fun i => [i]) solo in
  sort_buses buses.

(** *** OptimizeTripsFindOptimalDepot: the heuristic depot

    The part of the function after the duties [buses] are known. *)






(** *** EvaluateLength and EvaluateSwapDiffShort *)

Definition EvaluateLength (buses : list (list Z)) (trips : list Trip)
    (dists : list (list Z)) (stopsMap : list (string * Z)) : result Qc :=
  terms ← Py.mapM (fun '(bus, i) =>
             p ← Py.getitem bus (i - 1);
             c ← Py.getitem bus i;
             GetDistFromEdge (p, c) trips stopsMap dists None 0 0)
           (bus ← buses; i ← Py.range (Z.of_nat (length bus)); [(bus, i)]);
  Ok (Qc_sum terms).

(** [edgeWeights.get((a, b), 0)], where [a] or [b] may be [None]: such
    a pair is never a key. *)
Definition weight_or_0 (edgeWeights : list (Z * Z * Qc)) (a b : option Z) : Qc :=
  match a, b with
  | Some a, Some b => default 0%Qc (PyDict.get edgeWeights (a, b))
  | _, _ => 0%Qc
  end.

Definition EvaluateSwapDiffShort (bus1 bus2 : list Z) (a1 a2 b1 b2 : option Z)
    (edgeWeights : list (Z * Z * Qc)) : result Qc :=
  let w := weight_or_0 edgeWeights in
  let oldChain1 := w a1 a2 in
  let oldChain2 := w b1 b2 in
  last1 ← Py.getitem bus1 (-1);
  first1 ← Py.getitem bus1 0;
  let oldReturn1 := w (Some last1) (Some first1) in
  last2 ← Py.getitem bus2 (-1);
  first2 ← Py.getitem bus2 0;
  let oldReturn2 := w (Some last2) (Some first2) in
  let sumOld := (oldChain1 + oldReturn1 + oldChain2 + oldReturn2)%Qc in
  let newChain1 := w a1 b2 in
  let newChain2 := w b1 a2 in
  let newReturn1 := w (Some last2) (Some first1) in
  let newReturn2 := w (Some last1) (Some first2) in
  let newReturn1 := if a1 is None then w (Some last2) b2 else newReturn1 in
  let newReturn2 := if a2 is None then w b1 (Some first2) else newReturn2 in
  let newReturn2 := if b1 is None then w (Some last1) a2 else newReturn2 in
  let newReturn1 := if b2 is None then w a1 (Some first1) else newReturn1 in
  let sumNew := (newChain1 + newReturn1 + newChain2 + newReturn2)%Qc in
  Ok (sumNew - sumOld)%Qc.


(** *** OptimizeTripsCircularApprox

    A swap is [(busIndex1, tripIndex1, busIndex2, tripIndex2)]; a
    solution is the tuple [(swap, buses, length, possibleSwaps)]. The
    set [possibleSwaps] is listed in the order in which its elements
    were added: the only use of its iteration order is to be indexed by
    a random sample. *)

Definition swap : Type := Z * Z * Z * Z.
Definition solution : Type := option swap * list (list Z) * Qc * list swap.

(** [ns[2]] *)
Definition sol_length (s : solution) : Qc := s.1.2.

(** [range(a, b)] *)
Definition range_from (a b : Z) : list Z :=
  map (fun k => a + Z.of_nat k) (seq 0 (Z.to_nat (b - a))).

(** [s.add(x)] on a set listed in insertion order. *)
Definition set_add {A} `{EqDecision A} (x : A) (s : list A) : list A :=
  if bool_decide (x ∈ s) then s else s ++ [x].

(** The bound of a slice, [l[:k]] and [l[k:]]. *)
Definition clip {A} (l : list A) (k : Z) : nat :=
  let n := Z.of_nat (length l) in
  Z.to_nat (if k <? 0 then Z.max 0 (n + k) else Z.min k n).
Definition slice_to {A} (l : list A) (k : Z) : list A := take (clip l k) l.
Definition slice_from {A} (l : list A) (k : Z) : list A := drop (clip l k) l.

(** [l[i] = x] *)
Definition setitem {A} (l : list A) (i : Z) (x : A) : result (list A) :=
  let n := Z.of_nat (length l) in
  let k := if i <? 0 then i + n else i in
  if (k <? 0) || (n <=? k) then Raise IndexError
  else Ok (<[Z.to_nat k := x]> l).

(** [a1 = bus[i] if i >= 0 else None] and
    [a2 = bus[i + 1] if i + 1 < len(bus) else None] *)
Definition cut_at (bus : list Z) (tripIndex : Z) : result (option Z * option Z) :=
  a1 ← (if 0 <=? tripIndex then x ← Py.getitem bus tripIndex; Ok (Some x)
        else Ok None);
  a2 ← (if tripIndex + 1 <? Z.of_nat (length bus)
        then x ← Py.getitem bus (tripIndex + 1); Ok (Some x)
        else Ok None);
  Ok (a1, a2).

Section LocalSearch.
Variable sedges : gset (Z * Z).
Variable edgesWeights : list (Z * Z * Qc).
Variable kept multiplications : Z.

(** [assert (a1 is None or a2 is None or (a1, a2) in sedges)] *)
Definition assert_edge (a1 a2 : option Z) : result unit :=
  match a1, a2 with
  | Some a, Some b => Py.assert (bool_decide ((a, b) ∈ sedges))
  | _, _ => Ok tt
  end.

Definition count_None (l : list (option Z)) : nat :=
  length (filter (fun o => o = None) l).

(** The condition under which the pair of cuts is skipped. *)
Definition not_swappable (a1 a2 b1 b2 : option Z) : bool :=
  (1 <? count_None [a1; a2; b1; b2])%nat
  || match b1, a2 with
     | Some b, Some a => negb (bool_decide ((b, a) ∈ sedges))
     | _, _ => false
     end
  || match a1, b2 with
     | Some a, Some b => negb (bool_decide ((a, b) ∈ sedges))
     | _, _ => false
     end.

(** The two inner loops shared by the first enumeration and the
    re-enumeration: the cuts of [bus1] against the cuts of [bus2]. *)
Definition cuts_of_second (busIndex1 tripIndex1 : Z) (a1 a2 : option Z)
    (busIndex2 : Z) (bus2 : list Z) (acc : list swap) : result (list swap) :=
  foldM (fun acc tripIndex2 =>
      '(b1, b2) ← cut_at bus2 tripIndex2;
      _ ← assert_edge b1 b2;
      Ok (if not_swappable a1 a2 b1 b2 then acc
          else set_add (busIndex1, tripIndex1, busIndex2, tripIndex2) acc))
    acc (range_from (-1) (Z.of_nat (length bus2))).

Definition initial_swaps (buses : list (list Z)) : result (list swap) :=
  foldM (fun acc '(busIndex1, bus1) =>
      foldM (fun acc busIndex2 =>
          _ ← Py.assert (negb (busIndex1 =? busIndex2));
          bus2 ← Py.getitem buses busIndex2;
          foldM (fun acc tripIndex1 =>
              '(a1, a2) ← cut_at bus1 tripIndex1;
              _ ← assert_edge a1 a2;
              cuts_of_second busIndex1 tripIndex1 a1 a2 busIndex2 bus2 acc)
            acc (range_from (-1) (Z.of_nat (length bus1))))
        acc (range_from (busIndex1 + 1) (Z.of_nat (length buses))))
    [] (Py.enumerate buses).

(** The scan [for idx, swap in enumerate(possibleSwaps)] that collects
    the elements at the sampled positions. *)
Fixpoint scan (idx : nat) (possibleSwaps : list swap) (chosenIdx : nat)
    (later : list nat) : list swap :=
  match possibleSwaps with
  | [] => []
  | sw :: rest =>
      if (idx =? chosenIdx)%nat then
        sw :: match later with
              | [] => []
              | c :: later' => scan (S idx) rest c later'
              end
      else scan (S idx) rest chosenIdx later
  end.

(** The proposals made from one solution. [sample] stands for the
    list drawn by [random.sample(range(len(possibleSwaps)), k)]; its
    first [k] elements are used. *)
Definition propose (sample : list nat) (s : solution) : result (list solution) :=
  let '(_, buses, length_, possibleSwaps) := s in
  let k := Z.min multiplications (Z.of_nat (length possibleSwaps)) in
  if k <? 0 then Raise (ValueError "Sample larger than population or is negative")
  else
    let multiSol := Py.sort_by Nat.leb id (take (Z.to_nat k) sample) in
    match multiSol with
    | [] => Raise IndexError
    | chosenIdx :: later =>
        let swapSols := scan 0 possibleSwaps chosenIdx later in
        Py.mapM (fun sw : swap =>
            let '(bus1I, trip1I, bus2I, trip2I) := sw in
            bus1 ← Py.getitem buses bus1I;
            bus2 ← Py.getitem buses bus2I;
            '(a1, a2) ← cut_at bus1 trip1I;
            '(b1, b2) ← cut_at bus2 trip2I;
            swd ← EvaluateSwapDiffShort bus1 bus2 a1 a2 b1 b2 edgesWeights;
            Ok (Some sw, buses, (length_ + swd)%Qc, possibleSwaps))
          swapSols
    end.

(** The body of [for i, s in enumerate(solutions)]: the swap of a
    kept solution is carried out and its swappable cuts are listed
    again for the two duties that changed. *)
Definition apply_swap (s : solution) : result solution :=
  let '(sw, buses, currentLength, possibleSwaps) := s in
  match sw with
  | None => Ok (None, buses, currentLength, possibleSwaps)
  | Some (bus1I, trip1I, bus2I, trip2I) =>
      bus1 ← Py.getitem buses bus1I;
      bus2 ← Py.getitem buses bus2I;
      let busA := slice_to bus1 (trip1I + 1) ++ slice_from bus2 (trip2I + 1) in
      let busB := slice_to bus2 (trip2I + 1) ++ slice_from bus1 (trip1I + 1) in
      _ ← Py.assert (length busA + length busB =? length bus1 + length bus2)%nat;
      currentBuses ← setitem buses bus1I busA;
      currentBuses ← setitem currentBuses bus2I busB;
      let touched (e : swap) : bool :=
        let '(e0, _, e2, _) := e in
        (e0 =? bus1I) || (e0 =? bus2I) || (e2 =? bus1I) || (e2 =? bus2I) in
      let currentSwappableEdges := filter (fun e => negb (touched e)) possibleSwaps in
      let ourBuses := [(bus1I, busA); (bus2I, busB)] in
      swaps ← foldM (fun acc '(ourI, our) =>
          foldM (fun acc tripIndex1 =>
              '(a1, a2) ← cut_at our tripIndex1;
              _ ← assert_edge a1 a2;
              foldM (fun acc '(otherI, other) =>
                  if (otherI =? bus1I) || (otherI =? bus2I) then Ok acc
                  else cuts_of_second ourI tripIndex1 a1 a2 otherI other acc)
                acc (Py.enumerate currentBuses))
            acc (range_from (-1) (Z.of_nat (length our))))
        currentSwappableEdges ourBuses;
      Ok (None, currentBuses, currentLength, swaps)
  end.

(** What one round draws from [random]. *)
Record Random : Type := mkRandom {
  rnd_swaps : nat -> list nat;   (* per solution: positions in its set of swaps *)
  rnd_kept : list nat;           (* positions in [newSolutions[1:]] *)
  rnd_tie : nat -> Qc            (* [random.random()] in the last sort key *)
}.

(** [int(lns / n)] with [n = max(sqrt(lns / (kept - 1)), 1)], in exact
    arithmetic. *)
Definition sample_size (lns : Z) : Z :=
  if lns <=? kept - 1 then lns else Z.sqrt (lns * (kept - 1)).

Definition QcQc_leb (p q : Qc * Qc) : bool :=
  bool_decide (p.1 < q.1)%Qc || (bool_decide (p.1 = q.1) && Py.Qc_leb p.2 q.2).

(** One pass through the body of [while swapCount < iterations]. *)
Definition round (rnd : Random) (solutions : list solution) : result (list solution) :=
  proposed ← Py.mapM (fun '(i, s) => propose (rnd_swaps rnd i) s)
               (imap (fun i s => (i, s)) solutions);
  let newSolutions := Py.sort_by Py.Qc_leb sol_length (solutions ++ concat proposed) in
  best ← Py.getitem newSolutions 0;
  let lns := Z.of_nat (length newSolutions) - 1 in
  let solutions :=
    if 1 <? kept then
      let rest := drop 1 newSolutions in
      let randomlyChosen :=
        take (Z.to_nat (sample_size lns)) (omap (fun i => rest !! i) (rnd_kept rnd)) in
      let bestRandoms :=
        slice_to (Py.sort_by Py.Qc_leb sol_length randomlyChosen) (kept - 1) in
      [best] ++ bestRandoms
    else [best] in
  solutions ← Py.mapM apply_swap solutions;
  Ok (map snd (Py.sort_by QcQc_leb fst
                 (imap (fun i s => ((sol_length s, rnd_tie rnd i), s)) solutions))).

(** The loop: [n] rounds, the [k]-th with the draws [rnds k]. *)
Fixpoint rounds (n : nat) (rnds : nat -> Random) (k : nat)
    (solutions : list solution) : result (list solution) :=
  match n with
  | O => Ok solutions
  | S n' => solutions' ← round (rnds k) solutions; rounds n' rnds (S k) solutions'
  end.

(** After the loop: the duties of [solutions[0]], sorted. *)
Definition finish (solutions : list solution) : result (list (list Z)) :=
  s ← Py.getitem solutions 0;
  sort_buses s.1.1.2.
End LocalSearch.

(** The function from the point where [defaultSolution] is known. *)
Definition OptimizeTripsCircularApprox (defaultSolution : list (list Z))
    (trips : list Trip) (dists : list (list Z)) (stopsMap : list (string * Z))
    (iterations kept multiplications : Z) (rnds : nat -> Random) : result (list (list Z)) :=
  let buses := defaultSolution in
  length_ ← EvaluateLength defaultSolution trips dists stopsMap;
  edges ← CreateFeasibilityGraph trips stopsMap dists 24;
  edgesWeights ← CreateDeadheadMap edges trips (PyDict.keys stopsMap) dists None 0 0;
  edgesWeights ← foldM (fun ew '(u, v) =>
                    dist ← GetDistFromEdge (v, u) trips stopsMap dists None 0 0;
                    Ok (PyDict.set ew (v, u) dist)) edgesWeights edges;
  let sedges : gset (Z * Z) := list_to_set edges in
  possibleSwaps ← initial_swaps sedges buses;
  solutions ← rounds sedges edgesWeights kept multiplications
                (Z.to_nat iterations) rnds 0 [(None, buses, length_, possibleSwaps)];
  finish solutions.

(** *** OptimizeTripsCircularsExact, after [status = m.optimize()]

    The MILP solver is outside the program: its answer is the status,
    the variables with their values ([x] is [None] when the solver has
    no solution) and the objective value. A file system is a dictionary
    from paths to contents. [str_float] and [str_int] are [str] on a
    float and on an int. *)

Inductive OptimizationStatus : Type :=
| ERROR | OPTIMAL | INFEASIBLE | UNBOUNDED | FEASIBLE
| INT_INFEASIBLE | NO_SOLUTION_FOUND | LOADED | CUTOFF | OTHER.

Record Var : Type := mkVar { name : string; x : option Qc }.

Section Exact.
Variable str_float : Qc -> string.
Variable str_int : Z -> string.

(** [f"{v}"] for a float or [None] *)
Definition fmt (v : option Qc) : string :=
  match v with Some q => str_float q | None => "None" end.

Definition newline : string := String (ascii_of_nat 10) EmptyString.

(** [int(q)]: towards zero *)
Definition trunc (q : Qc) : Z := Z.quot (Qnum (this q)) (Zpos (Qden (this q))).

(** The dump written when no solution was found. *)
Definition raw_dump (vars : list Var) (objective_value : option Qc) : string :=
  foldr (fun var acc => name var +:+ " " +:+ fmt (x var) +:+ newline +:+ acc)
        (fmt objective_value +:+ newline) vars.

(** The loop that writes the chosen variables: the text written so
    far, and whether the loop went through. *)
Fixpoint write_chosen (vars : list Var) (written : string) : string * result unit :=
  match vars with
  | [] => (written, Ok tt)
  | var :: vars' =>
      match x var with
      | None => (written, Raise TypeError)
      | Some q =>
          if bool_decide (1 - Q2Qc (1 # 16) ≤ q)%Qc
          then write_chosen vars'
                 (written +:+ name var +:+ " " +:+ str_int (trunc q) +:+ newline)
          else write_chosen vars' written
      end
  end.

(** [abs(x - 1) < 2 ** -4] *)
Definition is_one (q : Qc) : bool :=
  bool_decide (- Q2Qc (1 # 16) < q - 1)%Qc && bool_decide (q - 1 < Q2Qc (1 # 16))%Qc.

(** [b, f, t = c.split(','); buses[int(b[1:])].add(int(f))] *)
Definition add_combination (buses : list (gset Z)) (c : string) : result (list (gset Z)) :=
  match Py.split "," c with
  | [b; f; t] =>
      b ← Py.int (match b with String _ r => r | EmptyString => EmptyString end);
      f ← Py.int f;
      bs ← Py.getitem buses b;
      setitem buses b (bs ∪ {[f]})
  | _ => Raise (ValueError "not enough values to unpack")
  end.

Definition OptimizeTripsCircularsExact_after_optimize
    (trips : list Trip) (buscount : nat)
    (status : OptimizationStatus) (vars : list Var) (objective_value : option Qc)
    (fs : list (string * string)) : list (string * string) * result (list (list Trip)) :=
  match status with
  | NO_SOLUTION_FOUND | INFEASIBLE =>
      (PyDict.set fs "model.sol" (raw_dump vars objective_value),
       Raise (Exception "No solution found"))
  | _ =>
      let '(written, went) := write_chosen vars EmptyString in
      match went with
      | Ok _ =>
          let fs := PyDict.set fs "model.sol"
                      (written +:+ fmt objective_value +:+ newline) in
          (fs,
           combinations ← Py.mapM (fun var =>
               match x var with
               | None => Raise TypeError
               | Some q => Ok (if is_one q then [name var] else [])
               end) vars;
           buses ← foldM add_combination (replicate buscount ∅) (concat combinations);
           let buses := map (fun bs : gset Z => Py.sort_by Z.leb id (elements bs)) buses in
           Py.mapM (fun bus => Py.mapM (fun i => Py.getitem trips i) bus) buses)
      | Raise e => (PyDict.set fs "model.sol" written, Raise e)
      | Hang => (PyDict.set fs "model.sol" written, Hang)
      end
  end.
End Exact.

End Main.

Export Main.

(** ** Schedule_Rendering.py *)

Module Rendering.

Section Json.
Variable strftime : Z -> string.
Variable strptime : string -> result Z.

(** [{"Bus": i + 1, "Trips": [t.ToDictForJson() for t in bus]}] *)
Definition bus_to_json (ibus : Z * list Trip) : json :=
  JDict [("Bus", JInt (ibus.1 + 1));
         ("Trips", JList (map (fun t => JDict (ToDictForJson strftime t)) ibus.2))].

Definition SchedulesToJsonDict (schedule : list (list Trip))
    (scheduleArgs : list (string * json)) : list (string * json) :=
  let res := PyDict.of_items scheduleArgs in
  let trips := map bus_to_json (Py.enumerate schedule) in
  PyDict.set res "Bus schedules" (JList trips).

(** [[Trip.FromDictForJson(t) for t in b["Trips"]]] *)
Definition bus_from_json (b : json) : result (list Trip) :=
  b ← as_dict b;
  ts ← PyDict.getitem b "Trips" ≫= as_list;
  Py.mapM (fun t => as_dict t ≫= FromDictForJson strptime) ts.

Definition SchedulesFromJsonDict (schedules : list (string * json))
    : result (list (list Trip) * list (string * json)) :=
  let scheduleArgs :=
    PyDict.of_items
      (filter (fun kv : string * json => kv.1 <> "Bus schedules") schedules) in
  buses ← PyDict.getitem schedules "Bus schedules" ≫= as_list;
  res ← Py.mapM bus_from_json buses;
  Ok (res, scheduleArgs).
End Json.

End Rendering.

Export Rendering.

(** ** What the specification says, in its own words

    These definitions follow the text of the specification, not the
    program; they are what the program is compared with. *)

Module Spec.

(** "a 1- or 2-digit hour", "a 2-digit minute": a field of decimal
    digits only. *)
Definition digits_only (f : string) : option Z :=
  match f with
  | String c EmptyString => Py.digit_val c
  | String c (String d EmptyString) =>
      match Py.digit_val c, Py.digit_val d with
      | Some a, Some b => Some (10 * a + b)
      | _, _ => None
      end
  | _ => None
  end.

(** "accepts exactly the strings with a 1- or 2-digit hour in 0..23 and
    a 2-digit minute in 0..59, returning 60·hour + minute". *)
Definition accepts_HxM (hhmm : string) : option Z :=
  match Py.split ":" hhmm with
  | [shh; smm] =>
      match digits_only shh, digits_only smm with
      | Some h, Some m =>
          if (String.length smm =? 2)%nat && (h <? 24) && (m <? 60)
          then Some (60 * h + m) else None
      | _, _ => None
      end
  | _ => None
  end.

(** "distance(end_stop(i), start_stop(j))": the entry of the matrix at
    the indices of the two stops. *)
Definition distance (stopsMap : list (string * Z)) (distances : list (list Z))
    (s1 s2 : string) : result Z :=
  a ← PyDict.getitem stopsMap s1;
  b ← PyDict.getitem stopsMap s2;
  Py.getitem2 distances a b.



(** "descending length, then by first trip index": duty [a] may stand
    before duty [b]. *)
Definition before (a b : list Z) : Prop :=
  (length b < length a)%nat \/ (length a = length b /\ hd 0 a <= hd 0 b).

(** A duty list in the order of presentation: every duty may stand
    before all the later ones, and no duty is empty. *)
Definition presentation_order (buses : list (list Z)) : Prop :=
  StronglySorted before buses /\ Forall (fun b => b <> []) buses.


(** "each trip index occurring at most once as an edge source and at
    most once as an edge target" *)
Definition is_matching (edges : list (Z * Z)) : Prop :=
  NoDup (map fst edges) /\ NoDup (map snd edges).

(** "every trip index appears in exactly one duty, with no duplicates
    and no omissions" *)
Definition partitions (tripsCount : Z) (buses : list (list Z)) : Prop :=
  concat buses ≡ₚ Py.range tripsCount.



(** A trip that can be read back from its dictionary: its [Via] is not
    the empty list, and its day, if it has one, is written as a non-empty
    string from which [strptime] reads the same day. *)
Definition readable (strftime : Z -> string) (strptime : string -> result Z)
    (t : Trip) : Prop :=
  Via t <> Some [] /\
  forall d, Day t = Some d ->
    strftime d <> EmptyString /\ strptime (strftime d) = Ok d.


End Spec.

(** ** What [int()] reads in a field of one or two characters *)

Module Fields.

(** One digit; two digits; a sign and a digit; a digit with one white
    space before or after it. *)
Definition short_int (f : string) : option Z :=
  match f with
  | String c EmptyString => Py.digit_val c
  | String c (String d EmptyString) =>
      match Py.digit_val c, Py.digit_val d with
      | Some a, Some b => Some (10 * a + b)
      | None, Some b =>
          if Ascii.eqb c "+" || Py.is_space c then Some b
          else if Ascii.eqb c "-" then Some (- b)
          else None
      | Some a, None => if Py.is_space d then Some a else None
      | None, None => None
      end
  | _ => None
  end.

Fixpoint occurs (c : ascii) (s : string) : bool :=
  match s with
  | EmptyString => false
  | String c' s' => Ascii.eqb c' c || occurs c s'
  end.

Definition all_ascii : list ascii := map ascii_of_nat (seq 0 256).

Definition bad_literal : result Z :=
  Raise (ValueError "invalid literal for int() with base 10").

Definition result_Z_eqb (r1 r2 : result Z) : bool :=
  match r1, r2 with
  | Ok a, Ok b => a =? b
  | Raise (ValueError m1), Raise (ValueError m2) => String.eqb m1 m2
  | _, _ => false
  end.

Definition agrees (f : string) : bool :=
  result_Z_eqb (Py.int f) (from_option Ok bad_literal (short_int f)).

(** The value of an accepted string, field by field. *)
Definition reads (s : string) (r : Z) : Prop :=
  exists shh smm h m,
    s = shh +:+ String ":" smm /\
    occurs ":" shh = false /\ occurs ":" smm = false /\
    (String.length shh = 1 \/ String.length shh = 2)%nat /\
    String.length smm = 2%nat /\
    short_int shh = Some h /\ short_int smm = Some m /\
    0 <= h < 24 /\ 0 <= m < 60 /\ r = 60 * h + m.

End Fields.

(** ** Sample inputs *)

Module Examples.

(** Line 12, trip 7 from A to B, leaving at 23:50 and arriving at 0:20,
    on the day after the first day of the horizon. *)
Definition overnight : Trip :=
  new_Trip 12 7 "A" "B" "23:50" "0:20" None (Some 738886).


(** Scenario 1 of the specification: T1 (A to B, 08:00 - 08:30),
    T2 (B to C, 08:40 - 09:10), T3 (C to A, 09:20 - 09:50), no deadhead
    between any two stops. *)
Definition T1 : Trip := with_minutes (new_Trip 1 1 "A" "B" "8:00" "8:30" None None) 480 510.
Definition T2 : Trip := with_minutes (new_Trip 1 2 "B" "C" "8:40" "9:10" None None) 520 550.
Definition T3 : Trip := with_minutes (new_Trip 1 3 "C" "A" "9:20" "9:50" None None) 560 590.
Definition scenario_trips : list Trip := [T1; T2; T3].
Definition scenario_stops : list (string * Z) := [("A", 0); ("B", 1); ("C", 2)].
Definition scenario_dists : list (list Z) := [[0; 0; 0]; [0; 0; 0]; [0; 0; 0]].

Definition depot_dists : list (list Z) := [[0; 10; 10]; [10; 0; 1]; [10; 1; 0]].

(** Five trips that are not listed in the order of their times: trip 0
    stands apart at stop D, the trips 3, 4, 1, 2 follow one another at
    stop A at 8:00, 9:00, 10:00 and 11:00. The one matching of three
    edges in their feasibility graph chains them as 3, 4, 1, 2. *)
Definition at_A (no : Z) (t1 t2 : string) (s e : Z) : Trip :=
  with_minutes (new_Trip 7 no "A" "A" t1 t2 None None) s e.
Definition backward_trips : list Trip :=
  [ with_minutes (new_Trip 9 1 "D" "D" "7:00" "7:30" None None) 420 450;
    at_A 3 "10:00" "10:30" 600 630;
    at_A 4 "11:00" "11:30" 660 690;
    at_A 1 "8:00" "8:30" 480 510;
    at_A 2 "9:00" "9:30" 540 570 ].
Definition backward_stops : list (string * Z) := [("A", 0); ("D", 1)].
Definition backward_dists : list (list Z) := [[0; 2000]; [2000; 0]].
Definition backward_edges : list (Z * Z) := [(1, 2); (3, 4); (4, 1)].

(** The calendar on the two days of the samples: 2024-01-01 has the
    ordinal 738886. *)
Definition strftime_2024 (d : Z) : string :=
  if d =? 738886 then "2024-01-01" else if d =? 738887 then "2024-01-02" else "".
Definition strptime_2024 (s : string) : result Z :=
  if String.eqb s "2024-01-01" then Ok 738886
  else if String.eqb s "2024-01-02" then Ok 738887
  else Raise (ValueError "time data does not match format").

(** A trip with two stops on the way, and one whose list of stops on the
    way is empty. *)
Definition with_stops : Trip :=
  new_Trip 3 14 "A" "C" "10:00" "10:40"
    (Some [JDict [("Stop", JStr "A")]; JDict [("Stop", JStr "B")]]) (Some 738886).
Definition no_stops : Trip :=
  new_Trip 3 15 "A" "C" "11:00" "11:40" (Some []) None.

(** A local search on two duties 0, 1 and 2, 3, where trip 3 may also
    follow trip 0 and trip 1 may follow trip 2, at a lower cost. The one
    swap cuts both duties after their first trip. *)
Definition ls_sedges : gset (Z * Z) := list_to_set [(0, 1); (2, 3); (0, 3); (2, 1)].
Definition ls_weights : list (Z * Z * Qc) :=
  [((0, 1), Qc_of_Z 5); ((2, 3), Qc_of_Z 5); ((0, 3), Qc_of_Z 1); ((2, 1), Qc_of_Z 1)].
Definition ls_start : list solution :=
  [(None, [[0; 1]; [2; 3]], Qc_of_Z 10, [(0, 0, 1, 0)])].
Definition ls_random : Random :=
  mkRandom (fun _ => [0%nat]) [0%nat] (fun _ => 0%Qc).

End Examples.

(** The value of a number that may be a float, as a fraction in lowest
    terms. *)
Definition as_Q (r : result Qc) : result Q := this <$> r.

(** ** Measures used in the proofs *)

(** The keys of [be] from [v] upwards: the walk can visit no others. *)
Definition keys_from (v : Z) (be : list (Z * Z)) : nat :=
  length (filter (fun kw : Z * Z => v <= kw.1) be).

(** The trip the loop of the chainer moves on to from [v], if it does,
    and the trip reached after [k] such moves. *)
Definition next_trip (be : list (Z * Z)) (tripsCount v : Z) : option Z :=
  match PyDict.get be v with
  | Some w => if (w =? 0) || (tripsCount <=? w) then None else Some w
  | None => None
  end.

Fixpoint walk (be : list (Z * Z)) (tripsCount : Z) (k : nat) (v : Z) : option Z :=
  match k with
  | O => Some v
  | S k' => next_trip be tripsCount v ≫= walk be tripsCount k'
  end.

(** What the loop of the chainer maintains, [done] being the items of
    [be] it has gone through: the chains hold the used trips once each;
    a used trip has its successor used; a used trip is the source of an
    item gone through or the successor of a used trip; the sources gone
    through are used; the used trips are trip indices; no chain is
    empty. *)
Definition chainer_invariant (be : list (Z * Z)) (n : Z) (done : list (Z * Z))
    (used : gset Z) (chains : list (list Z)) : Prop :=
  (forall x, x ∈ used <-> x ∈ concat chains) /\
  NoDup (concat chains) /\
  (forall x y, x ∈ used -> (x, y) ∈ be -> y ∈ used) /\
  (forall y, y ∈ used -> (exists v, (y, v) ∈ done) \/ (exists x, x ∈ used /\ (x, y) ∈ be)) /\
  (forall u v, (u, v) ∈ done -> u ∈ used) /\
  (forall x, x ∈ used -> 0 <= x < n) /\
  Forall (fun b => b <> []) chains.

(** The chain being built from [u]: [tip] is its last trip while the
    walk goes on and [None] when it has ended; [used0] are the trips used
    before. *)
Definition chain_invariant (be : list (Z * Z)) (n : Z) (u : Z) (used0 : gset Z)
    (tip : option Z) (used : gset Z) (cur : list Z) : Prop :=
  (forall x, x ∈ used <-> x ∈ used0 \/ x ∈ cur) /\
  NoDup cur /\
  (forall x, x ∈ cur -> (x ∉ used0) /\ u <= x /\ (0 <= x < n)) /\
  u ∈ cur /\
  (forall x y, x ∈ cur -> tip <> Some x -> (x, y) ∈ be -> y ∈ cur) /\
  (forall y, y ∈ cur -> y = u \/ exists x, x ∈ cur /\ (x, y) ∈ be) /\
  (forall w, tip = Some w -> w ∈ cur /\ forall x, x ∈ cur -> x <= w).

(** ** Scheduling_Main.py: EvaluateSchedules *)

Module Evaluation.

(** [sum(l)] on ints *)
Definition Z_sum (l : list Z) : Z := foldl Z.add 0 l.

(** [enumerate(l, 1)] *)
Definition enumerate_from_1 {A} (l : list A) : list (Z * A) :=
  imap (fun i x => (Z.of_nat i + 1, x)) l.

(** [stops[k]] for a key [k] read from JSON: a list or a dictionary is
    not hashable, any other value that is not a string is no key of
    [stops]. *)
Definition getitem_json (stops : list (string * Z)) (k : json) : result Z :=
  match k with
  | JStr s => PyDict.getitem stops s
  | JList _ | JDict _ => Raise TypeError
  | _ => Raise KeyError
  end.

(** [int(distanceMatrix[i][j])], where [i] and [j] are expressions that
    may raise: [i] is evaluated, then the row is taken, then [j] is
    evaluated. *)
Definition between (distanceMatrix : list (list Z)) (i j : result Z) : result Z :=
  i ← i; row ← Py.getitem distanceMatrix i; j ← j; Py.getitem row j.

Section Evaluate.
Variable strftime : Z -> string.
Variable stops : list (string * Z).
Variable distanceMatrix : list (list Z).
Variable schedulingMethod : string.
Variable depot : option json.

(** The body of [for busNo, busBlock in enumerate(schedule, 1)]: the
    dictionary appended to [blocks]. *)
Definition block (busNo : Z) (busBlock : list Trip) : result (list (string * json)) :=
  let n := Z.of_nat (length busBlock) in
  let tripTimes := map (fun trip => EndTimeMins trip - StartTimeMins trip) busBlock in
  let tripTimeTotal := Z_sum tripTimes in
  deadheadTimes ← Py.mapM (fun i =>
      between distanceMatrix
        (t ← Py.getitem busBlock i; PyDict.getitem stops (EndStop t))
        (t ← Py.getitem busBlock (i + 1); PyDict.getitem stops (StartStop t)))
    (Py.range (n - 1));
  let deadheadTimeTotal := Z_sum deadheadTimes in
  waitingTimes ← Py.mapM (fun i =>
      next ← Py.getitem busBlock (i + 1);
      this ← Py.getitem busBlock i;
      d ← Py.getitem deadheadTimes i;
      Ok (StartTimeMins next - (EndTimeMins this + d)))
    (Py.range (n - 1));
  let waitingTimeTotal := Z_sum waitingTimes in
  let trips := map (ToDictForJson strftime) busBlock in
  trips ← foldM (fun trips i =>
      t ← Py.getitem trips i;
      tripTime ← Py.getitem tripTimes i;
      waitingTime ← Py.getitem waitingTimes i;
      deadheadTime ← Py.getitem deadheadTimes i;
      setitem trips i
        (PyDict.update t [ ("Trip time", JInt tripTime);
                           ("Waiting time", JInt waitingTime);
                           ("Deadhead time", JInt deadheadTime) ]))
    trips (Py.range (n - 1));
  t ← Py.getitem trips (-1);
  tripTime ← Py.getitem tripTimes (-1);
  trips ← setitem trips (-1) (PyDict.update t [("Trip time", JInt tripTime)]);
  lastTrip ← Py.getitem busBlock (-1);
  firstTrip ← Py.getitem busBlock 0;
  returnTime ← between distanceMatrix
                  (PyDict.getitem stops (EndStop lastTrip))
                  (PyDict.getitem stops (StartStop firstTrip));
  let waitingTime :=
    (StartTimeMins firstTrip - (EndTimeMins lastTrip + returnTime)) `mod` (24 * 60) in
  let deadheadTimeTotal :=
    if String.eqb schedulingMethod "circular"
    then deadheadTimeTotal + returnTime else deadheadTimeTotal in
  '(pullOut, pullIn, lastReturn, deadheadTimeTotal) ←
    match depot with
    | Some depot =>
        if truthy depot then
          pullOutTime ← between distanceMatrix
                           (getitem_json stops depot)
                           (PyDict.getitem stops (StartStop firstTrip));
          let deadheadTimeTotal := deadheadTimeTotal + pullOutTime in
          let pullOut := JDict [ ("Depot", depot);
                                 ("First departure", JStr (StartStop firstTrip));
                                 ("Pull-out time", JInt pullOutTime) ] in
          pullInTime ← between distanceMatrix
                          (PyDict.getitem stops (EndStop lastTrip))
                          (getitem_json stops depot);
          let deadheadTimeTotal := deadheadTimeTotal + pullInTime in
          let pullIn := JDict [ ("Depot", depot);
                                ("Last arrival", JStr (EndStop lastTrip));
                                ("Pull-in time", JInt pullInTime) ] in
          Ok (pullOut, pullIn, JNull, deadheadTimeTotal)
        else
          Ok (JNull, JNull,
              JDict [ ("Start stop", JStr (EndStop lastTrip));
                      ("End stop", JStr (StartStop firstTrip));
                      ("Return time", JInt returnTime);
                      ("Reserve time", JInt waitingTime) ],
              deadheadTimeTotal)
    | None =>
        Ok (JNull, JNull,
            JDict [ ("Start stop", JStr (EndStop lastTrip));
                    ("End stop", JStr (StartStop firstTrip));
                    ("Return time", JInt returnTime);
                    ("Reserve time", JInt waitingTime) ],
            deadheadTimeTotal)
    end;
  Ok [ ("Bus number", JInt busNo);
       ("Pull-out", pullOut);
       ("Trips", JList (map JDict trips));
       ("Pull-in", pullIn);
       ("Turn-around", lastReturn);
       ("Total trip time", JInt tripTimeTotal);
       ("Total deadheading time", JInt deadheadTimeTotal);
       ("Total waiting time", JInt waitingTimeTotal) ].
End Evaluate.

(** [sum(bus[key] for bus in blocks)] *)
Definition sum_of (key : string) (blocks : list (list (string * json))) : result Z :=
  Z_sum <$> Py.mapM (fun bus => PyDict.getitem bus key ≫= as_int) blocks.

Definition EvaluateSchedules (strftime : Z -> string) (schedule : list (list Trip))
    (stops : list (string * Z)) (distanceMatrix : list (list Z))
    (schedulingMethod : string) (scheduleArgs : list (string * json))
    : result (list (string * json)) :=
  if negb (bool_decide (schedulingMethod ∈ ["default"; "depot"; "circular"]))
  then Raise (ValueError "Unknown scheduling mode")
  else
    let res := [("Scheduling method", JStr schedulingMethod)] in
    let res := PyDict.update res (PyDict.of_items scheduleArgs) in
    let depot := PyDict.get scheduleArgs "depot" in
    blocks ← Py.mapM (fun '(busNo, busBlock) =>
                 block strftime stops distanceMatrix schedulingMethod depot busNo busBlock)
               (enumerate_from_1 schedule);
    let res := PyDict.set res "Bus schedules" (JList (map JDict blocks)) in
    tripTime ← sum_of "Total trip time" blocks;
    let res := PyDict.set res "Global trip time" (JInt tripTime) in
    deadheadTime ← sum_of "Total deadheading time" blocks;
    let res := PyDict.set res "Global deadhead time" (JInt deadheadTime) in
    waitingTime ← sum_of "Total waiting time" blocks;
    let res := PyDict.set res "Global waiting time" (JInt waitingTime) in
    tripCount ← Z_sum <$> Py.mapM (fun bus =>
                    ts ← PyDict.getitem bus "Trips" ≫= as_list;
                    Ok (Z.of_nat (length ts))) blocks;
    Ok (PyDict.set res "Global trip count" (JInt tripCount)).

End Evaluation.

Export Evaluation.

(** ** Scheduling_Utilities.py: the other functions *)

(** [str(n)] on an int, and the string methods used with it. *)
Module PyStr.

Definition digit_char (d : Z) : ascii := ascii_of_nat (48 + Z.to_nat d).

(** The decimal digits of [n >= 0] in front of [acc]; [fuel] bounds
    their number. *)
Fixpoint digits_of (fuel : nat) (n : Z) (acc : string) : string :=
  match fuel with
  | O => acc
  | S fuel' =>
      let acc' := String (digit_char (n `mod` 10)) acc in
      if n <? 10 then acc' else digits_of fuel' (n / 10) acc'
  end.

(** A number below [2 ^ k] has at most [k] decimal digits (and 0 has
    one). *)
Definition str_nonneg (n : Z) : string :=
  digits_of (S (Z.to_nat (Z.log2 n))) n EmptyString.

(** [str(n)] *)
Definition str (n : Z) : string :=
  if n <? 0 then String "-" (str_nonneg (- n)) else str_nonneg n.

(** [s.rjust(width, fill)] *)
Definition rjust (width : nat) (fill : ascii) (s : string) : string :=
  string_of_list_ascii (replicate (width - String.length s) fill) +:+ s.

(** [s[1:-1]] *)
Fixpoint init (s : string) : string :=
  match s with
  | EmptyString => EmptyString
  | String c s' => match s' with EmptyString => EmptyString | _ => String c (init s') end
  end.
Definition slice_1_m1 (s : string) : string :=
  match s with
  | EmptyString => EmptyString
  | String _ s' => init s'
  end.

(** [str((u, v))] for a pair of ints *)
Definition str_pair (u v : Z) : string :=
  "(" +:+ str u +:+ ", " +:+ str v +:+ ")".

End PyStr.

Module UtilitiesRest.

Definition ConvertToHxM (mins : Z) : string :=
  let mins := mins `mod` (24 * 60) in
  let hh := mins / 60 in
  let mm := mins `mod` 60 in
  let shh := PyStr.str hh in
  let smm := PyStr.rjust 2 "0" (PyStr.str mm) in
  shh +:+ ":" +:+ smm.

Definition StrToTuple (tpl : string) : result (Z * Z) :=
  match Py.split "," (PyStr.slice_1_m1 tpl) with
  | [a; b] => a ← Py.int a; b ← Py.int b; Ok (a, b)
  | _ :: _ :: _ :: _ => Raise (ValueError "too many values to unpack")
  | _ => Raise (ValueError "not enough values to unpack")
  end.

(** [SelectRandomWeightedIdx]: [r] is the value of [random.random()];
    the result [None] is the [None] that Python returns when the loop
    ends without a [return]. *)
Fixpoint running_totals (running_total : Qc) (wts : list Qc) : list Qc :=
  match wts with
  | [] => []
  | w :: wts' => (running_total + w)%Qc :: running_totals (running_total + w)%Qc wts'
  end.

Fixpoint first_above (rnd : Qc) (i : Z) (totals : list Qc) : option Z :=
  match totals with
  | [] => None
  | total :: totals' =>
      if bool_decide (rnd < total)%Qc then Some i else first_above rnd (i + 1) totals'
  end.

Definition SelectRandomWeightedIdx (r : Qc) (wts : list Qc)
    (precalcSums : option (list Qc)) (precalcTotals : option Qc) : option Z :=
  let '(totals, running_total) :=
    match precalcSums with
    | None | Some [] =>
        let totals := running_totals 0%Qc wts in
        (totals, foldl Qcplus 0%Qc wts)
    | Some totals =>
        (totals,
         match precalcTotals with
         | Some t => if bool_decide (t = 0%Qc) then Qc_sum totals else t
         | None => Qc_sum totals
         end)
    end in
  let rnd := (r * running_total)%Qc in
  first_above rnd 0 totals.

End UtilitiesRest.

Export UtilitiesRest.

(** ** Scheduling_Precalculation.py: GetDistFromEdgeStr *)

Module PrecalculationStr.

(** [int(trip1)] and [int(trip2)] are applied to ints and return them. *)
Definition GetDistFromEdgeStr (edge : string) (trips : list Trip)
    (stops : list (string * Z)) (distances : list (list Z))
    (depotIdx : option Z) (depotVal : Z) (linePenalty : Z) : result Qc :=
  '(trip1, trip2) ← StrToTuple edge;
  GetDistFromEdge (trip1, trip2) trips stops distances depotIdx depotVal linePenalty.

End PrecalculationStr.

Export PrecalculationStr.

(** ** Scheduling_Precalculation.py: the other functions *)

Module PrecalculationRest.

(** [sorted(a | b)] for two sets of strings: strings compare by their
    code points, and the sorted list of a set does not depend on the
    order in which the set is listed. *)
Definition GetTerminals (trips : list Trip) : list string :=
  Py.sort_by String.leb id (remove_dups (map StartStop trips ++ map EndStop trips)).

(** [min(days)] for days that may be [None]: [min] takes the first
    element and compares every further one with the least so far; a
    comparison with [None] is a [TypeError]. *)
Fixpoint min_Day_from (best : option Z) (days : list (option Z)) : result (option Z) :=
  match days with
  | [] => Ok best
  | day :: days' =>
      match day, best with
      | Some d, Some b => min_Day_from (Some (if d <? b then d else b)) days'
      | _, _ => Raise TypeError
      end
  end.

Definition min_Day (days : list (option Z)) : result (option Z) :=
  match days with
  | [] => Raise (ValueError "min() arg is an empty sequence")
  | day :: days' => min_Day_from day days'
  end.

(** [RecalcAllTrips] changes the trips in place and returns nothing:
    the result is the list of the trips after the call. *)
Definition RecalcAllTrips (trips : list Trip) (firstDay : option Z) : result (list Trip) :=
  match trips with
  | [] => Ok []
  | _ =>
      firstDay ← match firstDay with
                 | Some d => Ok (Some d)
                 | None => min_Day (map Day trips)
                 end;
      Py.mapM (fun t => RecalcMinutes t firstDay) trips
  end.

(** [for t in x] for a value [x] read from JSON. *)
Definition iterate (x : json) : result (list json) :=
  match x with
  | JList l => Ok l
  | JDict d => Ok (map (fun kv : string * json => JStr kv.1) d)
  | JStr s => Ok (map (fun c => JStr (String c EmptyString)) (list_ascii_of_string s))
  | _ => Raise TypeError
  end.

(** [Trip(Line=t["Line number"], .., Via=t.get("Stops"), Day=day)],
    where [day] is an expression that may raise. The record is typed, as
    in [FromDictForJson]. *)
Definition Trip_of (t : json) (day : result Z) : result Trip :=
  t ← as_dict t;
  line ← PyDict.getitem t "Line number" ≫= as_int;
  tripNo ← PyDict.getitem t "Trip number" ≫= as_int;
  startStop ← PyDict.getitem t "Initial stop" ≫= as_str;
  endStop ← PyDict.getitem t "Terminal stop" ≫= as_str;
  startTime ← PyDict.getitem t "Departure time" ≫= as_str;
  endTime ← PyDict.getitem t "Arrival time" ≫= as_str;
  via ← get_Via t;
  day ← day;
  Ok (new_Trip line tripNo startStop endStop startTime endTime via (Some day)).

Definition CompactOneDayTrips (trips : list json) (day : Z) : result (list Trip) :=
  Py.mapM (fun t => Trip_of t (Ok day)) trips.

(** [strptime s] is [datetime.datetime.strptime(s, "%Y-%m-%d").date()]. *)
Definition CompactMultiDayTrips (strptime : string -> result Z) (trips : list json)
    : result (list Trip) :=
  res ← Py.mapM (fun d =>
           d ← as_dict d;
           day ← PyDict.getitem d "Day";
           dayTrips ← PyDict.getitem d "Trips" ≫= iterate;
           Py.mapM (fun t => Trip_of t (as_str day ≫= strptime)) dayTrips) trips;
  RecalcAllTrips (concat res) None.

(** [EstimateTripsNoDepot] and [EstimateScheduling]: the dictionary
    with the two counts. *)
Definition EstimateTripsNoDepot (trips : list Trip) (dists : list (list Z))
    (stops : list (string * Z)) : result (list (string * Z)) :=
  edges ← CreateFeasibilityGraph trips stops dists 24;
  Ok [("Trip count", Z.of_nat (length trips)); ("Edges count", Z.of_nat (length edges))].

Definition EstimateScheduling (trips : list Trip) (stops : list string)
    (distances : list (list Z)) : result (list (string * Z)) :=
  let stopsMap := PyDict.of_items (map (fun '(i, stop) => (stop, i)) (Py.enumerate stops)) in
  EstimateTripsNoDepot trips distances stopsMap.

End PrecalculationRest.

Export PrecalculationRest.

(** ** Further sample data *)

Module Samples.

(** Two lines, A to B and back and C to D and back; B and D are ten
    minutes apart, as are A and C. Trip 0 (A to B, 8:00 - 8:30) and
    trip 2 (C to D, 8:10 - 8:40) can each be followed by trip 1 (B to A,
    9:00 - 9:30) and by trip 3 (D to C, 9:10 - 9:40). *)
Definition four_trips : list Trip :=
  [ with_minutes (new_Trip 1 1 "A" "B" "8:00" "8:30" None None) 480 510;
    with_minutes (new_Trip 1 2 "B" "A" "9:00" "9:30" None None) 540 570;
    with_minutes (new_Trip 2 1 "C" "D" "8:10" "8:40" None None) 490 520;
    with_minutes (new_Trip 2 2 "D" "C" "9:10" "9:40" None None) 550 580 ].
Definition four_stops : list (string * Z) := [("A", 0); ("B", 1); ("C", 2); ("D", 3)].
Definition four_dists : list (list Z) :=
  [[0; 20; 10; 20]; [20; 0; 20; 10]; [10; 20; 0; 20]; [20; 10; 20; 0]].

(** The duties that change line at the far end. *)
Definition crossed_duties : list (list Z) := [[0; 3]; [2; 1]].

(** The same duties as lists of trips. *)
Definition crossed_schedule : list (list Trip) :=
  match four_trips with
  | [t0; t1; t2; t3] => [[t0; t3]; [t2; t1]]
  | _ => []
  end.

(** A morning trip on 2024-01-02, listed before a trip that leaves late
    on 2024-01-01 and arrives after midnight. *)
Definition two_days : list Trip :=
  [ new_Trip 1 1 "A" "B" "6:00" "7:00" None (Some 738887);
    new_Trip 1 2 "B" "A" "23:50" "0:20" None (Some 738886) ].

(** The same trips as they are read from a file of trips. *)
Definition two_days_json : list json :=
  [ JDict [ ("Day", JStr "2024-01-02");
            ("Trips", JList [ JDict [ ("Line number", JInt 1); ("Trip number", JInt 1);
                                      ("Initial stop", JStr "A"); ("Terminal stop", JStr "B");
                                      ("Departure time", JStr "6:00");
                                      ("Arrival time", JStr "7:00") ] ]) ];
    JDict [ ("Day", JStr "2024-01-01");
            ("Trips", JList [ JDict [ ("Line number", JInt 1); ("Trip number", JInt 2);
                                      ("Initial stop", JStr "B"); ("Terminal stop", JStr "A");
                                      ("Departure time", JStr "23:50");
                                      ("Arrival time", JStr "0:20") ] ]) ] ].

(** Draws that always take the first position. *)
Definition first_draws : nat -> Random :=
  fun _ => mkRandom (fun _ => [0%nat]) [0%nat] (fun _ => 0%Qc).

End Samples.

(** ** What the local search maintains *)

(** A swap names two different duties of [buses] and two cuts, -1
    being the cut before the first trip. *)
Definition swap_fits (buses : list (list Z)) (sw : swap) : Prop :=
  let '(busIndex1, tripIndex1, busIndex2, tripIndex2) := sw in
  0 <= busIndex1 < Z.of_nat (length buses) /\
  0 <= busIndex2 < Z.of_nat (length buses) /\
  busIndex1 <> busIndex2 /\
  -1 <= tripIndex1 /\ -1 <= tripIndex2.

(** A solution whose duties hold the trips [trips] once each (as a
    multiset), and whose swaps, the pending one and the possible ones,
    name two different duties. *)
Definition solution_fits (trips : list Z) (s : solution) : Prop :=
  let '(sw, buses, _, possibleSwaps) := s in
  concat buses ≡ₚ trips /\
  Forall (swap_fits buses) possibleSwaps /\
  from_option (swap_fits buses) True sw.





(** ** What [EvaluateSchedules] writes *)

(** The keys that [EvaluateSchedules] adds to the dictionary of a trip. *)
Definition time_keys : list string := ["Trip time"; "Waiting time"; "Deadhead time"].

(** The dictionary of a trip with values under some of these keys. *)
Definition decorated (strftime : Z -> string) (t : Trip) (d : list (string * json)) : Prop :=
  exists times,
    d = PyDict.update (ToDictForJson strftime t) times /\
    Forall (fun kv : string * json => kv.1 ∈ time_keys) times.

(** The three totals of the block [d] written for the duty [bus] add up
    to the time from the first departure to the last arrival of the duty,
    and with the deadheads outside this time that the block counts: the
    return to the first stop with the method "circular", the pull-out
    and the pull-in with a depot. *)
Definition accounted (stops : list (string * Z)) (distanceMatrix : list (list Z))
    (schedulingMethod : string) (depot : option json)
    (bus : list Trip) (d : list (string * json)) : Prop :=
  exists (firstTrip lastTrip : Trip) (trip deadhead waiting returnTime outside : Z),
    head bus = Some firstTrip /\ last bus = Some lastTrip /\
    PyDict.get d "Total trip time" = Some (JInt trip) /\
    PyDict.get d "Total deadheading time" = Some (JInt deadhead) /\
    PyDict.get d "Total waiting time" = Some (JInt waiting) /\
    between distanceMatrix (PyDict.getitem stops (EndStop lastTrip))
                           (PyDict.getitem stops (StartStop firstTrip)) = Ok returnTime /\
    trip + deadhead + waiting =
      EndTimeMins lastTrip - StartTimeMins firstTrip
      + (if String.eqb schedulingMethod "circular" then returnTime else 0) + outside /\
    match depot with
    | Some depot =>
        if truthy depot then
          exists pullOutTime pullInTime,
            between distanceMatrix (getitem_json stops depot)
              (PyDict.getitem stops (StartStop firstTrip)) = Ok pullOutTime /\
            between distanceMatrix (PyDict.getitem stops (EndStop lastTrip))
              (getitem_json stops depot) = Ok pullInTime /\
            outside = pullOutTime + pullInTime
        else outside = 0
    | None => outside = 0
    end.

(** ** Strings without white space and commas *)

(** A string of plain characters: no white space, no comma. *)
Fixpoint plain (s : string) : Prop :=
  match s with
  | EmptyString => True
  | String c s' => Py.is_space c = false /\ Ascii.eqb c "," = false /\ plain s'
  end.

(** ** Minutes counted from a first day *)

(** [t'] is the trip [t] with its minutes counted from midnight of the
    day [first], which is not after the day of [t]. *)
Definition from_first_day (first : Z) (t t' : Trip) : Prop :=
  exists d s e,
    Day t = Some d /\ first <= d /\
    Utilities.ParseHxM (StartTime t) = Ok s /\
    Utilities.ParseHxM (EndTime t) = Ok e /\
    t' = with_minutes t (s + (d - first) * 1440)
           ((if e <? s then e + 1440 else e) + (d - first) * 1440).

(** The minutes of [t] lie on the time line that starts at midnight of
    the day [first]: the trip starts on its day and ends less than 24
    hours later. *)
Definition on_time_line (first : Z) (t : Trip) : Prop :=
  exists d,
    Day t = Some d /\ first <= d /\
    (d - first) * 1440 <= StartTimeMins t < (d - first + 1) * 1440 /\
    StartTimeMins t <= EndTimeMins t < StartTimeMins t + 1440.

(** ** Duties along edges *)

(** Consecutive trips of the duty [bus] are joined by an edge of
    [edges]. *)
Definition chained (edges : list (Z * Z)) (bus : list Z) : Prop :=
  forall i a b, bus !! i = Some a -> bus !! S i = Some b -> (a, b) ∈ edges.

(** The order of Python's tuples on pairs of ints, strict. *)
Definition pair_lt (p q : Z * Z) : Prop := p.1 < q.1 \/ (p.1 = q.1 /\ p.2 < q.2).

(** The trips of one day as they are read from a file: a morning trip
    and a trip that arrives after midnight. *)
Definition one_day_json : list json :=
  [ JDict [ ("Line number", JInt 1); ("Trip number", JInt 1);
            ("Initial stop", JStr "A"); ("Terminal stop", JStr "B");
            ("Departure time", JStr "6:00"); ("Arrival time", JStr "7:00") ];
    JDict [ ("Line number", JInt 1); ("Trip number", JInt 2);
            ("Initial stop", JStr "B"); ("Terminal stop", JStr "A");
            ("Departure time", JStr "23:50"); ("Arrival time", JStr "0:20") ] ].

(** ** Schedule_Rendering.py: FormatSchedule *)

Module RenderingRest.

(** A [Deadhead] with the two attributes that [FormatSchedule] sets on
    it after its construction. *)
Record DeadheadRow : Type := mkDeadheadRow {
  dh : Deadhead;
  EarliestTimeMins : Z;
  EarliestTime : string
}.

(** An entry of a formatted schedule: a trip or a deadhead. *)
Inductive row : Type :=
| a_Trip (t : Trip)
| a_Deadhead (d : DeadheadRow).

(** [stops.index(x)] on a list; the message of the [ValueError], which
    names [x], is shortened. *)
Fixpoint index_from (i : Z) (l : list string) (x : string) : result Z :=
  match l with
  | [] => Raise (ValueError "is not in list")
  | y :: l' => if String.eqb y x then Ok i else index_from (i + 1) l' x
  end.
Definition index_of (l : list string) (x : string) : result Z := index_from 0 l x.

Section Format.
Variable distances : list (list Z).
Variable stops : list string.
Variable addFinalDeadhead : bool.

(** The deadhead from the end of [OldTrip] to the start of [NewTrip]. *)
Definition deadhead_between (OldTrip NewTrip : Trip) : result DeadheadRow :=
  fromId ← index_of stops (EndStop OldTrip);
  toId ← index_of stops (StartStop NewTrip);
  distance ← Py.getitem2 distances fromId toId;
  let deadhead := mkDeadhead (EndStop OldTrip) (StartStop NewTrip) distance in
  let earliestTimeMins := EndTimeMins OldTrip + distance in
  Ok (mkDeadheadRow deadhead earliestTimeMins (ConvertToHxM earliestTimeMins)).

(** The body of [for i in range(1, len(schedule))]. *)
Definition format_step (schedule : list Trip) (st : list row * Z) (i : Z)
    : result (list row * Z) :=
  let '(currentSchedule, currentDHTime) := st in
  OldTrip ← Py.getitem schedule (i - 1);
  NewTrip ← Py.getitem schedule i;
  if String.eqb (EndStop OldTrip) (StartStop NewTrip) then
    Ok (currentSchedule ++ [a_Trip NewTrip], currentDHTime)
  else
    deadhead ← deadhead_between OldTrip NewTrip;
    Ok (currentSchedule ++ [a_Deadhead deadhead; a_Trip NewTrip],
        currentDHTime + DurationMins (dh deadhead)).

(** The body of [for schedule in scheduledTrips], without a depot. *)
Definition format_one (schedule : list Trip) : result (list row * Z) :=
  first ← Py.getitem schedule 0;
  '(currentSchedule, currentDHTime) ←
    foldM (format_step schedule) ([a_Trip first], 0)
      (range_from 1 (Z.of_nat (length schedule)));
  if addFinalDeadhead then
    OldTrip ← Py.getitem schedule (-1);
    NewTrip ← Py.getitem schedule 0;
    if negb (String.eqb (EndStop OldTrip) (StartStop NewTrip)) then
      deadhead ← deadhead_between OldTrip NewTrip;
      Ok (currentSchedule ++ [a_Deadhead deadhead],
          currentDHTime + DurationMins (dh deadhead))
    else Ok (currentSchedule, currentDHTime)
  else Ok (currentSchedule, currentDHTime).

(** [FormatSchedule(scheduledTrips, distances, stops, addFinalDeadhead)]
    with the default [depot=None]; the branches for a depot, which look
    the depot up with [difflib], are left out. *)
Definition FormatSchedule (scheduledTrips : list (list Trip))
    : result (list (list row) * list Z) :=
  res ← Py.mapM format_one scheduledTrips;
  Ok (map fst res, map snd res).

End Format.

(** The trips and the deadheads among the entries of a schedule. *)
Definition trips_of (rows : list row) : list Trip :=
  omap (fun r => match r with a_Trip t => Some t | a_Deadhead _ => None end) rows.
Definition deadheads_of (rows : list row) : list DeadheadRow :=
  omap (fun r => match r with a_Deadhead d => Some d | a_Trip _ => None end) rows.

(** The deadhead joins two different stops of [stops], lasts as long as
    the matrix says and has its earliest time written as a time of the
    day. *)
Definition deadhead_fits (distances : list (list Z)) (stops : list string)
    (d : DeadheadRow) : Prop :=
  dh_StartStop (dh d) <> dh_EndStop (dh d) /\
  (exists a b, index_of stops (dh_StartStop (dh d)) = Ok a /\
               index_of stops (dh_EndStop (dh d)) = Ok b /\
               Py.getitem2 distances a b = Ok (DurationMins (dh d))) /\
  EarliestTime d = ConvertToHxM (EarliestTimeMins d).

(** A duty from A to B and on from C to A, and the stops A, B, C. *)
Definition gap_duty : list Trip := [Examples.T1; Examples.T3].
Definition gap_stops : list string := ["A"; "B"; "C"].

End RenderingRest.

Export RenderingRest.

(* ================================================================== *)
(** * Part II: properties *)
(* ================================================================== *)

(** ** Generalities on [result] *)

Lemma bind_Ok {A B} (r : result A) (f : A -> result B) (b : B) :
  r ≫= f = Ok b -> exists a, r = Ok a /\ f a = Ok b.
Proof. destruct r as [a| |]; simpl; try discriminate. eauto. Qed.

Lemma assert_Ok c : Py.assert c = Ok tt -> c = true.
Proof. destruct c; simpl; [reflexivity | discriminate]. Qed.

(** ** The HH:MM parser *)

Section ParseHxM_facts.
Import Utilities Fields.

Lemma all_ascii_complete (c : ascii) : c ∈ all_ascii.
Proof.
  rewrite <- (ascii_nat_embedding c). unfold all_ascii.
  apply list_elem_of_fmap. exists (nat_of_ascii c). split; [reflexivity|].
  apply elem_of_seq. pose proof (nat_ascii_bounded c). lia.
Qed.

Lemma agrees_one_all : forallb (fun c => agrees (String c EmptyString)) all_ascii = true.
Proof. vm_compute. reflexivity. Qed.

Lemma agrees_two_all :
  forallb (fun c => forallb (fun d => agrees (String c (String d EmptyString))) all_ascii)
          all_ascii = true.
Proof. vm_compute. reflexivity. Qed.

Lemma result_Z_eqb_eq r1 r2 : result_Z_eqb r1 r2 = true -> r1 = r2.
Proof.
  destruct r1 as [a|[]|], r2 as [b|[]|]; simpl; try discriminate.
  - intros H%Z.eqb_eq. congruence.
  - intros H%String.eqb_eq. congruence.
Qed.

(** On a field of one or two characters [int()] reads what
    [short_int] describes, and raises ValueError otherwise. *)
Lemma int_short (f : string) :
  (String.length f = 1 \/ String.length f = 2)%nat ->
  Py.int f = from_option Ok bad_literal (short_int f).
Proof.
  intros Hlen. apply result_Z_eqb_eq. change (agrees f = true).
  destruct f as [|c [|d [|e f]]]; simpl in Hlen; try lia.
  - pose proof agrees_one_all as H. rewrite forallb_forall in H.
    apply H, list_elem_of_In, all_ascii_complete.
  - pose proof agrees_two_all as H. rewrite forallb_forall in H.
    specialize (H c (proj1 (list_elem_of_In _ _) (all_ascii_complete c))).
    rewrite forallb_forall in H.
    apply H, list_elem_of_In, all_ascii_complete.
Qed.
End ParseHxM_facts.

Section ParseHxM_shape.
Import Utilities Fields.

Lemma split_not_nil sep s : Py.split sep s <> [].
Proof.
  destruct s as [|c s]; simpl; [discriminate|].
  destruct (Ascii.eqb c sep); [discriminate|].
  destruct (Py.split sep s); discriminate.
Qed.

Lemma split_one sep s a :
  Py.split sep s = [a] <-> s = a /\ occurs sep a = false.
Proof.
  revert a. induction s as [|c s IH]; intros a; simpl.
  - split.
    + intros [= <-]. auto.
    + intros [<- _]. reflexivity.
  - destruct (Ascii.eqb c sep) eqn:Ec.
    + split.
      * intros [= <- Hs]. exfalso. exact (split_not_nil _ _ Hs).
      * intros [<- H]. simpl in H. rewrite Ec in H. discriminate.
    + pose proof (split_not_nil sep s) as Hne.
      destruct (Py.split sep s) as [|h t]; [congruence|].
      split.
      * intros [= <- ->]. destruct (proj1 (IH h) eq_refl) as [-> Ho].
        split; [reflexivity|]. simpl. rewrite Ec. exact Ho.
      * intros [<- H]. simpl in H. rewrite Ec in H. simpl in H.
        pose proof (proj2 (IH s) (conj eq_refl H)) as E.
        injection E as -> ->. reflexivity.
Qed.

Lemma split_two sep s a b :
  Py.split sep s = [a; b] <->
  s = a +:+ String sep b /\ occurs sep a = false /\ occurs sep b = false.
Proof.
  revert a. induction s as [|c s IH]; intros a; simpl.
  - split; [discriminate|]. intros [H _]. destruct a; discriminate.
  - destruct (Ascii.eqb c sep) eqn:Ec.
    + apply Ascii.eqb_eq in Ec as ->. split.
      * intros [= <- Hs]. apply split_one in Hs as [-> Ho]. auto.
      * intros (H & Ha & Hb). destruct a as [|c' a'].
        -- simpl in H. injection H as ->.
           f_equal. apply split_one. auto.
        -- simpl in H. injection H as <- _. simpl in Ha.
           rewrite Ascii.eqb_refl in Ha. discriminate.
    + pose proof (split_not_nil sep s) as Hne.
      destruct (Py.split sep s) as [|h t]; [congruence|].
      split.
      * intros [= <- ->]. destruct (proj1 (IH h) eq_refl) as (-> & Ha & Hb).
        split; [reflexivity|]. simpl. rewrite Ec. auto.
      * intros (H & Ha & Hb). destruct a as [|c' a']; simpl in H.
        -- injection H as -> _. rewrite Ascii.eqb_refl in Ec. discriminate.
        -- injection H as <- ->. simpl in Ha. rewrite Ec in Ha.
           pose proof (proj2 (IH a') (conj eq_refl (conj Ha Hb))) as E.
           injection E as -> ->. reflexivity.
Qed.

Lemma ParseHxM_Ok_reads s r : ParseHxM s = Ok r -> reads s r.
Proof.
  unfold ParseHxM.
  destruct (Py.split ":" s) as [|shh [|smm [|]]] eqn:Es; try discriminate.
  apply split_two in Es as (-> & Ha & Hb).
  destruct ((String.length shh =? 1)%nat || (String.length shh =? 2)%nat) eqn:L1;
    simpl; [|discriminate].
  destruct (String.length smm =? 2)%nat eqn:L2; simpl; [|discriminate].
  apply orb_true_iff in L1. rewrite !Nat.eqb_eq in L1. apply Nat.eqb_eq in L2.
  rewrite (int_short shh) by exact L1. rewrite (int_short smm) by auto.
  destruct (short_int shh) as [h|] eqn:Eh; simpl; [|discriminate].
  destruct (short_int smm) as [m|] eqn:Em; simpl; [|discriminate].
  destruct ((0 <=? h) && (h <? 24)) eqn:Rh; simpl; [|discriminate].
  destruct ((0 <=? m) && (m <? 60)) eqn:Rm; simpl; [|discriminate].
  intros [= <-]. exists shh, smm, h, m. repeat split; auto; lia.
Qed.

Lemma reads_ParseHxM_Ok s r : reads s r -> ParseHxM s = Ok r.
Proof.
  intros (shh & smm & h & m & -> & Ha & Hb & L1 & L2 & Eh & Em & Rh & Rm & ->).
  unfold ParseHxM.
  rewrite (proj2 (split_two ":" _ shh smm)) by auto.
  replace ((String.length shh =? 1)%nat || (String.length shh =? 2)%nat) with true
    by (symmetry; apply orb_true_iff; rewrite !Nat.eqb_eq; exact L1).
  rewrite L2. simpl.
  rewrite (int_short shh) by exact L1. rewrite (int_short smm) by auto.
  rewrite Eh, Em. simpl.
  replace ((0 <=? h) && (h <? 24)) with true by (symmetry; apply andb_true_iff; lia).
  replace ((0 <=? m) && (m <? 60)) with true by (symmetry; apply andb_true_iff; lia).
  reflexivity.
Qed.

Lemma int_Ok_or_ValueError s :
  (exists z, Py.int s = Ok z) \/ (exists msg, Py.int s = Raise (ValueError msg)).
Proof.
  unfold Py.int. destruct (Py.strip s) as [|c r]; [eauto|].
  destruct (Ascii.eqb c "+"); [destruct (Py.digits 0 false r); simpl; eauto|].
  destruct (Ascii.eqb c "-"); [destruct (Py.digits 0 false r); simpl; eauto|].
  destruct (Py.digits 0 false (String c r)); simpl; eauto.
Qed.

Lemma ParseHxM_Ok_or_ValueError s :
  (exists r, ParseHxM s = Ok r) \/ (exists msg, ParseHxM s = Raise (ValueError msg)).
Proof.
  unfold ParseHxM.
  destruct (Py.split ":" s) as [|shh [|smm [|]]]; eauto.
  destruct (negb _); [eauto|]. destruct (negb _); [eauto|].
  destruct (int_Ok_or_ValueError shh) as [[h ->]|[msg ->]]; simpl; [|eauto].
  destruct (int_Ok_or_ValueError smm) as [[m ->]|[msg ->]]; simpl; [|eauto].
  destruct (negb _); [eauto|]. destruct (negb _); eauto.
Qed.

Lemma digits_only_short_int f z : Spec.digits_only f = Some z -> short_int f = Some z.
Proof.
  destruct f as [|c [|d [|]]]; simpl; try discriminate; [auto|].
  destruct (Py.digit_val c), (Py.digit_val d); try discriminate. auto.
Qed.

Lemma digit_val_range c z : Py.digit_val c = Some z -> 0 <= z <= 9.
Proof.
  unfold Py.digit_val. destruct (_ && _) eqn:E; [|discriminate].
  intros [= <-]. apply andb_true_iff in E as [H1%Nat.leb_le H2%Nat.leb_le]. lia.
Qed.

Lemma digits_only_range f z :
  Spec.digits_only f = Some z ->
  0 <= z /\ (String.length f = 1 \/ String.length f = 2)%nat.
Proof.
  destruct f as [|c [|d [|]]]; simpl; try discriminate.
  - intros H%digit_val_range. lia.
  - destruct (Py.digit_val c) eqn:Ec, (Py.digit_val d) eqn:Ed; try discriminate.
    intros [= <-]. apply digit_val_range in Ec, Ed. lia.
Qed.

Lemma accepts_HxM_reads s r : Spec.accepts_HxM s = Some r -> reads s r.
Proof.
  unfold Spec.accepts_HxM.
  destruct (Py.split ":" s) as [|shh [|smm [|]]] eqn:Es; try discriminate.
  apply split_two in Es as (-> & Ha & Hb).
  destruct (Spec.digits_only shh) as [h|] eqn:Eh; [|discriminate].
  destruct (Spec.digits_only smm) as [m|] eqn:Em; [|discriminate].
  destruct (_ && _) eqn:E; [|discriminate]. intros [= <-].
  apply andb_true_iff in E as [E Rm]. apply andb_true_iff in E as [L2 Rh].
  apply Nat.eqb_eq in L2.
  pose proof (digits_only_range _ _ Eh) as [? ?].
  pose proof (digits_only_range _ _ Em) as [? _].
  exists shh, smm, h, m. repeat split; auto using digits_only_short_int; lia.
Qed.
End ParseHxM_shape.

Lemma ParseHxM_range s r : Utilities.ParseHxM s = Ok r -> 0 <= r < 1440.
Proof.
  intros (shh & smm & h & m & _ & _ & _ & _ & _ & _ & _ & Rh & Rm & ->)%ParseHxM_Ok_reads.
  lia.
Qed.

(** C10 (as amended). [ParseHxM] accepts exactly the strings made of two
    fields around one colon, the hour field of one or two characters and
    the minute field of two, in which [int()] reads an hour in 0..23 and a
    minute in 0..59; a field that [int()] reads is one digit, two digits,
    a sign and a digit, or a digit next to one white-space character. The
    value returned is 60·hour + minute, which is at most 1439: no time
    beyond 23:59 comes out of the parser. Every string with a 1- or
    2-digit hour in 0..23 and a 2-digit minute in 0..59 is among the
    accepted ones, every other input raises ValueError, and so does any
    hour of 24 or more. *)
Theorem ParseHxM_accepts (s : string) :
  (forall r, Utilities.ParseHxM s = Ok r <-> Fields.reads s r) /\
  (forall r, Utilities.ParseHxM s = Ok r -> 0 <= r < 1440) /\
  (forall r, Spec.accepts_HxM s = Some r -> Utilities.ParseHxM s = Ok r) /\
  ((exists r, Utilities.ParseHxM s = Ok r) \/
   (exists msg, Utilities.ParseHxM s = Raise (ValueError msg))).
Proof.
  split; [|split; [|split]].
  - intros r. split; [apply ParseHxM_Ok_reads | apply reads_ParseHxM_Ok].
  - intros r. apply ParseHxM_range.
  - intros r H. apply reads_ParseHxM_Ok, accepts_HxM_reads, H.
  - apply ParseHxM_Ok_or_ValueError.
Qed.

(** C10, witness: "8:05" is read as 485, "24:30" raises. *)
Lemma ParseHxM_accepts_witness :
  Utilities.ParseHxM "8:05" = Ok 485 /\
  Utilities.ParseHxM "24:30" = Raise (ValueError "More than 23 hours").
Proof.
  split.
  - apply (proj1 (proj2 (proj2 (ParseHxM_accepts "8:05"))) 485). reflexivity.
  - reflexivity.
Defined.

(** C10, counterexample to the claim as stated: the minute field "+5" is
    not two digits, and the string is accepted all the same. *)
Lemma ParseHxM_accepts_signed_field :
  Utilities.ParseHxM "8:+5" = Ok 485 /\ Spec.accepts_HxM "8:+5" = None.
Proof. split; reflexivity. Qed.

(** ** Minutes of a trip *)

(** C4. When both times of a trip parse, [RecalcMinutes] returns, and
    afterwards [EndTimeMins >= StartTimeMins]: the end is the parsed end,
    plus 1440 exactly when it lies before the parsed start, so the trip
    lasts less than a day; the shift by whole days is the same for both.
    A second call gives the same minutes again: the 1440 are never added
    twice. *)
Theorem RecalcMinutes_end_not_before_start (t : Trip) (firstDay : option Z) (s e : Z) :
  Utilities.ParseHxM (StartTime t) = Ok s ->
  Utilities.ParseHxM (EndTime t) = Ok e ->
  exists t',
    Classes.RecalcMinutes t firstDay = Ok t' /\
    StartTimeMins t' <= EndTimeMins t' /\
    EndTimeMins t' - StartTimeMins t' = (if e <? s then e + 1440 else e) - s /\
    EndTimeMins t' - StartTimeMins t' < 1440 /\
    StartTimeMins t' =
      s + match Day t, firstDay with
          | Some day, Some first => (day - first) * 1440
          | _, _ => 0
          end /\
    Classes.RecalcMinutes t' firstDay = Ok t'.
Proof.
  intros Hs He. pose proof (ParseHxM_range _ _ Hs). pose proof (ParseHxM_range _ _ He).
  assert (forall u, StartTime u = StartTime t -> EndTime u = EndTime t ->
            Classes.RecalcMinutes u firstDay =
            Ok (Classes.with_minutes u
                  (s + match Day u, firstDay with
                       | Some day, Some first => (day - first) * 1440
                       | _, _ => 0
                       end)
                  ((if e <? s then e + 1440 else e)
                   + match Day u, firstDay with
                     | Some day, Some first => (day - first) * 1440
                     | _, _ => 0
                     end))) as Hcall.
  { intros u Hus Hue. unfold Classes.RecalcMinutes. rewrite Hus, Hue, Hs, He. simpl.
    replace (0 <=? s) with true by (symmetry; apply Z.leb_le; lia).
    replace (0 <=? e) with true by (symmetry; apply Z.leb_le; lia).
    simpl. destruct (Day u), firstDay, (e <? s); do 2 f_equal; lia. }
  eexists. split; [apply Hcall; reflexivity|]. simpl.
  split; [|split; [|split; [|split]]].
  - destruct (e <? s) eqn:E; [apply Z.ltb_lt in E | apply Z.ltb_ge in E]; lia.
  - lia.
  - destruct (e <? s) eqn:E; [apply Z.ltb_lt in E | apply Z.ltb_ge in E]; lia.
  - reflexivity.
  - rewrite Hcall by reflexivity. reflexivity.
Qed.

(** C4, witness: the overnight trip 23:50 - 0:20 on the second day. *)
Lemma RecalcMinutes_end_not_before_start_witness :
  exists t',
    Classes.RecalcMinutes Examples.overnight (Some 738885) = Ok t' /\
    StartTimeMins t' <= EndTimeMins t' /\
    EndTimeMins t' - StartTimeMins t' = (if 20 <? 1430 then 20 + 1440 else 20) - 1430 /\
    EndTimeMins t' - StartTimeMins t' < 1440 /\
    StartTimeMins t' = 1430 + (738886 - 738885) * 1440 /\
    Classes.RecalcMinutes t' (Some 738885) = Ok t'.
Proof.
  apply (RecalcMinutes_end_not_before_start Examples.overnight (Some 738885) 1430 20);
    reflexivity.
Defined.

(** ** The feasibility graph *)

Section Feasibility.
Import Spec.

Lemma mapM_Ok {A B} (f : A -> result B) l ys :
  Py.mapM f l = Ok ys -> Forall2 (fun x y => f x = Ok y) l ys.
Proof.
  revert ys. induction l as [|x l IH]; intros ys; simpl.
  - intros [= <-]. constructor.
  - intros (y & Hy & H)%bind_Ok. apply bind_Ok in H as (ys' & Hys & [= <-]).
    constructor; auto.
Qed.

Lemma mapM_is_Ok {A B} (f : A -> result B) l :
  Forall (fun x => Py.is_Ok (f x)) l -> Py.is_Ok (Py.mapM f l).
Proof.
  induction 1 as [|x l [y Hy] _ [ys Hys]]; simpl.
  - eexists. reflexivity.
  - rewrite Hy. simpl. rewrite Hys. simpl. eexists. reflexivity.
Qed.



Lemma elem_of_enumerate {A} (l : list A) i x :
  (i, x) ∈ Py.enumerate l <-> 0 <= i /\ l !! Z.to_nat i = Some x.
Proof.
  unfold Py.enumerate. rewrite elem_of_lookup_imap. split.
  - intros (k & y & [= -> ->] & H). rewrite Nat2Z.id. split; [lia | exact H].
  - intros [Hi H]. exists (Z.to_nat i), x. split; [f_equal; lia | exact H].
Qed.





Lemma getitem_elem_of {A} (l : list A) i x : Py.getitem l i = Ok x -> x ∈ l.
Proof.
  unfold Py.getitem. destruct (_ || _); [discriminate|].
  destruct (l !! _) eqn:E; [|discriminate]. intros [= <-].
  eapply list_elem_of_lookup_2, E.
Qed.

End Feasibility.




(** ** Sorting *)

Section Insertion_sort.
Context {A K : Type} (le : K -> K -> bool) (key : A -> K).
Hypothesis le_total : forall a b, le a b = false -> le b a = true.
Hypothesis le_trans : forall a b c, le a b = true -> le b c = true -> le a c = true.

Lemma insert_by_Permutation x l : Py.insert_by le key x l ≡ₚ x :: l.
Proof.
  induction l as [|y l IH]; simpl; [reflexivity|].
  destruct (le (key y) (key x)); [|reflexivity].
  rewrite IH. apply Permutation_swap.
Qed.

Lemma sort_by_Permutation l : Py.sort_by le key l ≡ₚ l.
Proof.
  induction l as [|x l IH]; simpl; [reflexivity|].
  unfold Py.sort_by in *. simpl. rewrite insert_by_Permutation, IH. reflexivity.
Qed.

Lemma insert_by_sorted x l :
  StronglySorted (fun a b => le (key a) (key b) = true) l ->
  StronglySorted (fun a b => le (key a) (key b) = true) (Py.insert_by le key x l).
Proof.
  induction 1 as [|y l Hs IH Hy]; simpl.
  - repeat constructor.
  - destruct (le (key y) (key x)) eqn:E.
    + constructor; [exact IH|].
      rewrite insert_by_Permutation. constructor; [exact E | exact Hy].
    + apply le_total in E. constructor; [constructor; assumption|].
      constructor; [exact E|].
      eapply Forall_impl; [exact Hy|]. intros z Hz. exact (le_trans _ _ _ E Hz).
Qed.

Lemma sort_by_sorted l :
  StronglySorted (fun a b => le (key a) (key b) = true) (Py.sort_by le key l).
Proof.
  induction l as [|x l IH]; [constructor|].
  unfold Py.sort_by in *. simpl. apply insert_by_sorted, IH.
Qed.
End Insertion_sort.

Lemma pair_leb_total p q : Py.pair_leb p q = false -> Py.pair_leb q p = true.
Proof.
  unfold Py.pair_leb. intros H. apply orb_false_iff in H as [H1 H2].
  apply Z.ltb_ge in H1. apply andb_false_iff in H2.
  apply orb_true_iff. destruct (Z.eq_dec p.1 q.1) as [E|E].
  - right. destruct H2 as [H2|H2]; [apply Z.eqb_neq in H2; congruence|].
    apply Z.leb_gt in H2. apply andb_true_iff. split; [apply Z.eqb_eq | apply Z.leb_le]; lia.
  - left. apply Z.ltb_lt. lia.
Qed.

Lemma pair_leb_spec p q :
  Py.pair_leb p q = true <-> p.1 < q.1 \/ (p.1 = q.1 /\ p.2 <= q.2).
Proof.
  unfold Py.pair_leb. rewrite orb_true_iff, andb_true_iff, Z.ltb_lt, Z.eqb_eq, Z.leb_le.
  tauto.
Qed.

Lemma pair_leb_trans p q r :
  Py.pair_leb p q = true -> Py.pair_leb q r = true -> Py.pair_leb p r = true.
Proof. rewrite !pair_leb_spec. lia. Qed.

(** ** The order of presentation *)

Lemma bus_key_Ok bs k :
  bus_key bs = Ok k -> bs <> [] /\ k = (- Z.of_nat (length bs), hd 0 bs).
Proof.
  unfold bus_key. destruct bs as [|b0 bs]; [discriminate|].
  intros [= <-]. split; [discriminate | reflexivity].
Qed.

Lemma sort_buses_Ok buses out :
  sort_buses buses = Ok out ->
  Spec.presentation_order out /\ out ≡ₚ buses.
Proof.
  unfold sort_buses. intros (keyed & Hk & [= <-])%bind_Ok.
  apply mapM_Ok in Hk.
  assert (Forall (fun kb : Z * Z * list Z => bus_key kb.2 = Ok kb.1) keyed) as Hkeys.
  { clear -Hk. induction Hk as [|bs kb buses keyed H _ IH]; constructor; [|exact IH].
    apply bind_Ok in H as (k & Hkey & [= <-]). exact Hkey. }
  assert (map snd keyed = buses) as Hsnd.
  { clear -Hk. induction Hk as [|bs kb buses keyed H _ IH]; simpl; [reflexivity|].
    apply bind_Ok in H as (k & Hkey & [= <-]). simpl. congruence. }
  pose proof (sort_by_Permutation Py.pair_leb fst keyed) as Hperm.
  pose proof (sort_by_sorted Py.pair_leb fst pair_leb_total pair_leb_trans keyed) as Hsorted.
  rewrite <- Hperm in Hkeys.
  set (sorted := Py.sort_by Py.pair_leb fst keyed) in *. clearbody sorted.
  split; [split|].
  - clear Hperm Hk Hsnd. revert Hkeys.
    induction Hsorted as [|kb l Hs IH Hkb]; simpl; [constructor|].
    intros [Hk1 Hk2]%Forall_cons. constructor; [apply IH, Hk2|].
    apply Forall_fmap. rewrite Forall_forall in Hkb, Hk2 |- *.
    intros kb' Hin. specialize (Hkb _ Hin). specialize (Hk2 _ Hin). simpl in *.
    apply bus_key_Ok in Hk1 as [_ E1], Hk2 as [_ E2].
    apply pair_leb_spec in Hkb. rewrite E1, E2 in Hkb. simpl in Hkb.
    unfold Spec.before. lia.
  - apply Forall_fmap. eapply Forall_impl; [exact Hkeys|].
    intros kb H. apply bus_key_Ok in H as [H _]. exact H.
  - rewrite <- Hsnd. apply fmap_Permutation, Hperm.
Qed.

Lemma sort_buses_is_Ok buses :
  Forall (fun b => b <> []) buses -> Py.is_Ok (sort_buses buses).
Proof.
  intros H. unfold sort_buses.
  destruct (mapM_is_Ok (fun bs => k ← bus_key bs; Ok (k, bs)) buses) as [keyed ->].
  - eapply Forall_impl; [exact H|]. intros [|b0 bs] Hne; [congruence|].
    eexists. reflexivity.
  - eexists. reflexivity.
Qed.

(** ** The trip chainer returns when the successors go up *)

Section Chainer_returns.

Lemma get_Some_elem_of {K V} `{EqDecision K} (d : list (K * V)) k v :
  PyDict.get d k = Some v -> (k, v) ∈ d.
Proof.
  induction d as [|[k' v'] d IH]; simpl; [discriminate|].
  destruct (decide (k' = k)) as [->|_].
  - intros [= ->]. apply elem_of_cons. auto.
  - intros H. apply elem_of_cons. auto.
Qed.

Lemma elem_of_set {K V} `{EqDecision K} (d : list (K * V)) k v x :
  x ∈ PyDict.set d k v -> x ∈ d \/ x = (k, v).
Proof.
  induction d as [|[k' v'] d IH]; simpl.
  - intros ->%list_elem_of_singleton. auto.
  - destruct (decide (k' = k)) as [->|_]; rewrite !elem_of_cons; intuition.
Qed.

Lemma elem_of_update {K V} `{EqDecision K} (items d : list (K * V)) x :
  x ∈ PyDict.update d items -> x ∈ d \/ x ∈ items.
Proof.
  unfold PyDict.update. revert d. induction items as [|[k v] items IH]; intros d; simpl.
  - auto.
  - intros [[H| ->]%elem_of_set|H]%IH; rewrite elem_of_cons; auto.
Qed.

Lemma elem_of_of_items {K V} `{EqDecision K} (items : list (K * V)) x :
  x ∈ PyDict.of_items items -> x ∈ items.
Proof.
  intros [H%elem_of_nil|H]%elem_of_update; [tauto | exact H].
Qed.

Lemma keys_from_mono be v w : v <= w -> (keys_from w be <= keys_from v be)%nat.
Proof.
  intros Hvw. unfold keys_from. induction be as [|x be IH]; simpl; [lia|].
  rewrite !filter_cons. repeat case_decide; simpl; lia.
Qed.

Lemma keys_from_lt be v w w' :
  (v, w') ∈ be -> v < w -> (keys_from w be < keys_from v be)%nat.
Proof.
  intros Hin Hvw. induction be as [|x be IH]; [apply elem_of_nil in Hin; tauto|].
  pose proof (keys_from_mono be v w ltac:(lia)) as Hmono.
  unfold keys_from in *. rewrite !filter_cons.
  apply elem_of_cons in Hin as [<-|Hin].
  - simpl. repeat case_decide; simpl; lia.
  - specialize (IH Hin). repeat case_decide; simpl; lia.
Qed.







End Chainer_returns.



(** ** Duties as a partition of the trips *)

(** C3, at the failing input: the edges (1, 2), (3, 4), (4, 1) are a
    matching on five trips, taken from the feasibility graph of trips
    that are not listed in the order of their times, and the duty list
    built from them holds the trips 1 and 2 twice. *)
Theorem ConvertEdgesToBuses_repeats_trips :
  Spec.is_matching Examples.backward_edges /\
  CreateFeasibilityGraph Examples.backward_trips Examples.backward_stops
    Examples.backward_dists 24
    = Ok [(1, 2); (3, 1); (3, 2); (3, 4); (4, 1); (4, 2)] /\
  Examples.backward_edges ⊆ [(1, 2); (3, 1); (3, 2); (3, 4); (4, 1); (4, 2)] /\
  ConvertEdgesToBuses 5 Examples.backward_edges = Ok [[3; 4; 1; 2]; [1; 2]; [0]] /\
  ~ Spec.partitions 5 [[3; 4; 1; 2]; [1; 2]; [0]].
Proof.
  split; [|split; [|split; [|split]]].
  - split; apply (bool_decide_unpack (NoDup _)); vm_compute; exact I.
  - vm_compute. reflexivity.
  - apply (bool_decide_unpack (_ ⊆ _)). vm_compute. exact I.
  - vm_compute. reflexivity.
  - intros H%Permutation_length. vm_compute in H. discriminate.
Qed.

(** ** The heuristic depot *)

(** The term that [evalDepot] computes for the pull-out does not look at
    the depot: its edge is [(b[0], -1)], and -1 in second place is read as
    the index of the last trip. *)
Lemma pull_out_term_ignores_depot b0 trips stops dists (d d' : Z) :
  b0 <> -1 ->
  GetDistFromEdge (b0, -1) trips stops dists (Some d) 0 0 =
  GetDistFromEdge (b0, -1) trips stops dists (Some d') 0 0.
Proof.
  intros Hb. unfold GetDistFromEdge.
  replace (b0 =? -1) with false by (symmetry; apply Z.eqb_neq; exact Hb).
  reflexivity.
Qed.


(** ** The exact circular solver on failure *)

Lemma get_set_eq {K V} `{EqDecision K} (d : list (K * V)) k v :
  PyDict.get (PyDict.set d k v) k = Some v.
Proof.
  induction d as [|[k' v'] d IH]; simpl.
  - destruct (decide (k = k)); congruence.
  - destruct (decide (k' = k)) as [->|Hne]; simpl.
    + destruct (decide (k = k)); congruence.
    + destruct (decide (k' = k)); [congruence | exact IH].
Qed.

Lemma string_app_assoc (s1 s2 s3 : string) : (s1 +:+ s2) +:+ s3 = s1 +:+ (s2 +:+ s3).
Proof.
  induction s1 as [|c s1 IH]; [reflexivity|].
  change (String c ((s1 +:+ s2) +:+ s3) = String c (s1 +:+ (s2 +:+ s3))).
  rewrite IH. reflexivity.
Qed.

Lemma string_app_empty (s : string) : s +:+ EmptyString = s.
Proof.
  induction s as [|c s IH]; [reflexivity|].
  change (String c (s +:+ EmptyString) = String c s). rewrite IH. reflexivity.
Qed.

(** C7. When the optimization ends with status infeasible or
    no-solution-found, the solver raises [Exception("No solution found")]
    and returns no schedule; by then the file model.sol holds the raw
    assignment: one line with the name and the value of every variable of
    the model, then a line with the objective value. *)
Theorem no_solution_is_raised_after_the_dump
    (str_float : Qc -> string) (str_int : Z -> string)
    (trips : list Trip) (buscount : nat) (status : OptimizationStatus)
    (vars : list Var) (objective_value : option Qc) (fs : list (string * string)) :
  status = INFEASIBLE \/ status = NO_SOLUTION_FOUND ->
  exists fs',
    OptimizeTripsCircularsExact_after_optimize str_float str_int trips buscount
      status vars objective_value fs
    = (fs', Raise (Exception "No solution found")) /\
    PyDict.get fs' "model.sol" =
      Some (foldr String.append EmptyString
              (map (fun var => name var +:+ " " +:+ fmt str_float (x var) +:+ newline) vars
               ++ [fmt str_float objective_value +:+ newline])).
Proof.
  intros Hstatus.
  exists (PyDict.set fs "model.sol" (raw_dump str_float vars objective_value)).
  split.
  - destruct Hstatus as [-> | ->]; reflexivity.
  - rewrite get_set_eq. f_equal. unfold raw_dump.
    induction vars as [|var vars IH]; simpl.
    + rewrite string_app_empty. reflexivity.
    + rewrite IH, !string_app_assoc. reflexivity.
Qed.

(** C7, witness: an infeasible model with two variables. *)
Lemma no_solution_is_raised_after_the_dump_witness :
  exists fs',
    OptimizeTripsCircularsExact_after_optimize (fun _ => "1.0") (fun _ => "1")
      Examples.scenario_trips 1 INFEASIBLE
      [mkVar "B0,0,1" None; mkVar "B0,1,0" None] None []
    = (fs', Raise (Exception "No solution found")) /\
    PyDict.get fs' "model.sol" =
      Some (foldr String.append EmptyString
              (map (fun var => name var +:+ " " +:+ fmt (fun _ => "1.0") (x var) +:+ newline)
                   [mkVar "B0,0,1" None; mkVar "B0,1,0" None]
               ++ [fmt (fun _ => "1.0") None +:+ newline])).
Proof.
  apply (no_solution_is_raised_after_the_dump (fun _ => "1.0") (fun _ => "1")
           Examples.scenario_trips 1 INFEASIBLE).
  left. reflexivity.
Defined.

(** ** Trips and schedules through JSON *)

Section Round_trip.
Variable strftime : Z -> string.
Variable strptime : string -> result Z.

Lemma Trip_round_trip t :
  Spec.readable strftime strptime t ->
  FromDictForJson strptime (ToDictForJson strftime t) = Ok (with_minutes t (-1) (-1)).
Proof.
  intros [HVia HDay]. destruct t as [line no s1 s2 t1 t2 via day sm em]. simpl in *.
  unfold FromDictForJson, ToDictForJson, get_Via, get_Day. simpl.
  destruct day as [d|].
  - destruct (HDay d eq_refl) as [Hne Hrt].
    destruct (strftime d) as [|c sd]; [congruence|].
    destruct via as [[|v via]|]; [congruence| |];
      vm_compute; rewrite Hrt; reflexivity.
  - destruct via as [[|v via]|]; [congruence| |]; reflexivity.
Qed.

Lemma set_fresh {K V} `{EqDecision K} (d : list (K * V)) k v :
  k ∉ map fst d -> PyDict.set d k v = d ++ [(k, v)].
Proof.
  induction d as [|[k' v'] d IH]; simpl; [reflexivity|].
  intros H. apply not_elem_of_cons in H as [Hne H].
  destruct (decide (k' = k)); [congruence|]. rewrite IH by exact H. reflexivity.
Qed.

Lemma update_fresh {K V} `{EqDecision K} (items d : list (K * V)) :
  NoDup (map fst (d ++ items)) -> PyDict.update d items = d ++ items.
Proof.
  unfold PyDict.update. revert d. induction items as [|[k v] items IH]; intros d Hnd; simpl.
  - rewrite app_nil_r. reflexivity.
  - replace (d ++ (k, v) :: items) with ((d ++ [(k, v)]) ++ items) in *
      by (rewrite <- app_assoc; reflexivity).
    rewrite set_fresh.
    + apply IH, Hnd.
    + rewrite !map_app in Hnd. apply NoDup_app in Hnd as (Hnd & _ & _).
      apply NoDup_app in Hnd as (_ & Hnd & _). intros Hin.
      apply (Hnd k Hin). simpl. apply elem_of_cons. auto.
Qed.

Lemma of_items_NoDup {K V} `{EqDecision K} (items : list (K * V)) :
  NoDup (map fst items) -> PyDict.of_items items = items.
Proof. intros H. unfold PyDict.of_items. rewrite update_fresh; [reflexivity | exact H]. Qed.

Lemma filter_other_keys {K V} `{EqDecision K} (d : list (K * V)) k :
  k ∉ map fst d -> filter (fun kv : K * V => kv.1 <> k) d = d.
Proof.
  induction d as [|[k' v'] d IH]; simpl; [reflexivity|].
  intros H. apply not_elem_of_cons in H as [Hne H].
  rewrite filter_cons. simpl. destruct (decide (k' <> k)) as [_|Hc].
  - rewrite IH by exact H. reflexivity.
  - exfalso. apply Hc. congruence.
Qed.

Lemma trips_round_trip (bus : list Trip) :
  Forall (Spec.readable strftime strptime) bus ->
  Py.mapM (fun t => as_dict t ≫= FromDictForJson strptime)
       (map (fun t => JDict (ToDictForJson strftime t)) bus)
  = Ok (map (fun t => with_minutes t (-1) (-1)) bus).
Proof.
  induction 1 as [|t bus Ht _ IH]; simpl; [reflexivity|].
  rewrite (Trip_round_trip t Ht). simpl. rewrite IH. reflexivity.
Qed.

Lemma bus_round_trip (i : Z) (bus : list Trip) :
  Forall (Spec.readable strftime strptime) bus ->
  bus_from_json strptime (bus_to_json strftime (i, bus))
  = Ok (map (fun t => with_minutes t (-1) (-1)) bus).
Proof.
  intros H. unfold bus_from_json, bus_to_json.
  change (Py.mapM (fun t => as_dict t ≫= FromDictForJson strptime)
            (map (fun t => JDict (ToDictForJson strftime t)) bus)
          = Ok (map (fun t => with_minutes t (-1) (-1)) bus)).
  apply trips_round_trip, H.
Qed.

Lemma buses_round_trip (ibuses : list (Z * list Trip)) :
  Forall (fun ibus => Forall (Spec.readable strftime strptime) ibus.2) ibuses ->
  Py.mapM (bus_from_json strptime) (map (bus_to_json strftime) ibuses)
  = Ok (map (fun ibus => map (fun t => with_minutes t (-1) (-1)) ibus.2) ibuses).
Proof.
  induction 1 as [|[i bus] ibuses Hbus _ IH]; [reflexivity|].
  cbn [map Py.mapM]. rewrite (bus_round_trip i bus Hbus). simpl.
  rewrite IH. reflexivity.
Qed.

Lemma imap_snd {A} (g : nat -> Z) (l : list A) :
  map snd (imap (fun i x => (g i, x)) l) = l.
Proof.
  revert g. induction l as [|x l IH]; intros g; [reflexivity|].
  cbn [imap map]. f_equal. apply (IH (fun i => g (S i))).
Qed.

Lemma enumerate_snd {A} (l : list A) : map snd (Py.enumerate l) = l.
Proof. apply imap_snd. Qed.

Lemma schedules_round_trip schedule args :
  Forall (Forall (Spec.readable strftime strptime)) schedule ->
  NoDup (map fst args) -> "Bus schedules" ∉ map fst args ->
  SchedulesFromJsonDict strptime (SchedulesToJsonDict strftime schedule args)
  = Ok (map (map (fun t => with_minutes t (-1) (-1))) schedule, args).
Proof.
  intros Hs Hnd Hkey. unfold SchedulesFromJsonDict, SchedulesToJsonDict.
  rewrite (of_items_NoDup args Hnd). unfold PyDict.getitem at 1.
  rewrite get_set_eq.
  rewrite (set_fresh args _ _ Hkey), filter_app, (filter_other_keys args _ Hkey).
  rewrite filter_cons, filter_nil. simpl.
  destruct (decide ("Bus schedules" <> "Bus schedules")) as [Hc|_]; [congruence|].
  rewrite app_nil_r, (of_items_NoDup args Hnd).
  rewrite buses_round_trip.
  - simpl. rewrite <- (enumerate_snd schedule) at 2.
    rewrite map_map. reflexivity.
  - apply Forall_forall. intros [i bus] Hin. simpl.
    rewrite Forall_forall in Hs. apply Hs.
    rewrite <- (enumerate_snd schedule). apply list_elem_of_fmap.
    exists (i, bus). auto.
Qed.
End Round_trip.

(** C8 (as amended). A trip whose list of stops on the way is [None] or
    not empty, and whose day (if any) is written as a non-empty string
    that [strptime] reads back, comes back from its JSON dictionary equal
    to itself in all eight fields. A schedule of such trips, together
    with an argument dictionary that has no key "Bus schedules", comes
    back from the JSON schedule structure as an equal duty list and the
    same arguments. *)
Theorem json_round_trip (strftime : Z -> string) (strptime : string -> result Z) :
  (forall t : Trip,
     Spec.readable strftime strptime t ->
     exists t', FromDictForJson strptime (ToDictForJson strftime t) = Ok t' /\
                Trip_eq t' t) /\
  (forall (schedule : list (list Trip)) (args : list (string * json)),
     Forall (Forall (Spec.readable strftime strptime)) schedule ->
     NoDup (map fst args) ->
     "Bus schedules" ∉ map fst args ->
     exists schedule',
       SchedulesFromJsonDict strptime (SchedulesToJsonDict strftime schedule args)
         = Ok (schedule', args) /\
       Forall2 (Forall2 Trip_eq) schedule' schedule).
Proof.
  split.
  - intros t Ht. eexists. split; [apply Trip_round_trip, Ht|].
    destruct t. repeat split.
  - intros schedule args Hs Hnd Hkey. eexists.
    split; [apply schedules_round_trip; assumption|].
    apply Forall2_fmap_l, Forall_Forall2_diag, Forall_forall. intros bus _.
    apply Forall2_fmap_l, Forall_Forall2_diag, Forall_forall. intros t _.
    destruct t. repeat split.
Qed.

(** C8, witness: a trip on 2024-01-01 with two stops on the way. *)
Lemma json_round_trip_witness :
  (exists t',
     FromDictForJson Examples.strptime_2024
       (ToDictForJson Examples.strftime_2024 Examples.with_stops) = Ok t' /\
     Trip_eq t' Examples.with_stops) /\
  (exists schedule',
     SchedulesFromJsonDict Examples.strptime_2024
       (SchedulesToJsonDict Examples.strftime_2024 [[Examples.with_stops]]
          [("depot", JStr "A")])
       = Ok (schedule', [("depot", JStr "A")]) /\
     Forall2 (Forall2 Trip_eq) schedule' [[Examples.with_stops]]).
Proof.
  assert (Spec.readable Examples.strftime_2024 Examples.strptime_2024 Examples.with_stops)
    as Hr.
  { split; [discriminate|]. intros d [= <-]. split; [discriminate | reflexivity]. }
  destruct (json_round_trip Examples.strftime_2024 Examples.strptime_2024) as [Ht Hs].
  split.
  - apply Ht, Hr.
  - apply Hs.
    + constructor; [constructor; [exact Hr | constructor] | constructor].
    + apply (bool_decide_unpack (NoDup _)). vm_compute. exact I.
    + apply (bool_decide_unpack (_ ∉ _)). vm_compute. exact I.
Defined.

(** C8, counterexample to the claim as stated: a trip whose list of
    stops on the way is empty comes back with [None] in its place. *)
Lemma json_round_trip_loses_empty_Via :
  exists t',
    FromDictForJson Examples.strptime_2024
      (ToDictForJson Examples.strftime_2024 Examples.no_stops) = Ok t' /\
    Via Examples.no_stops = Some [] /\ Via t' = None /\
    ~ Trip_eq t' Examples.no_stops.
Proof.
  eexists. split; [reflexivity|]. split; [reflexivity|]. split; [reflexivity|].
  intros (_ & _ & _ & _ & _ & _ & H & _). discriminate.
Qed.

(** ** Deadhead costs as numbers *)

Section Costs.
Import Spec.
Local Open Scope Qc_scope.

Lemma this_plus (a b : Qc) : (this (a + b) == this a + this b)%Q.
Proof. apply Qred_correct. Qed.


Lemma this_mult (a b : Qc) : (this (a * b) == this a * this b)%Q.
Proof. apply Qred_correct. Qed.
















End Costs.




(** ** The local search keeps its best solution *)

Section Local_search.
Local Open Scope Qc_scope.







Lemma getitem_0 {A} (l : list A) x : Py.getitem l 0 = Ok x -> exists t, l = x :: t.
Proof. destruct l as [|y t]; [discriminate|]. intros [= <-]. eauto. Qed.

Section Round.
Variable sedges : gset (Z * Z).
Variable edgesWeights : list (Z * Z * Qc).
Variable kept multiplications : Z.





End Round.
End Local_search.



(** ** The fuel of the chainer's loop is enough

    If the loop has not stopped after one more evaluation of [be.get]
    than [be] has keys, it never stops. *)

Section Fuel.
Variable be : list (Z * Z).
Variable n : Z.

Lemma follow_Hang_walk fuel v used cur :
  follow fuel be n v used cur = Hang <-> is_Some (walk be n fuel v).
Proof.
  revert v used cur. induction fuel as [|fuel IH]; intros v used cur; simpl.
  - split; [eauto | reflexivity].
  - unfold next_trip. destruct (PyDict.get be v) as [w|]; simpl;
      [|split; [discriminate | intros [? [=]]]].
    destruct (w =? 0); simpl; [split; [discriminate | intros [? [=]]]|].
    destruct (n <=? w); simpl; [split; [discriminate | intros [? [=]]]|].
    apply IH.
Qed.

Lemma walk_add a b v : walk be n (a + b) v = walk be n a v ≫= walk be n b.
Proof.
  revert v. induction a as [|a IH]; intros v; simpl; [reflexivity|].
  destruct (next_trip be n v) as [w|]; simpl; [apply IH | reflexivity].
Qed.

Lemma walk_earlier a b v :
  (a <= b)%nat -> is_Some (walk be n b v) -> is_Some (walk be n a v).
Proof.
  intros Hab. replace b with (a + (b - a))%nat by lia. rewrite walk_add.
  destruct (walk be n a v); [eauto | intros [? [=]]].
Qed.

Lemma walk_key k v w :
  walk be n k v = Some w -> is_Some (walk be n (S k) v) -> w ∈ map fst be.
Proof.
  intros Hk. replace (S k) with (k + 1)%nat by lia. rewrite walk_add, Hk. simpl.
  unfold next_trip. destruct (PyDict.get be w) as [w'|] eqn:E; [|intros [? [=]]].
  intros _. apply get_Some_elem_of in E.
  apply list_elem_of_fmap. exists (w, w'). auto.
Qed.

Lemma repeated_element {A} `{EqDecision A} (l : list A) :
  ~ NoDup l ->
  exists i j x, (i < j)%nat /\ l !! i = Some x /\ l !! j = Some x.
Proof.
  induction l as [|a l IH]; intros Hnd; [destruct Hnd; constructor|].
  destruct (decide (a ∈ l)) as [Hin|Hnin].
  - apply list_elem_of_lookup in Hin as [j Hj].
    exists 0%nat, (S j), a. split; [lia|]. auto.
  - destruct IH as (i & j & x & Hij & Hi & Hj).
    + intros Hl. apply Hnd. constructor; assumption.
    + exists (S i), (S j), x. split; [lia|]. auto.
Qed.

(** A walk that comes back to a trip goes round for ever. *)
Lemma walk_round v p :
  (0 < p)%nat -> walk be n p v = Some v -> forall k, is_Some (walk be n k v).
Proof.
  intros Hp Hround k. induction (lt_wf k) as [k _ IH].
  destruct (le_lt_dec k p) as [Hle|Hgt].
  - apply (walk_earlier k p); [exact Hle | rewrite Hround; eauto].
  - replace k with (p + (k - p))%nat by lia. rewrite walk_add, Hround. simpl.
    apply IH. lia.
Qed.

Lemma walk_for_ever v :
  is_Some (walk be n (S (length be)) v) -> forall k, is_Some (walk be n k v).
Proof.
  intros Hlong.
  set (vs := map (fun i => default 0 (walk be n i v)) (seq 0 (S (length be)))).
  assert (forall i, (i <= length be)%nat ->
            exists w, walk be n i v = Some w /\ vs !! i = Some w) as Hvs.
  { intros i Hi. destruct (walk_earlier i (S (length be)) v ltac:(lia) Hlong) as [w Hw].
    exists w. split; [exact Hw|]. unfold vs.
    rewrite list_lookup_fmap, lookup_seq_lt by lia. simpl. rewrite Hw. reflexivity. }
  assert (~ NoDup vs) as Hdup.
  { intros Hnd.
    assert (vs ⊆+ map fst be) as Hsub.
    { apply NoDup_submseteq; [exact Hnd|]. intros x Hx.
      apply list_elem_of_lookup in Hx as [i Hi].
      assert (i <= length be)%nat as Hle.
      { apply lookup_lt_Some in Hi. unfold vs in Hi.
        rewrite length_map, length_seq in Hi. lia. }
      destruct (Hvs i Hle) as (w & Hw & Hi'). rewrite Hi in Hi'. injection Hi' as ->.
      apply (walk_key i v w Hw). apply (walk_earlier (S i) (S (length be))); [lia|exact Hlong]. }
    apply submseteq_length in Hsub. unfold vs in Hsub.
    rewrite !length_map, length_seq in Hsub. lia. }
  destruct (repeated_element vs Hdup) as (i & j & x & Hij & Hi & Hj).
  assert (j <= length be)%nat as Hjle.
  { apply lookup_lt_Some in Hj. unfold vs in Hj.
    rewrite length_map, length_seq in Hj. lia. }
  destruct (Hvs i ltac:(lia)) as (wi & Hwi & Hi'). rewrite Hi in Hi'. injection Hi' as <-.
  destruct (Hvs j Hjle) as (wj & Hwj & Hj'). rewrite Hj in Hj'. injection Hj' as <-.
  assert (walk be n (j - i) x = Some x) as Hround.
  { replace j with (i + (j - i))%nat in Hwj by lia.
    rewrite walk_add, Hwi in Hwj. exact Hwj. }
  intros k. destruct (le_lt_dec k i) as [Hle|Hgt].
  - apply (walk_earlier k (S (length be))); [lia | exact Hlong].
  - replace k with (i + (k - i))%nat by lia. rewrite walk_add, Hwi. simpl.
    apply (walk_round x (j - i)); [lia | exact Hround].
Qed.

(** More fuel does not change what the loop returns. *)
Lemma follow_more_fuel fuel extra v used cur r :
  follow fuel be n v used cur = Ok r ->
  follow (fuel + extra) be n v used cur = Ok r.
Proof.
  revert v used cur. induction fuel as [|fuel IH]; intros v used cur; simpl;
    [discriminate|].
  destruct (PyDict.get be v) as [w|]; [|auto].
  destruct (w =? 0); [auto|]. destruct (n <=? w); [auto|]. apply IH.
Qed.

Lemma follow_Hang_for_ever v used cur :
  follow (S (length be)) be n v used cur = Hang ->
  forall fuel used' cur', follow fuel be n v used' cur' = Hang.
Proof.
  intros H%follow_Hang_walk fuel used' cur'.
  apply follow_Hang_walk, walk_for_ever, H.
Qed.
End Fuel.

(** ** The chainer on edges that lead to higher trips

    The failure of C3 needs an edge that leads back to a lower trip
    index. On a matching whose edges all lead from a trip to a higher
    one the duties are a partition of the trips. *)

Lemma functional_of_NoDup_fst {A B} (l : list (A * B)) x y y' :
  NoDup (map fst l) -> (x, y) ∈ l -> (x, y') ∈ l -> y = y'.
Proof.
  induction l as [|[a b] l IH]; simpl; intros Hnd H1 H2.
  - apply elem_of_nil in H1. tauto.
  - apply NoDup_cons in Hnd as [Ha Hl].
    assert (forall z, (a, z) ∈ l -> False) as Hfresh.
    { intros z Hz. apply Ha. apply list_elem_of_fmap. exists (a, z). auto. }
    apply elem_of_cons in H1 as [H1|H1], H2 as [H2|H2].
    + congruence.
    + injection H1 as -> ->. destruct (Hfresh _ H2).
    + injection H2 as -> ->. destruct (Hfresh _ H1).
    + apply (IH Hl H1 H2).
Qed.

Lemma injective_of_NoDup_snd {A B} (l : list (A * B)) x x' y :
  NoDup (map snd l) -> (x, y) ∈ l -> (x', y) ∈ l -> x = x'.
Proof.
  induction l as [|[a b] l IH]; simpl; intros Hnd H1 H2.
  - apply elem_of_nil in H1. tauto.
  - apply NoDup_cons in Hnd as [Hb Hl].
    assert (forall z, (z, b) ∈ l -> False) as Hfresh.
    { intros z Hz. apply Hb. apply list_elem_of_fmap. exists (z, b). auto. }
    apply elem_of_cons in H1 as [H1|H1], H2 as [H2|H2].
    + congruence.
    + injection H1 as -> ->. destruct (Hfresh _ H2).
    + injection H2 as -> ->. destruct (Hfresh _ H1).
    + apply (IH Hl H1 H2).
Qed.

Lemma get_None_not_elem_of {K V} `{EqDecision K} (d : list (K * V)) k v :
  PyDict.get d k = None -> (k, v) ∉ d.
Proof.
  induction d as [|[a b] l IH]; simpl; intros E Hin.
  - apply elem_of_nil in Hin. exact Hin.
  - destruct (decide (a = k)) as [->|Hne]; [discriminate|].
    apply elem_of_cons in Hin as [Hin|Hin]; [congruence | exact (IH E Hin)].
Qed.

Section Chainer_partition.
Variable n : Z.
Variable be : list (Z * Z).
Hypothesis be_sources : NoDup (map fst be).
Hypothesis be_targets : NoDup (map snd be).
Hypothesis be_up : forall u v, (u, v) ∈ be -> 0 <= u < v /\ v < n.
Hypothesis be_sorted : StronglySorted (fun a b : Z * Z => a.1 < b.1) be.

Lemma one_successor x y y' : (x, y) ∈ be -> (x, y') ∈ be -> y = y'.
Proof. apply functional_of_NoDup_fst, be_sources. Qed.

Lemma one_predecessor x x' y : (x, y) ∈ be -> (x', y) ∈ be -> x = x'.
Proof. apply injective_of_NoDup_snd, be_targets. Qed.

Lemma elem_of_get x y : (x, y) ∈ be -> PyDict.get be x = Some y.
Proof.
  intros Hin. destruct (PyDict.get be x) as [y'|] eqn:E.
  - apply get_Some_elem_of in E. f_equal. apply (one_successor x); assumption.
  - exfalso. apply (get_None_not_elem_of be x y E Hin).
Qed.

Section Walk.
Variable u : Z.
Variable used0 : gset Z.
Variable done : list (Z * Z).
Hypothesis done_before : forall u' v', (u', v') ∈ done -> u' < u.
Hypothesis used0_origin :
  forall y, y ∈ used0 -> (exists v, (y, v) ∈ done) \/ (exists x, x ∈ used0 /\ (x, y) ∈ be).

Lemma follow_chain fuel w used cur :
  (keys_from w be < fuel)%nat ->
  chain_invariant be n u used0 (Some w) used cur ->
  exists used' cur',
    follow fuel be n w used cur = Ok (used', cur') /\
    chain_invariant be n u used0 None used' cur'.
Proof.
  revert w used cur. induction fuel as [|fuel IH]; intros w used cur Hfuel Hinv; [lia|].
  destruct Hinv as (Hused & Hnd & Hcur & Hu & Hclosed & Horigin & Hlast).
  destruct (Hlast w eq_refl) as [Hw Hmax].
  simpl. destruct (PyDict.get be w) as [w'|] eqn:E.
  - apply get_Some_elem_of in E. pose proof (be_up _ _ E) as Hup.
    replace (w' =? 0) with false by (symmetry; apply Z.eqb_neq; lia).
    replace (n <=? w') with false by (symmetry; apply Z.leb_gt; lia).
    apply IH; [pose proof (keys_from_lt be w w' w' E ltac:(lia)); lia|].
    assert (w' ∉ cur) as Hfresh.
    { intros Hin. specialize (Hmax _ Hin). lia. }
    assert (w' ∉ used0) as Hnew.
    { intros Hin. destruct (used0_origin _ Hin) as [[v Hv]|(x & Hx & Hxw)].
      - specialize (done_before _ _ Hv). destruct (Hcur _ Hw) as (_ & ? & _). lia.
      - assert (x = w) as -> by (apply (one_predecessor _ _ w' Hxw E)).
        destruct (Hcur _ Hw) as (Hnot & _). contradiction. }
    split; [|split; [|split; [|split; [|split; [|split]]]]].
    + intros x. rewrite elem_of_union, elem_of_singleton, Hused, elem_of_app,
        list_elem_of_singleton. tauto.
    + apply NoDup_app. split; [exact Hnd|]. split; [|apply NoDup_singleton].
      intros x Hx ->%list_elem_of_singleton. contradiction.
    + intros x [Hx| ->%list_elem_of_singleton]%elem_of_app; [apply Hcur, Hx|].
      destruct (Hcur _ Hw) as (_ & ? & _). split; [exact Hnew|]. lia.
    + apply elem_of_app. auto.
    + intros x y [Hx| ->%list_elem_of_singleton]%elem_of_app Hne Hxy;
        [|congruence]. apply elem_of_app.
      destruct (decide (x = w)) as [->|Hxw].
      * right. apply list_elem_of_singleton. apply (one_successor w); assumption.
      * left. apply (Hclosed x y Hx); [congruence | exact Hxy].
    + intros y [Hy| ->%list_elem_of_singleton]%elem_of_app.
      * destruct (Horigin _ Hy) as [->|(x & Hx & Hxy)]; [auto|].
        right. exists x. split; [apply elem_of_app; auto | exact Hxy].
      * right. exists w. split; [apply elem_of_app; auto | exact E].
    + intros ? [= <-]. split; [apply elem_of_app; right; apply list_elem_of_singleton; reflexivity|].
      intros x [Hx| ->%list_elem_of_singleton]%elem_of_app; [|lia].
      specialize (Hmax _ Hx). lia.
  - exists used, cur. split; [reflexivity|].
    split; [exact Hused|]. split; [exact Hnd|]. split; [exact Hcur|]. split; [exact Hu|].
    split; [|split; [exact Horigin | discriminate]].
    intros x y Hx _ Hxy. destruct (decide (x = w)) as [->|Hxw].
    + apply elem_of_get in Hxy. congruence.
    + apply (Hclosed x y Hx); [congruence | exact Hxy].
Qed.
End Walk.

Lemma chain_step_invariant done u v todo used chains :
  be = done ++ (u, v) :: todo ->
  chainer_invariant be n done used chains ->
  exists used' chains',
    chain_step (S (length be)) be n (used, chains) (u, v) = Ok (used', chains') /\
    chainer_invariant be n (done ++ [(u, v)]) used' chains'.
Proof.
  intros Ebe (Hcover & Hnd & Hclosed & Horigin & Hdone & Hrange & Hne).
  assert ((u, v) ∈ be) as Huv.
  { rewrite Ebe. apply elem_of_app. right. apply elem_of_cons. auto. }
  pose proof (be_up _ _ Huv) as Hup.
  assert (forall u' v', (u', v') ∈ done -> u' < u) as Hbefore.
  { intros u' v' H. rewrite Ebe in be_sorted.
    apply (StronglySorted_app_1_elem_of _ _ _ (u', v') (u, v) be_sorted H).
    apply elem_of_cons. auto. }
  assert (v ∈ used -> u ∈ used) as Hvu.
  { intros Hv. destruct (Horigin _ Hv) as [[v' Hv']|(x & Hx & Hxv)].
    - specialize (Hbefore _ _ Hv'). lia.
    - assert (x = u) as -> by (apply (one_predecessor _ _ v Hxv Huv)). exact Hx. }
  unfold chain_step.
  destruct (bool_decide (u ∈ used) || bool_decide (v ∈ used)) eqn:Eskip.
  - exists used, chains. split; [reflexivity|].
    assert (u ∈ used) as Hu.
    { apply orb_true_iff in Eskip as [H|H]; apply bool_decide_eq_true in H; auto. }
    split; [exact Hcover|]. split; [exact Hnd|]. split; [exact Hclosed|].
    split; [|split; [|split; [exact Hrange | exact Hne]]].
    + intros y Hy. destruct (Horigin _ Hy) as [[v' Hv']|H]; [|auto].
      left. exists v'. apply elem_of_app. auto.
    + intros u' v' [H|[= -> ->]%list_elem_of_singleton]%elem_of_app; [eauto | exact Hu].
  - apply orb_false_iff in Eskip as [Hu Hv].
    apply bool_decide_eq_false in Hu, Hv.
    destruct (follow_chain u used done Hbefore Horigin (S (length be)) v
                (used ∪ {[u]} ∪ {[v]}) [u; v]) as (used' & cur' & -> & Hchain).
    { unfold keys_from. pose proof (length_filter (fun kw : Z * Z => v <= kw.1) be). lia. }
    { split; [|split; [|split; [|split; [|split; [|split]]]]].
      - intros x. rewrite !elem_of_union, !elem_of_singleton, !elem_of_cons, elem_of_nil.
        tauto.
      - apply NoDup_cons. split; [|apply NoDup_singleton].
        intros ->%list_elem_of_singleton. lia.
      - intros x [->|[->|H%elem_of_nil]%elem_of_cons]%elem_of_cons; [| |tauto];
          (split; [assumption | lia]).
      - apply elem_of_cons. auto.
      - intros x y [->|[->|H%elem_of_nil]%elem_of_cons]%elem_of_cons Hopen Hxy;
          [|congruence|tauto].
        apply elem_of_cons. right. apply list_elem_of_singleton.
        apply (one_successor u); assumption.
      - intros y [->|[->|H%elem_of_nil]%elem_of_cons]%elem_of_cons; [auto| |tauto].
        right. exists u. split; [apply elem_of_cons; auto | exact Huv].
      - intros ? [= <-]. split; [apply elem_of_cons; right; apply elem_of_cons; auto|].
        intros x [->|[->|H%elem_of_nil]%elem_of_cons]%elem_of_cons; [lia | lia | tauto]. }
    destruct Hchain as (Hused' & Hnd' & Hcur' & Hu' & Hclosed' & Horigin' & _).
    exists used', (chains ++ [cur']). split; [reflexivity|].
    split; [|split; [|split; [|split; [|split; [|split]]]]].
    + intros x. rewrite concat_app, elem_of_app. simpl. rewrite app_nil_r.
      rewrite Hused', Hcover. tauto.
    + rewrite concat_app. simpl. rewrite app_nil_r. apply NoDup_app.
      split; [exact Hnd|]. split; [|exact Hnd'].
      intros x Hx Hx'. apply Hcover in Hx. destruct (Hcur' _ Hx') as (Hnot & _).
      contradiction.
    + intros x y [Hx|Hx]%Hused' Hxy; apply Hused'.
      * left. apply (Hclosed x); assumption.
      * right. apply (Hclosed' x y Hx); [discriminate | exact Hxy].
    + intros y [Hy|Hy]%Hused'.
      * destruct (Horigin _ Hy) as [[v' Hv']|(x & Hx & Hxy)].
        -- left. exists v'. apply elem_of_app. auto.
        -- right. exists x. split; [apply Hused'; auto | exact Hxy].
      * destruct (Horigin' _ Hy) as [->|(x & Hx & Hxy)].
        -- left. exists v. apply elem_of_app. right. apply list_elem_of_singleton. reflexivity.
        -- right. exists x. split; [apply Hused'; auto | exact Hxy].
    + intros u' v' [H|[= -> ->]%list_elem_of_singleton]%elem_of_app; apply Hused'.
      * left. eapply Hdone, H.
      * right. exact Hu'.
    + intros x [Hx|Hx]%Hused'; [apply Hrange, Hx | apply Hcur', Hx].
    + apply Forall_app. split; [exact Hne|]. constructor; [|constructor].
      intros ->. apply elem_of_nil in Hu'. exact Hu'.
Qed.

Lemma chain_loop_invariant todo done used chains :
  be = done ++ todo ->
  chainer_invariant be n done used chains ->
  exists used' chains',
    foldM (chain_step (S (length be)) be n) (used, chains) todo = Ok (used', chains') /\
    chainer_invariant be n be used' chains'.
Proof.
  revert done used chains. induction todo as [|[u v] todo IH]; intros done used chains Ebe Hinv.
  - rewrite app_nil_r in Ebe. subst done. exists used, chains. auto.
  - cbn [foldM].
    destruct (chain_step_invariant done u v todo used chains Ebe Hinv)
      as (used1 & chains1 & -> & Hinv1).
    apply (IH (done ++ [(u, v)])); [rewrite <- app_assoc; exact Ebe | exact Hinv1].
Qed.
End Chainer_partition.

Lemma elem_of_range (n x : Z) : x ∈ Py.range n <-> 0 <= x < n.
Proof.
  unfold Py.range. rewrite list_elem_of_fmap. split.
  - intros (k & -> & Hk%elem_of_seq). lia.
  - intros H. exists (Z.to_nat x). split; [lia | apply elem_of_seq; lia].
Qed.

Lemma NoDup_range (n : Z) : NoDup (Py.range n).
Proof.
  unfold Py.range. apply NoDup_fmap_2; [|apply NoDup_seq].
  intros a b H. lia.
Qed.

Lemma concat_singletons {A} (l : list A) : concat (map (fun x => [x]) l) = l.
Proof. induction l as [|x l IH]; simpl; [reflexivity | rewrite IH; reflexivity]. Qed.

Lemma concat_Permutation {A} (l k : list (list A)) : l ≡ₚ k -> concat l ≡ₚ concat k.
Proof.
  induction 1 as [|x l k _ IH|x y l|l k m _ IH1 _ IH2]; simpl.
  - reflexivity.
  - rewrite IH. reflexivity.
  - rewrite !app_assoc. apply Permutation_app_tail, Permutation_app_comm.
  - etransitivity; eassumption.
Qed.

(** X22. On a matching whose edges lead from a trip index to a higher one
    below the trip count, the chainer returns and its duties hold every
    trip index exactly once. *)
Lemma ConvertEdgesToBuses_partitions_upward (n : Z) (edges : list (Z * Z)) :
  Spec.is_matching edges ->
  (forall u v, (u, v) ∈ edges -> 0 <= u < v /\ v < n) ->
  exists buses, ConvertEdgesToBuses n edges = Ok buses /\ Spec.partitions n buses.
Proof.
  intros [Hsrc Htgt] Hup. unfold ConvertEdgesToBuses.
  set (sorted := Py.sort_by Py.pair_leb id edges).
  assert (sorted ≡ₚ edges) as Hperm by apply sort_by_Permutation.
  assert (NoDup (map fst sorted)) as Hsrc'.
  { eapply NoDup_Permutation_proper; [apply fmap_Permutation, Hperm | exact Hsrc]. }
  assert (NoDup (map snd sorted)) as Htgt'.
  { eapply NoDup_Permutation_proper; [apply fmap_Permutation, Hperm | exact Htgt]. }
  rewrite (of_items_NoDup sorted Hsrc').
  assert (forall u v, (u, v) ∈ sorted -> 0 <= u < v /\ v < n) as Hup'.
  { intros u v H. apply Hup. rewrite <- Hperm. exact H. }
  assert (StronglySorted (fun a b : Z * Z => a.1 < b.1) sorted) as Hsorted.
  { pose proof (sort_by_sorted Py.pair_leb id pair_leb_total pair_leb_trans edges) as Hs.
    fold sorted in Hs. clear -Hs Hsrc'. induction Hs as [|a l _ IH Ha]; [constructor|].
    simpl in Hsrc'. apply NoDup_cons in Hsrc' as [Hfresh Hl].
    constructor; [apply IH, Hl|].
    rewrite Forall_forall in Ha |- *. intros b Hb. specialize (Ha b Hb).
    simpl in Ha. apply pair_leb_spec in Ha. destruct Ha as [Ha|[Ha _]]; [exact Ha|].
    exfalso. apply Hfresh. rewrite Ha. apply list_elem_of_fmap. exists b. auto. }
  destruct (chain_loop_invariant n sorted Hsrc' Htgt' Hup' Hsorted sorted [] ∅ [])
    as (used & chains & -> & Hinv); [reflexivity| |].
  { split; [|split; [|split; [|split; [|split; [|split]]]]]; simpl.
    - intros x. split; [intros H%elem_of_empty | intros H%elem_of_nil]; tauto.
    - constructor.
    - intros x y H%elem_of_empty. tauto.
    - intros y H%elem_of_empty. tauto.
    - intros u v H%elem_of_nil. tauto.
    - intros x H%elem_of_empty. tauto.
    - constructor. }
  destruct Hinv as (Hcover & Hnd & _ & _ & _ & Hrange & Hne).
  simpl.
  destruct (sort_buses_is_Ok
              (chains ++ map (fun i => [i]) (filter (fun i => i ∉ used) (Py.range n))))
    as [buses Hbuses].
  { apply Forall_app. split; [exact Hne|]. apply Forall_fmap, Forall_forall.
    intros i _. discriminate. }
  exists buses. split; [exact Hbuses|].
  apply sort_buses_Ok in Hbuses as [_ Hp]. unfold Spec.partitions.
  rewrite (concat_Permutation _ _ Hp), concat_app, concat_singletons.
  apply NoDup_Permutation.
  - apply NoDup_app. split; [exact Hnd|]. split; [|apply NoDup_filter, NoDup_range].
    intros x Hx Hx'. apply Hcover in Hx. apply list_elem_of_filter in Hx' as [Hx' _].
    contradiction.
  - apply NoDup_range.
  - intros x. rewrite elem_of_app, list_elem_of_filter, elem_of_range, <- Hcover. split.
    + intros [H|[_ H]]; [apply Hrange, H | exact H].
    + intros H. destruct (decide (x ∈ used)); auto.
Qed.

(** X22, witness: the chains 0, 1, 2 and 3, 4 on five trips, every trip
    once. *)
Lemma ConvertEdgesToBuses_partitions_upward_example :
  exists buses,
    ConvertEdgesToBuses 5 [(0, 1); (1, 2); (3, 4)] = Ok buses /\ Spec.partitions 5 buses.
Proof.
  apply ConvertEdgesToBuses_partitions_upward.
  - split; apply (bool_decide_unpack (NoDup _)); vm_compute; exact I.
  - intros u v H. apply list_elem_of_In in H. simpl in H.
    destruct H as [[= <- <-]|[[= <- <-]|[[= <- <-]|[]]]]; lia.
Defined.

(** ** The local search neither loses nor repeats a trip *)

Lemma foldM_invariant {A S} (P : S -> Prop) (body : S -> A -> result S) l st st' :
  (forall s x s', x ∈ l -> P s -> body s x = Ok s' -> P s') ->
  P st -> foldM body st l = Ok st' -> P st'.
Proof.
  revert st. induction l as [|x l IH]; intros st Hbody HP; simpl.
  - intros [= <-]. exact HP.
  - intros (s1 & H1 & H)%bind_Ok. eapply IH; [| |exact H].
    + intros s y s' Hy. apply Hbody. apply elem_of_cons. auto.
    + eapply Hbody; [apply elem_of_cons; left; reflexivity | exact HP | exact H1].
Qed.

Lemma elem_of_range_from (a b x : Z) : x ∈ range_from a b <-> a <= x < b.
Proof.
  unfold range_from. rewrite list_elem_of_fmap. split.
  - intros (k & -> & Hk%elem_of_seq). lia.
  - intros H. exists (Z.to_nat (x - a)). split; [lia | apply elem_of_seq; lia].
Qed.

Lemma set_add_Forall {A} `{EqDecision A} (P : A -> Prop) x (s : list A) :
  P x -> Forall P s -> Forall P (set_add x s).
Proof.
  intros Hx Hs. unfold set_add. destruct (bool_decide (x ∈ s)); [exact Hs|].
  apply Forall_app. split; [exact Hs | constructor; [exact Hx | constructor]].
Qed.

Lemma cuts_of_second_fits sedges buses busIndex1 tripIndex1 a1 a2 busIndex2 bus2 acc acc' :
  0 <= busIndex1 < Z.of_nat (length buses) ->
  0 <= busIndex2 < Z.of_nat (length buses) ->
  busIndex1 <> busIndex2 ->
  -1 <= tripIndex1 ->
  Forall (swap_fits buses) acc ->
  cuts_of_second sedges busIndex1 tripIndex1 a1 a2 busIndex2 bus2 acc = Ok acc' ->
  Forall (swap_fits buses) acc'.
Proof.
  intros H1 H2 Hne Ht1 Hacc. unfold cuts_of_second.
  apply (foldM_invariant (Forall (swap_fits buses))); [|exact Hacc].
  intros s tripIndex2 s' Ht2%elem_of_range_from Hs ([b1 b2] & _ & H)%bind_Ok.
  apply bind_Ok in H as (_ & _ & [= <-]).
  destruct (not_swappable sedges a1 a2 b1 b2); [exact Hs|].
  apply set_add_Forall; [|exact Hs]. unfold swap_fits. repeat split; lia.
Qed.

Lemma initial_swaps_fits sedges buses swaps :
  initial_swaps sedges buses = Ok swaps -> Forall (swap_fits buses) swaps.
Proof.
  unfold initial_swaps.
  apply (foldM_invariant (Forall (swap_fits buses))); [|constructor].
  intros s [busIndex1 bus1] s' [H0 Hlook]%elem_of_enumerate Hs.
  apply lookup_lt_Some in Hlook.
  apply (foldM_invariant (Forall (swap_fits buses))); [|exact Hs].
  clear s s' Hs. intros s busIndex2 s' Hb2%elem_of_range_from Hs.
  intros (_ & _ & H)%bind_Ok. apply bind_Ok in H as (bus2 & _ & H). revert H.
  apply (foldM_invariant (Forall (swap_fits buses))); [|exact Hs].
  clear s s' Hs. intros s tripIndex1 s' Ht1%elem_of_range_from Hs ([a1 a2] & _ & H)%bind_Ok.
  apply bind_Ok in H as (_ & _ & H).
  eapply cuts_of_second_fits; [| | | |exact Hs|exact H]; lia.
Qed.

(** Replacing one element of a list of lists, in terms of the
    concatenation. *)
Lemma concat_insert {A} (l : list (list A)) i x y :
  l !! i = Some x -> concat (<[i:=y]> l) ++ x ≡ₚ concat l ++ y.
Proof.
  revert i. induction l as [|z l IH]; intros [|i]; simpl; try discriminate.
  - intros [= ->]. rewrite <- !app_assoc.
    rewrite (Permutation_app_comm y), <- app_assoc.
    apply Permutation_app_swap_app.
  - intros H. rewrite <- !app_assoc. apply Permutation_app_head, IH, H.
Qed.

Lemma concat_insert_two {A} (l : list (list A)) i j x1 x2 y1 y2 :
  i <> j -> l !! i = Some x1 -> l !! j = Some x2 ->
  y1 ++ y2 ≡ₚ x1 ++ x2 ->
  concat (<[j:=y2]> (<[i:=y1]> l)) ≡ₚ concat l.
Proof.
  intros Hij Hi Hj Hy.
  pose proof (concat_insert l i x1 y1 Hi) as H1.
  assert (<[i:=y1]> l !! j = Some x2) as Hj' by (rewrite list_lookup_insert_ne; auto).
  pose proof (concat_insert _ j x2 y2 Hj') as H2.
  apply (Permutation_app_inv_r (x2 ++ x1)).
  rewrite app_assoc, H2, <- app_assoc, (Permutation_app_comm y2 x1), app_assoc, H1.
  rewrite <- !app_assoc. apply Permutation_app_head.
  rewrite Hy. apply Permutation_app_comm.
Qed.

Lemma crossed_Permutation {A} (l1 l2 : list A) a b :
  (take a l1 ++ drop b l2) ++ (take b l2 ++ drop a l1) ≡ₚ l1 ++ l2.
Proof.
  rewrite <- (take_drop a l1) at 3. rewrite <- (take_drop b l2) at 3.
  rewrite <- !app_assoc. apply Permutation_app_head.
  rewrite (Permutation_app_comm (drop b l2)), <- app_assoc.
  apply Permutation_app_swap_app.
Qed.

Lemma getitem_lookup {A} (l : list A) i x :
  Py.getitem l i = Ok x -> 0 <= i -> l !! Z.to_nat i = Some x.
Proof.
  unfold Py.getitem. intros H Hi. destruct (Z.ltb_spec i 0); [lia|].
  destruct (_ || _); [discriminate|].
  destruct (l !! Z.to_nat i); [congruence | discriminate].
Qed.

Lemma setitem_Ok {A} (l : list A) i x l' :
  setitem l i x = Ok l' -> 0 <= i -> l' = <[Z.to_nat i := x]> l.
Proof.
  unfold setitem. intros H Hi. destruct (Z.ltb_spec i 0); [lia|].
  destruct (_ || _); [discriminate|]. congruence.
Qed.

Section Trips_kept.
Variable sedges : gset (Z * Z).
Variable edgesWeights : list (Z * Z * Qc).
Variable kept multiplications : Z.
Variable T : list Z.

Lemma apply_swap_fits s s' :
  solution_fits T s -> apply_swap sedges s = Ok s' -> solution_fits T s'.
Proof.
  destruct s as [[[sw buses] len] swaps]. intros (Hperm & Hswaps & Hsw).
  unfold apply_swap.
  destruct sw as [[[[bus1I trip1I] bus2I] trip2I]|];
    [|intros [= <-]; repeat split; [exact Hperm | exact Hswaps]].
  simpl in Hsw. destruct Hsw as (Hb1 & Hb2 & Hne & _).
  intros (bus1 & Hbus1 & H)%bind_Ok. apply bind_Ok in H as (bus2 & Hbus2 & H).
  apply bind_Ok in H as (_ & _ & H). apply bind_Ok in H as (cb1 & Hcb1 & H).
  apply bind_Ok in H as (cb & Hcb & H).
  apply bind_Ok in H as (swaps' & Hswaps' & [= <-]).
  apply getitem_lookup in Hbus1; [|lia]. apply getitem_lookup in Hbus2; [|lia].
  apply setitem_Ok in Hcb1; [|lia]. subst cb1.
  apply setitem_Ok in Hcb; [|lia]. subst cb.
  set (busA := slice_to bus1 (trip1I + 1) ++ slice_from bus2 (trip2I + 1)) in *.
  set (busB := slice_to bus2 (trip2I + 1) ++ slice_from bus1 (trip1I + 1)) in *.
  set (cb := <[Z.to_nat bus2I:=busB]> (<[Z.to_nat bus1I:=busA]> buses)) in *.
  assert (length cb = length buses) as Hlen
    by (unfold cb; rewrite !length_insert; reflexivity).
  assert (forall e, swap_fits buses e -> swap_fits cb e) as Hfit.
  { intros [[[e0 e1] e2] e3]. unfold swap_fits. rewrite Hlen. tauto. }
  split; [|split; [|exact I]].
  - rewrite <- Hperm. unfold cb.
    apply (concat_insert_two buses _ _ bus1 bus2); [lia | assumption | assumption |].
    apply crossed_Permutation.
  - revert Hswaps'.
    apply (foldM_invariant (Forall (swap_fits cb))).
    + intros s [ourI our] s' Hour Hs.
      assert (0 <= ourI < Z.of_nat (length cb) /\ (ourI = bus1I \/ ourI = bus2I))
        as [Hour1 Hour2].
      { apply elem_of_cons in Hour as [[= -> ->]|Hour]; [split; [lia|auto]|].
        apply elem_of_cons in Hour as [[= -> ->]|Hour]; [split; [lia|auto]|].
        apply elem_of_nil in Hour. tauto. }
      apply (foldM_invariant (Forall (swap_fits cb))); [|exact Hs].
      clear s s' Hs.
      intros s tripIndex1 s' Ht1%elem_of_range_from Hs ([a1 a2] & _ & H)%bind_Ok.
      apply bind_Ok in H as (_ & _ & H). revert H.
      apply (foldM_invariant (Forall (swap_fits cb))); [|exact Hs].
      clear s s' Hs. intros s [otherI other] s' [H0 Hlook]%elem_of_enumerate Hs.
      apply lookup_lt_Some in Hlook.
      destruct (Z.eqb_spec otherI bus1I); simpl; [intros [= <-]; exact Hs|].
      destruct (Z.eqb_spec otherI bus2I); simpl; [intros [= <-]; exact Hs|].
      apply cuts_of_second_fits; [lia | lia | | lia | exact Hs].
      destruct Hour2; lia.
    + apply Forall_forall. intros e He. apply list_elem_of_filter in He as [_ He].
      rewrite Forall_forall in Hswaps. apply Hfit, Hswaps, He.
Qed.

Lemma scan_subseteq idx possibleSwaps chosenIdx later x :
  x ∈ scan idx possibleSwaps chosenIdx later -> x ∈ possibleSwaps.
Proof.
  revert idx chosenIdx later.
  induction possibleSwaps as [|sw rest IH]; intros idx chosenIdx later; simpl;
    [auto|].
  destruct (idx =? chosenIdx)%nat.
  - intros [->|H]%elem_of_cons; [apply elem_of_cons; auto|].
    destruct later as [|c later']; [apply elem_of_nil in H; tauto|].
    apply elem_of_cons. right. eapply IH, H.
  - intros H. apply elem_of_cons. right. eapply IH, H.
Qed.

Lemma propose_fits sample s l :
  solution_fits T s -> propose edgesWeights multiplications sample s = Ok l ->
  Forall (solution_fits T) l.
Proof.
  destruct s as [[[sw buses] len] swaps]. intros (Hperm & Hswaps & _).
  unfold propose. destruct (_ <? 0); [discriminate|].
  destruct (Py.sort_by _ _ _) as [|chosenIdx later]; [discriminate|].
  intros H%mapM_Ok. apply Forall_forall. intros s' Hs'.
  apply list_elem_of_lookup in Hs' as [i Hi].
  destruct (Forall2_lookup_r _ _ _ _ _ H Hi) as (e & He & Hes).
  apply list_elem_of_lookup_2, scan_subseteq in He.
  destruct e as [[[bus1I trip1I] bus2I] trip2I].
  apply bind_Ok in Hes as (? & _ & Hes). apply bind_Ok in Hes as (? & _ & Hes).
  apply bind_Ok in Hes as ([? ?] & _ & Hes). apply bind_Ok in Hes as ([? ?] & _ & Hes).
  apply bind_Ok in Hes as (? & _ & [= <-]).
  split; [exact Hperm|]. split; [exact Hswaps|].
  rewrite Forall_forall in Hswaps. apply (Hswaps _ He).
Qed.

End Trips_kept.

(** ** The cost difference of a swap is exact *)

Section Swap_difference.
Local Open Scope Qc_scope.
Variable ew : list (Z * Z * Qc).





Lemma getitem_last {A} (l : list A) x : Py.getitem l (-1) = Ok x -> last l = Some x.
Proof.
  unfold Py.getitem. simpl. destruct (_ || _) eqn:E; [discriminate|].
  apply orb_false_iff in E as [E1 E2]. rewrite last_lookup.
  replace (Z.to_nat (-1 + Z.of_nat (length l))) with (pred (length l)) by lia.
  destruct (l !! pred (length l)); [congruence | discriminate].
Qed.

Lemma getitem_head {A} (l : list A) x : Py.getitem l 0 = Ok x -> head l = Some x.
Proof. intros [t ->]%getitem_0. reflexivity. Qed.



End Swap_difference.


(** ** One round of the local search, for a property of solutions *)

Lemma elem_of_concat {A} (x : A) (ls : list (list A)) :
  x ∈ concat ls -> exists l, x ∈ l /\ l ∈ ls.
Proof.
  induction ls as [|l ls IH]; simpl; [intros H%elem_of_nil; tauto|].
  intros [H|H]%elem_of_app.
  - exists l. split; [exact H | apply elem_of_cons; auto].
  - destruct (IH H) as (l' & Hx & Hl'). exists l'. split; [exact Hx|].
    apply elem_of_cons. auto.
Qed.

Section Round_invariant.
Variable sedges : gset (Z * Z).
Variable edgesWeights : list (Z * Z * Qc).
Variable kept multiplications : Z.
Variable P : solution -> Prop.
Hypothesis kept_solution : forall s s', P s -> apply_swap sedges s = Ok s' -> P s'.
Hypothesis proposal : forall sample s l p s',
  P s -> propose edgesWeights multiplications sample s = Ok l -> p ∈ l ->
  apply_swap sedges p = Ok s' -> P s'.

Lemma round_invariant rnd solutions solutions' :
  Forall P solutions ->
  round sedges edgesWeights kept multiplications rnd solutions = Ok solutions' ->
  Forall P solutions'.
Proof.
  intros Hfit. unfold round. intros (proposed & Hprop & H)%bind_Ok.
  set (N := Py.sort_by Py.Qc_leb sol_length (solutions ++ concat proposed)) in *.
  assert (forall p s', p ∈ N -> apply_swap sedges p = Ok s' -> P s') as HN.
  { intros p s' Hp. unfold N in Hp. rewrite sort_by_Permutation in Hp.
    rewrite Forall_forall in Hfit.
    apply elem_of_app in Hp as [Hp|Hp]; [apply kept_solution, Hfit, Hp|].
    apply elem_of_concat in Hp as (l & Hp & Hl).
    apply mapM_Ok in Hprop. apply list_elem_of_lookup in Hl as [i Hi].
    destruct (Forall2_lookup_r _ _ _ _ _ Hprop Hi) as ([k s] & Hks & Hl).
    eapply proposal; [|exact Hl|exact Hp].
    apply list_elem_of_lookup_2, elem_of_lookup_imap in Hks as (? & ? & [= _ <-] & Hs).
    eapply Hfit, list_elem_of_lookup_2, Hs. }
  apply bind_Ok in H as (best & Hbest & H).
  apply getitem_elem_of in Hbest.
  apply bind_Ok in H as (K' & HK & [= <-]).
  match type of HK with Py.mapM _ ?k = _ => set (K := k) in * end.
  assert (forall p, p ∈ K -> p ∈ N) as HKN.
  { intros x. unfold K. destruct (1 <? kept).
    - intros [Hx|Hx]%elem_of_app; [apply list_elem_of_singleton in Hx as ->; exact Hbest|].
      unfold slice_to in Hx. apply subseteq_take in Hx.
      rewrite sort_by_Permutation in Hx. apply subseteq_take in Hx.
      apply list_elem_of_omap in Hx as (i & _ & Hi).
      apply list_elem_of_lookup_2 in Hi. apply subseteq_drop in Hi. exact Hi.
    - intros Hx. apply list_elem_of_singleton in Hx as ->. exact Hbest. }
  assert (Forall P K') as HK'.
  { apply mapM_Ok in HK. apply Forall_forall. intros s' Hs'.
    apply list_elem_of_lookup in Hs' as [i Hi].
    destruct (Forall2_lookup_r _ _ _ _ _ HK Hi) as (s & Hs & Hss').
    eapply HN; [|exact Hss']. eapply HKN, list_elem_of_lookup_2, Hs. }
  apply Forall_forall. intros s Hs.
  apply list_elem_of_fmap in Hs as (e & -> & He).
  rewrite sort_by_Permutation in He.
  apply elem_of_lookup_imap in He as (i & s & -> & Hs).
  rewrite Forall_forall in HK'. eapply HK', list_elem_of_lookup_2, Hs.
Qed.

Lemma rounds_invariant n rnds k solutions solutions' :
  Forall P solutions ->
  rounds sedges edgesWeights kept multiplications n rnds k solutions = Ok solutions' ->
  Forall P solutions'.
Proof.
  revert k solutions. induction n as [|n IH]; intros k solutions Hfit; simpl.
  - intros [= <-]. exact Hfit.
  - intros (mid & Hmid & H)%bind_Ok. eapply IH; [|exact H].
    eapply round_invariant; eassumption.
Qed.
End Round_invariant.

Lemma round_fits sedges edgesWeights kept multiplications T rnd solutions solutions' :
  Forall (solution_fits T) solutions ->
  round sedges edgesWeights kept multiplications rnd solutions = Ok solutions' ->
  Forall (solution_fits T) solutions'.
Proof.
  apply round_invariant.
  - apply apply_swap_fits.
  - intros sample s l p s' Hs Hl Hp. apply apply_swap_fits.
    eapply propose_fits in Hl; [|exact Hs]. rewrite Forall_forall in Hl. apply Hl, Hp.
Qed.

(** X1. The local search of the circular solver neither loses nor
    repeats a trip. Whatever the random draws are: when a round returns,
    every solution of the new population has the same trips, with the
    same multiplicities, as the solutions it started from; and the duties
    the solver returns hold exactly the trips of the seed duties, each as
    often as the seed does. *)
Theorem local_search_keeps_the_trips :
  (forall sedges edgesWeights kept multiplications rnd T solutions solutions',
     Forall (solution_fits T) solutions ->
     round sedges edgesWeights kept multiplications rnd solutions = Ok solutions' ->
     Forall (solution_fits T) solutions') /\
  (forall seed trips dists stopsMap iterations kept multiplications rnds buses,
     OptimizeTripsCircularApprox seed trips dists stopsMap iterations kept
       multiplications rnds = Ok buses ->
     concat buses ≡ₚ concat seed).
Proof.
  split.
  - intros sedges edgesWeights kept multiplications rnd T. apply round_fits.
  - intros seed trips dists stopsMap iterations kept multiplications rnds buses.
    unfold OptimizeTripsCircularApprox.
    intros (len & _ & H)%bind_Ok. apply bind_Ok in H as (edges & _ & H).
    apply bind_Ok in H as (ew0 & _ & H). apply bind_Ok in H as (ew & _ & H).
    apply bind_Ok in H as (swaps & Hswaps & H).
    apply bind_Ok in H as (solutions & Hrounds & H).
    apply initial_swaps_fits in Hswaps.
    apply (rounds_invariant _ _ _ _ (solution_fits (concat seed))) in Hrounds.
    + unfold finish in H. apply bind_Ok in H as (s & Hs & H).
      apply getitem_elem_of in Hs. rewrite Forall_forall in Hrounds.
      specialize (Hrounds _ Hs). destruct s as [[[sw bs] l] sws].
      destruct Hrounds as (Hperm & _). simpl in H.
      apply sort_buses_Ok in H as [_ H]. rewrite <- Hperm.
      apply concat_Permutation, H.
    + apply apply_swap_fits.
    + intros sample s l p s' Hs Hl Hp. apply apply_swap_fits.
      eapply propose_fits in Hl; [|exact Hs]. rewrite Forall_forall in Hl. apply Hl, Hp.
    + constructor; [|constructor]. split; [reflexivity|]. split; [exact Hswaps | exact I].
Qed.


(** ** The recorded length follows the duties *)

Section Length_tracks.
Local Open Scope Qc_scope.
Variable sedges : gset (Z * Z).
Variable ew : list (Z * Z * Qc).
Variable kept multiplications : Z.

Lemma Qc_sum_from a l : foldl Qcplus a l = a + Qc_sum l.
Proof.
  unfold Qc_sum. revert a. induction l as [|x l IH]; intros a; simpl; [ring|].
  rewrite (IH (a + x)), (IH (0 + x)). ring.
Qed.

Lemma Qc_sum_cons x l : Qc_sum (x :: l) = x + Qc_sum l.
Proof. unfold Qc_sum at 1. simpl. rewrite Qc_sum_from. ring. Qed.



End Length_tracks.


(** X1, witness: one round on the duties 0, 1 and 2, 3, and the search
    on the two lines, which uncrosses the duties 0, 3 and 2, 1. *)
Lemma local_search_keeps_the_trips_witness :
  (exists solutions',
     round Examples.ls_sedges Examples.ls_weights 2 1 Examples.ls_random Examples.ls_start
       = Ok solutions' /\
     Forall (solution_fits [0; 1; 2; 3]) solutions') /\
  (exists buses,
     OptimizeTripsCircularApprox Samples.crossed_duties Samples.four_trips
       Samples.four_dists Samples.four_stops 1 2 1 Samples.first_draws = Ok buses /\
     buses = [[0; 1]; [2; 3]] /\
     concat buses ≡ₚ concat Samples.crossed_duties).
Proof.
  destruct local_search_keeps_the_trips as [Hround Hsearch]. split.
  - eassert (round Examples.ls_sedges Examples.ls_weights 2 1 Examples.ls_random
               Examples.ls_start = Ok _) as H by (vm_compute; reflexivity).
    eexists. split; [exact H|]. eapply Hround; [|exact H].
    constructor; [|constructor]. split; [reflexivity|]. split; [|exact I].
    constructor; [|constructor]. unfold swap_fits. simpl. lia.
  - eexists. split; [vm_compute; reflexivity|]. split; [reflexivity|].
    apply (Hsearch _ Samples.four_trips Samples.four_dists Samples.four_stops 1 2 1
             Samples.first_draws).
    vm_compute. reflexivity.
Defined.



(** ** The local search needs a swap to choose from *)

Lemma mapM_not_Ok {A B} (f : A -> result B) l x :
  x ∈ l -> ~ Py.is_Ok (f x) -> ~ Py.is_Ok (Py.mapM f l).
Proof.
  intros Hx Hf [ys H%mapM_Ok]. apply list_elem_of_lookup in Hx as [i Hi].
  destruct (Forall2_lookup_l _ _ _ _ _ H Hi) as (y & _ & Hy).
  apply Hf. exists y. exact Hy.
Qed.

Lemma propose_needs_swaps ew multiplications sample sw buses len :
  ~ Py.is_Ok (propose ew multiplications sample (sw, buses, len, [])).
Proof.
  unfold propose. simpl length. intros [l H].
  destruct (Z.ltb_spec (Z.min multiplications (Z.of_nat 0)) 0); [discriminate|].
  replace (Z.to_nat (Z.min multiplications (Z.of_nat 0))) with 0%nat in H by lia.
  rewrite take_0 in H. discriminate.
Qed.

Lemma round_needs_swaps sedges ew kept multiplications rnd solutions sw buses len :
  (sw, buses, len, []) ∈ solutions ->
  ~ Py.is_Ok (round sedges ew kept multiplications rnd solutions).
Proof.
  intros Hs [out H]. unfold round in H. apply bind_Ok in H as (proposed & H & _).
  apply list_elem_of_lookup in Hs as [i Hi].
  eapply (mapM_not_Ok _ _ (i, (sw, buses, len, []))); [| |exists proposed; exact H].
  - apply elem_of_lookup_imap. eauto.
  - apply propose_needs_swaps.
Qed.

Lemma initial_swaps_few sedges (buses : list (list Z)) :
  (length buses <= 1)%nat -> initial_swaps sedges buses = Ok [].
Proof.
  destruct buses as [|b [|b' buses]]; simpl; [reflexivity | reflexivity | lia].
Qed.

(** X4. The local search of the circular solver needs a swap to choose
    from: a round does not return when a solution of the population has
    an empty set of possible swaps, and so the solver does not return,
    for one iteration or more, on a seed of fewer than two duties. *)
Theorem local_search_needs_swaps :
  (forall sedges edgesWeights kept multiplications rnd solutions sw buses len,
     (sw, buses, len, []) ∈ solutions ->
     ~ Py.is_Ok (round sedges edgesWeights kept multiplications rnd solutions)) /\
  (forall seed trips dists stopsMap iterations kept multiplications rnds,
     (length seed <= 1)%nat -> 0 < iterations ->
     ~ Py.is_Ok (OptimizeTripsCircularApprox seed trips dists stopsMap iterations kept
                   multiplications rnds)).
Proof.
  split; [apply round_needs_swaps|].
  intros seed trips dists stopsMap iterations kept multiplications rnds Hseed Hit [out H].
  unfold OptimizeTripsCircularApprox in H.
  apply bind_Ok in H as (len & _ & H). apply bind_Ok in H as (edges & _ & H).
  apply bind_Ok in H as (ew0 & _ & H). apply bind_Ok in H as (ew & _ & H).
  rewrite initial_swaps_few in H by exact Hseed. simpl in H.
  apply bind_Ok in H as (solutions & H & _).
  destruct (Z.to_nat iterations) as [|n] eqn:E; [lia|]. simpl in H.
  apply bind_Ok in H as (mid & H & _).
  eapply round_needs_swaps; [|exists mid; exact H].
  apply elem_of_cons. left. reflexivity.
Qed.

(** X4, witness: after the one swap of the two duties on the two lines
    no swap is left, and the second iteration raises [IndexError]; so
    does the first on the two trips of one line as a single duty. *)
Lemma local_search_needs_swaps_witness :
  OptimizeTripsCircularApprox Samples.crossed_duties Samples.four_trips
    Samples.four_dists Samples.four_stops 2 2 1 Samples.first_draws = Raise IndexError /\
  OptimizeTripsCircularApprox [[0; 1]] Samples.four_trips
    Samples.four_dists Samples.four_stops 1 2 1 Samples.first_draws = Raise IndexError /\
  ~ Py.is_Ok (OptimizeTripsCircularApprox [[0; 1]] Samples.four_trips
                Samples.four_dists Samples.four_stops 1 2 1 Samples.first_draws).
Proof.
  split; [vm_compute; reflexivity|]. split; [vm_compute; reflexivity|].
  apply (proj2 local_search_needs_swaps); simpl; lia.
Defined.

(** ** EvaluateSchedules *)

Lemma Z_sum_from a l : foldl Z.add a l = a + Z_sum l.
Proof.
  unfold Z_sum. revert a. induction l as [|x l IH]; intros a; simpl; [lia|].
  rewrite (IH (a + x)), (IH (0 + x)). lia.
Qed.

Lemma Z_sum_cons x l : Z_sum (x :: l) = x + Z_sum l.
Proof. unfold Z_sum at 1. simpl. rewrite Z_sum_from. lia. Qed.

Lemma getitem_m1 {A} (l : list A) x :
  Py.getitem l (-1) = Ok x -> l !! pred (length l) = Some x /\ l <> [].
Proof.
  intros H. split.
  - apply getitem_last in H. rewrite <- last_lookup. exact H.
  - intros ->. discriminate.
Qed.

Lemma setitem_m1 {A} (l : list A) x l' :
  setitem l (-1) x = Ok l' -> l' = <[pred (length l) := x]> l.
Proof.
  unfold setitem. simpl. destruct (_ || _) eqn:E; [discriminate|].
  apply orb_false_iff in E as [E1 E2]. intros [= <-]. f_equal. lia.
Qed.

Lemma mapM_range {B} (f : Z -> result B) n l :
  Py.mapM f (Py.range n) = Ok l ->
  length l = Z.to_nat n /\ forall i y, l !! i = Some y -> f (Z.of_nat i) = Ok y.
Proof.
  intros H%mapM_Ok. split.
  - rewrite <- (Forall2_length _ _ _ H). unfold Py.range.
    rewrite length_fmap, length_seq. reflexivity.
  - intros i y Hy. destruct (Forall2_lookup_r _ _ _ _ _ H Hy) as (x & Hx & Hf).
    unfold Py.range in Hx. rewrite list_lookup_fmap in Hx.
    destruct (seq 0 (Z.to_nat n) !! i) as [k|] eqn:Ek; [|discriminate].
    apply lookup_seq in Ek as [-> _]. injection Hx as <-. exact Hf.
Qed.

Lemma Forall2_insert_r {A B} (P : A -> B -> Prop) l k i x y :
  Forall2 P l k -> l !! i = Some x -> P x y -> Forall2 P l (<[i:=y]> k).
Proof.
  intros H Hx Hy. rewrite <- (list_insert_id l i x Hx).
  apply Forall2_insert; assumption.
Qed.

Lemma get_set_ne {K V} `{EqDecision K} (d : list (K * V)) k k' v :
  k <> k' -> PyDict.get (PyDict.set d k' v) k = PyDict.get d k.
Proof.
  intros Hne. induction d as [|[k0 v0] d IH]; simpl.
  - destruct (decide (k' = k)); [congruence | reflexivity].
  - destruct (decide (k0 = k')) as [->|Hk0]; simpl.
    + destruct (decide (k' = k)); [congruence | reflexivity].
    + destruct (decide (k0 = k)); [reflexivity | exact IH].
Qed.

Lemma get_update_other {K V} `{EqDecision K} (items d : list (K * V)) k :
  k ∉ map fst items -> PyDict.get (PyDict.update d items) k = PyDict.get d k.
Proof.
  unfold PyDict.update. revert d. induction items as [|[k' v] items IH]; intros d Hk; simpl.
  - reflexivity.
  - apply not_elem_of_cons in Hk as [Hne Hk]. rewrite IH by exact Hk.
    apply get_set_ne. exact Hne.
Qed.

Section Evaluate_facts.
Variable strftime : Z -> string.
Variable strptime : string -> result Z.

(** A trip is read from eight keys of its dictionary. *)
Lemma FromDictForJson_ext d d' :
  (forall k, k ∈ ["Line"; "Trip"; "Start stop"; "End stop"; "Start time"; "End time";
                  "Stops"; "Day"] -> PyDict.get d' k = PyDict.get d k) ->
  FromDictForJson strptime d' = FromDictForJson strptime d.
Proof.
  intros H. unfold FromDictForJson, get_Via, get_Day, PyDict.getitem.
  rewrite !H by (apply (bool_decide_unpack (_ ∈ _)); vm_compute; exact I).
  reflexivity.
Qed.

Lemma decorated_round_trip t d :
  decorated strftime t d ->
  FromDictForJson strptime d = FromDictForJson strptime (ToDictForJson strftime t).
Proof.
  intros (times & -> & Htimes). apply FromDictForJson_ext. intros k Hk.
  apply get_update_other. intros Hin. apply list_elem_of_fmap in Hin as (kv & -> & Hkv).
  rewrite Forall_forall in Htimes. specialize (Htimes _ Hkv).
  unfold time_keys in Htimes.
  repeat (apply elem_of_cons in Hk as [Hk|Hk];
          [rewrite Hk in Htimes;
           apply (bool_decide_pack (_ ∈ _)) in Htimes; vm_compute in Htimes;
           exact Htimes|]).
  apply elem_of_nil in Hk. exact Hk.
Qed.

Lemma decorated_update t d times :
  decorated strftime t d ->
  Forall (fun kv : string * json => kv.1 ∈ time_keys) times ->
  decorated strftime t (PyDict.update d times).
Proof.
  intros (times0 & -> & H0) H. exists (times0 ++ times). split.
  - unfold PyDict.update. rewrite foldl_app. reflexivity.
  - apply Forall_app. auto.
Qed.

Lemma decorated_start t : decorated strftime t (ToDictForJson strftime t).
Proof. exists []. split; [reflexivity | constructor]. Qed.

(** The sum of the trip times, the deadheads between the trips and the
    waiting times of a duty. *)
Lemma telescope (bus : list Trip) (ds ws : list Z) firstTrip lastTrip :
  head bus = Some firstTrip -> last bus = Some lastTrip ->
  length ds = pred (length bus) -> length ws = pred (length bus) ->
  (forall i t t' d w,
     bus !! i = Some t -> bus !! S i = Some t' -> ds !! i = Some d -> ws !! i = Some w ->
     w = StartTimeMins t' - (EndTimeMins t + d)) ->
  Z_sum (map (fun trip => EndTimeMins trip - StartTimeMins trip) bus) + Z_sum ds + Z_sum ws
  = EndTimeMins lastTrip - StartTimeMins firstTrip.
Proof.
  revert ds ws firstTrip. induction bus as [|t bus IH]; intros ds ws firstTrip; [discriminate|].
  intros [= <-] Hlast Hds Hws Hstep. destruct bus as [|t' bus].
  - injection Hlast as <-. destruct ds; [|discriminate]. destruct ws; [|discriminate].
    simpl. rewrite Z_sum_cons. unfold Z_sum. simpl. lia.
  - destruct ds as [|d ds]; [discriminate|]. destruct ws as [|w ws]; [discriminate|].
    assert (w = StartTimeMins t' - (EndTimeMins t + d)) as ->
      by (apply (Hstep 0%nat t t' d w); reflexivity).
    assert (Z_sum (map (fun trip => EndTimeMins trip - StartTimeMins trip) (t' :: bus))
            + Z_sum ds + Z_sum ws = EndTimeMins lastTrip - StartTimeMins t') as E.
    { apply IH; [reflexivity | exact Hlast | simpl in *; lia | simpl in *; lia |].
      intros i x x' y z H1 H2 H3 H4. apply (Hstep (S i) x x' y z); assumption. }
    rewrite map_cons, !Z_sum_cons. lia.
Qed.

Section Block.
Variable stops : list (string * Z).
Variable distanceMatrix : list (list Z).
Variable schedulingMethod : string.
Variable depot : option json.

Lemma block_Ok busNo bus d :
  block strftime stops distanceMatrix schedulingMethod depot busNo bus = Ok d ->
  exists trips pullOut pullIn lastReturn tripTimeTotal deadheadTimeTotal waitingTimeTotal,
    d = [ ("Bus number", JInt busNo);
          ("Pull-out", pullOut);
          ("Trips", JList (map JDict trips));
          ("Pull-in", pullIn);
          ("Turn-around", lastReturn);
          ("Total trip time", JInt tripTimeTotal);
          ("Total deadheading time", JInt deadheadTimeTotal);
          ("Total waiting time", JInt waitingTimeTotal) ] /\
    Forall2 (decorated strftime) bus trips /\
    tripTimeTotal = Z_sum (map (fun trip => EndTimeMins trip - StartTimeMins trip) bus) /\
    accounted stops distanceMatrix schedulingMethod depot bus d.
Proof.
  unfold block. intros (ds & Hds & H)%bind_Ok. apply bind_Ok in H as (ws & Hws & H).
  apply bind_Ok in H as (trips1 & Htrips1 & H).
  apply bind_Ok in H as (tl & Htl & H). apply bind_Ok in H as (ttl & _ & H).
  apply bind_Ok in H as (trips & Htrips & H).
  apply bind_Ok in H as (lastTrip & Hlast & H).
  apply bind_Ok in H as (firstTrip & Hfirst & H).
  apply bind_Ok in H as (returnTime & Hret & H).
  apply bind_Ok in H as ([[[pullOut pullIn] lastReturn] dh] & Hdepot & [= <-]).
  apply getitem_last in Hlast. apply getitem_head in Hfirst.
  assert (Forall2 (decorated strftime) bus trips1) as Hdec1.
  { revert Htrips1. apply (foldM_invariant (Forall2 (decorated strftime) bus)).
    - intros s i s' Hi%elem_of_range Hs (t & Ht & Hb)%bind_Ok.
      apply bind_Ok in Hb as (tt & _ & Hb). apply bind_Ok in Hb as (w & _ & Hb).
      apply bind_Ok in Hb as (dd & _ & Hb).
      apply getitem_lookup in Ht; [|lia]. apply setitem_Ok in Hb; [|lia]. subst s'.
      destruct (Forall2_lookup_r _ _ _ _ _ Hs Ht) as (x & Hx & Hxt).
      eapply Forall2_insert_r; [exact Hs | exact Hx|].
      apply decorated_update; [exact Hxt|].
      repeat constructor; apply (bool_decide_unpack (_ ∈ _)); vm_compute; exact I.
    - apply Forall2_fmap_r, Forall_Forall2_diag, Forall_forall.
      intros t _. apply decorated_start. }
  assert (Forall2 (decorated strftime) bus trips) as Hdec.
  { apply getitem_m1 in Htl as [Htl _]. apply setitem_m1 in Htrips. subst trips.
    destruct (Forall2_lookup_r _ _ _ _ _ Hdec1 Htl) as (x & Hx & Hxt).
    eapply Forall2_insert_r; [exact Hdec1 | exact Hx|].
    apply decorated_update; [exact Hxt|].
    repeat constructor; apply (bool_decide_unpack (_ ∈ _)); vm_compute; exact I. }
  apply mapM_range in Hds as [Hlds Hds]. apply mapM_range in Hws as [Hlws Hws].
  assert (Z_sum (map (fun trip => EndTimeMins trip - StartTimeMins trip) bus)
          + Z_sum ds + Z_sum ws = EndTimeMins lastTrip - StartTimeMins firstTrip) as Hsum.
  { apply telescope; [exact Hfirst | exact Hlast | lia | lia |].
    intros i t t' d0 w Ht Ht' Hd Hw. specialize (Hws _ _ Hw).
    apply lookup_lt_Some in Ht' as Hlt.
    apply bind_Ok in Hws as (n' & Hn' & Hws). apply bind_Ok in Hws as (t0 & Ht0 & Hws).
    apply bind_Ok in Hws as (d1 & Hd1 & [= <-]).
    apply getitem_lookup in Hn'; [|lia]. apply getitem_lookup in Ht0; [|lia].
    apply getitem_lookup in Hd1; [|lia].
    replace (Z.to_nat (Z.of_nat i + 1)) with (S i) in Hn' by lia.
    rewrite Nat2Z.id in Ht0, Hd1. congruence. }
  eexists trips, pullOut, pullIn, lastReturn, _, dh, _.
  split; [reflexivity|]. split; [exact Hdec|]. split; [reflexivity|].
  set (dh0 := if String.eqb schedulingMethod "circular"
              then Z_sum ds + returnTime else Z_sum ds) in *.
  assert (dh0 = Z_sum ds + (if String.eqb schedulingMethod "circular" then returnTime else 0))
    as Hdh0 by (unfold dh0; destruct (String.eqb _ _); lia).
  exists firstTrip, lastTrip, (Z_sum (map (fun trip => EndTimeMins trip - StartTimeMins trip) bus)),
    dh, (Z_sum ws), returnTime, (dh - dh0).
  split; [exact Hfirst|]. split; [exact Hlast|].
  split; [reflexivity|]. split; [reflexivity|]. split; [reflexivity|].
  split; [exact Hret|]. split; [lia|].
  destruct depot as [dj|].
  - destruct (truthy dj).
    + apply bind_Ok in Hdepot as (po & Hpo & Hdepot).
      apply bind_Ok in Hdepot as (pi & Hpi & [= <- <- <- <-]).
      exists po, pi. split; [exact Hpo|]. split; [exact Hpi | lia].
    + injection Hdepot as <- <- <- <-. lia.
  - injection Hdepot as <- <- <- <-. lia.
Qed.
End Block.
End Evaluate_facts.

Lemma NoDup_keys_set {K V} `{EqDecision K} (d : list (K * V)) k v :
  NoDup (map fst d) -> NoDup (map fst (PyDict.set d k v)).
Proof.
  induction d as [|[k' v'] d IH]; simpl.
  - intros _. apply NoDup_singleton.
  - intros [Hk' Hd]%NoDup_cons. destruct (decide (k' = k)) as [->|Hne]; simpl.
    + apply NoDup_cons. auto.
    + apply NoDup_cons. split; [|apply IH, Hd].
      intros Hin. apply list_elem_of_fmap in Hin as ([k0 v0] & Hk0 & Hin). simpl in Hk0.
      apply elem_of_set in Hin as [Hin|Heq].
      * apply Hk'. apply list_elem_of_fmap. exists (k0, v0). auto.
      * injection Heq as Hk _. congruence.
Qed.

Lemma NoDup_keys_update {K V} `{EqDecision K} (items d : list (K * V)) :
  NoDup (map fst d) -> NoDup (map fst (PyDict.update d items)).
Proof.
  unfold PyDict.update. revert d. induction items as [|[k v] items IH]; intros d Hd; simpl.
  - exact Hd.
  - apply IH, NoDup_keys_set, Hd.
Qed.

Lemma get_filter_key {V} (d : list (string * V)) (k k' : string) :
  k <> k' ->
  PyDict.get (filter (fun kv : string * V => kv.1 <> k') d) k = PyDict.get d k.
Proof.
  intros Hne. induction d as [|[k0 v0] d IH]; [reflexivity|].
  rewrite filter_cons. simpl. destruct (decide (k0 <> k')) as [H|H]; simpl.
  - destruct (decide (k0 = k)); [reflexivity | exact IH].
  - destruct (decide (k0 = k)) as [->|_]; [exfalso; apply H, Hne | exact IH].
Qed.

Lemma NoDup_keys_filter {K V} (P : K * V -> Prop) `{forall x, Decision (P x)}
    (d : list (K * V)) :
  NoDup (map fst d) -> NoDup (map fst (filter P d)).
Proof.
  induction d as [|[k v] d IH]; [intros _; constructor|].
  simpl. intros [Hk Hd]%NoDup_cons. rewrite filter_cons.
  destruct (decide (P (k, v))); [|apply IH, Hd].
  simpl. apply NoDup_cons. split; [|apply IH, Hd].
  intros Hin. apply Hk. apply list_elem_of_fmap in Hin as (kv & -> & Hin).
  apply list_elem_of_filter in Hin as [_ Hin]. apply list_elem_of_fmap. eauto.
Qed.

Lemma Z_sum_app l k : Z_sum (l ++ k) = Z_sum l + Z_sum k.
Proof.
  induction l as [|x l IH]; simpl; [unfold Z_sum at 2; simpl; lia|].
  rewrite !Z_sum_cons, IH. lia.
Qed.

Section Evaluate_schedules.
Variable strftime : Z -> string.
Variable strptime : string -> result Z.
Variable stops : list (string * Z).
Variable distanceMatrix : list (list Z).

Lemma mapM_block_Ok schedulingMethod depot (ischedule : list (Z * list Trip)) blocks :
  Py.mapM (fun '(busNo, busBlock) =>
             block strftime stops distanceMatrix schedulingMethod depot busNo busBlock)
          ischedule = Ok blocks ->
  Forall2 (fun bus d =>
             accounted stops distanceMatrix schedulingMethod depot bus d /\
             exists trips,
               PyDict.get d "Trips" = Some (JList (map JDict trips)) /\
               Forall2 (decorated strftime) bus trips)
          (map snd ischedule) blocks.
Proof.
  intros H%mapM_Ok. apply Forall2_fmap_l. eapply Forall2_impl; [exact H|].
  intros [busNo bus] d Hd. simpl in Hd. simpl.
  apply block_Ok in Hd as (trips & po & pi & lr & tt & dh & wt & -> & Hdec & _ & Hacc).
  split; [exact Hacc|]. exists trips. split; [reflexivity | exact Hdec].
Qed.

Lemma enumerate_from_1_snd {A} (l : list A) : map snd (enumerate_from_1 l) = l.
Proof. apply imap_snd. Qed.

(** What [EvaluateSchedules] returns, when it returns. *)
Lemma EvaluateSchedules_Ok schedule schedulingMethod scheduleArgs res :
  EvaluateSchedules strftime schedule stops distanceMatrix schedulingMethod scheduleArgs
    = Ok res ->
  exists blocks,
    PyDict.get res "Bus schedules" = Some (JList (map JDict blocks)) /\
    PyDict.get res "Global trip count" = Some (JInt (Z.of_nat (length (concat schedule)))) /\
    NoDup (map fst res) /\
    Forall2 (fun bus d =>
               accounted stops distanceMatrix schedulingMethod
                 (PyDict.get scheduleArgs "depot") bus d /\
               exists trips,
                 PyDict.get d "Trips" = Some (JList (map JDict trips)) /\
                 Forall2 (decorated strftime) bus trips)
            schedule blocks.
Proof.
  unfold EvaluateSchedules. destruct (negb _); [discriminate|].
  intros (blocks & Hblocks & H)%bind_Ok.
  apply bind_Ok in H as (tt & _ & H). apply bind_Ok in H as (dh & _ & H).
  apply bind_Ok in H as (wt & _ & H). apply bind_Ok in H as (tc & Htc & [= <-]).
  apply mapM_block_Ok in Hblocks. rewrite enumerate_from_1_snd in Hblocks.
  exists blocks. split; [|split; [|split]].
  - rewrite !get_set_ne by discriminate. apply get_set_eq.
  - rewrite get_set_eq. do 2 f_equal.
    destruct (Py.mapM _ blocks) as [counts| |] eqn:Ecounts; try discriminate.
    injection Htc as <-. apply mapM_Ok in Ecounts.
    clear -Hblocks Ecounts. revert counts Ecounts.
    induction Hblocks as [|bus d schedule blocks [_ (trips & Htrips & Hdec)] _ IH];
      intros counts Hcounts.
    + apply Forall2_nil_inv_l in Hcounts as ->. reflexivity.
    + apply Forall2_cons_inv_l in Hcounts as (c & counts' & Hc & Hcounts & ->).
      rewrite Z_sum_cons, (IH _ Hcounts). simpl. rewrite length_app.
      unfold PyDict.getitem in Hc. rewrite Htrips in Hc. simpl in Hc.
      injection Hc as <-. rewrite length_map, <- (Forall2_length _ _ _ Hdec). lia.
  - repeat apply NoDup_keys_set. apply NoDup_keys_update. apply NoDup_singleton.
  - exact Hblocks.
Qed.

Lemma decorated_trips_round_trip bus trips :
  Forall (Spec.readable strftime strptime) bus ->
  Forall2 (decorated strftime) bus trips ->
  Py.mapM (fun t => as_dict t ≫= FromDictForJson strptime) (map JDict trips)
  = Ok (map (fun t => with_minutes t (-1) (-1)) bus).
Proof.
  intros Hr H. induction H as [|t d bus trips Hd _ IH]; [reflexivity|].
  apply Forall_cons in Hr as [Ht Hr]. simpl.
  rewrite (decorated_round_trip strftime strptime t d Hd).
  rewrite (Trip_round_trip strftime strptime t Ht). simpl.
  rewrite (IH Hr). reflexivity.
Qed.

Lemma bus_from_json_block d trips :
  PyDict.get d "Trips" = Some (JList (map JDict trips)) ->
  bus_from_json strptime (JDict d)
  = Py.mapM (fun t => as_dict t ≫= FromDictForJson strptime) (map JDict trips).
Proof. intros H. unfold bus_from_json, PyDict.getitem. simpl. rewrite H. reflexivity. Qed.
End Evaluate_schedules.

(** X5. In every block that [EvaluateSchedules] writes for a duty, the
    total trip time, the total deadheading time and the total waiting
    time add up to the time from the first departure of the duty to its
    last arrival, and with the deadheads the block counts outside this
    time: the return to the first stop with the method "circular", the
    pull-out and the pull-in with a depot. The result has one block for
    each duty, and its global trip count is the number of trips of the
    schedule. *)
Theorem EvaluateSchedules_accounts_for_the_time
    (strftime : Z -> string) (schedule : list (list Trip))
    (stops : list (string * Z)) (distanceMatrix : list (list Z))
    (schedulingMethod : string) (scheduleArgs res : list (string * json)) :
  EvaluateSchedules strftime schedule stops distanceMatrix schedulingMethod scheduleArgs
    = Ok res ->
  exists blocks,
    PyDict.get res "Bus schedules" = Some (JList (map JDict blocks)) /\
    Forall2 (accounted stops distanceMatrix schedulingMethod
               (PyDict.get scheduleArgs "depot")) schedule blocks /\
    PyDict.get res "Global trip count" = Some (JInt (Z.of_nat (length (concat schedule)))).
Proof.
  intros (blocks & Hget & Hcount & _ & Hblocks)%EvaluateSchedules_Ok.
  exists blocks. split; [exact Hget|]. split; [|exact Hcount].
  eapply Forall2_impl; [exact Hblocks|]. intros bus d [H _]. exact H.
Qed.

(** X6. What [EvaluateSchedules] returns is read back by
    [SchedulesFromJsonDict]: for a schedule of trips that can be read
    back from their dictionaries, the duties that come back are the
    duties evaluated, trip for trip equal in all eight fields, and the
    arguments that come back hold the global trip count, which is the
    number of trips that come back. *)
Theorem EvaluateSchedules_is_read_back
    (strftime : Z -> string) (strptime : string -> result Z)
    (schedule : list (list Trip))
    (stops : list (string * Z)) (distanceMatrix : list (list Z))
    (schedulingMethod : string) (scheduleArgs res : list (string * json)) :
  Forall (Forall (Spec.readable strftime strptime)) schedule ->
  EvaluateSchedules strftime schedule stops distanceMatrix schedulingMethod scheduleArgs
    = Ok res ->
  exists schedule' args,
    SchedulesFromJsonDict strptime res = Ok (schedule', args) /\
    Forall2 (Forall2 Trip_eq) schedule' schedule /\
    PyDict.get args "Global trip count" = Some (JInt (Z.of_nat (length (concat schedule')))).
Proof.
  intros Hr (blocks & Hget & Hcount & Hnd & Hblocks)%EvaluateSchedules_Ok.
  exists (map (map (fun t => with_minutes t (-1) (-1))) schedule). eexists. split; [|split].
  - unfold SchedulesFromJsonDict, PyDict.getitem. rewrite Hget. simpl.
    assert (Py.mapM (bus_from_json strptime) (map JDict blocks)
            = Ok (map (map (fun t => with_minutes t (-1) (-1))) schedule)) as ->;
      [|reflexivity].
    clear -Hr Hblocks.
    induction Hblocks as [|bus d schedule blocks [_ (trips & Htrips & Hdec)] _ IH];
      [reflexivity|].
    apply Forall_cons in Hr as [Hbus Hr]. cbn [map Py.mapM].
    rewrite (bus_from_json_block strptime d trips Htrips).
    rewrite (decorated_trips_round_trip strftime strptime bus trips Hbus Hdec).
    cbn [mbind result_bind]. rewrite (IH Hr). reflexivity.
  - apply Forall2_fmap_l, Forall_Forall2_diag, Forall_forall. intros bus _.
    apply Forall2_fmap_l, Forall_Forall2_diag, Forall_forall. intros t _.
    destruct t. repeat split.
  - rewrite of_items_NoDup by (apply NoDup_keys_filter, Hnd).
    rewrite get_filter_key by discriminate. rewrite Hcount. do 3 f_equal.
    clear. induction schedule as [|bus schedule IH]; [reflexivity|].
    simpl. rewrite !length_app, length_map, IH. reflexivity.
Qed.

(** X7. [EvaluateSchedules] raises [ValueError] for a scheduling method
    other than "default", "depot" and "circular", whatever the schedule
    is; for one of these methods it raises [IndexError] when the first
    duty is empty, and it does not return when any duty is empty. *)
Theorem EvaluateSchedules_refuses
    (strftime : Z -> string) (schedule : list (list Trip))
    (stops : list (string * Z)) (distanceMatrix : list (list Z))
    (schedulingMethod : string) (scheduleArgs : list (string * json)) :
  (schedulingMethod ∉ ["default"; "depot"; "circular"] ->
   EvaluateSchedules strftime schedule stops distanceMatrix schedulingMethod scheduleArgs
     = Raise (ValueError "Unknown scheduling mode")) /\
  (schedulingMethod ∈ ["default"; "depot"; "circular"] ->
   (head schedule = Some [] ->
    EvaluateSchedules strftime schedule stops distanceMatrix schedulingMethod scheduleArgs
      = Raise IndexError) /\
   ([] ∈ schedule ->
    ~ Py.is_Ok (EvaluateSchedules strftime schedule stops distanceMatrix schedulingMethod
                  scheduleArgs))).
Proof.
  unfold EvaluateSchedules. split; [|split].
  - intros H. rewrite bool_decide_eq_false_2 by exact H. reflexivity.
  - intros Hhead. rewrite bool_decide_eq_true_2 by assumption.
    destruct schedule as [|bus schedule']; [discriminate|]. injection Hhead as ->.
    reflexivity.
  - intros Hin [res Hres].
    fold (EvaluateSchedules strftime schedule stops distanceMatrix schedulingMethod
            scheduleArgs) in Hres.
    apply EvaluateSchedules_Ok in Hres as (blocks & _ & _ & _ & Hblocks).
    apply list_elem_of_lookup in Hin as [i Hi].
    destruct (Forall2_lookup_l _ _ _ _ _ Hblocks Hi) as (d & _ & Hacc & _).
    destruct Hacc as (firstTrip & ? & ? & ? & ? & ? & ? & Hfirst & _). discriminate.
Qed.

(** X5, witness: the two duties that change line at the far end,
    evaluated as circular duties. The first runs from 8:00 to 9:40 and
    returns in 10 minutes: 60 minutes of trips, 20 of deadheads and 30 of
    waiting. *)
Lemma EvaluateSchedules_accounts_for_the_time_witness :
  exists res blocks,
    EvaluateSchedules Examples.strftime_2024 Samples.crossed_schedule Samples.four_stops
      Samples.four_dists "circular" [] = Ok res /\
    PyDict.get res "Bus schedules" = Some (JList (map JDict blocks)) /\
    Forall2 (accounted Samples.four_stops Samples.four_dists "circular" None)
      Samples.crossed_schedule blocks /\
    PyDict.get res "Global trip count" = Some (JInt 4) /\
    PyDict.get res "Global deadhead time" = Some (JInt 40) /\
    PyDict.get res "Global waiting time" = Some (JInt 40).
Proof.
  eassert (EvaluateSchedules Examples.strftime_2024 Samples.crossed_schedule
             Samples.four_stops Samples.four_dists "circular" [] = Ok _) as H
    by (vm_compute; reflexivity).
  destruct (EvaluateSchedules_accounts_for_the_time _ _ _ _ _ _ _ H)
    as (blocks & Hget & Hacc & Hcount).
  eexists _, blocks. split; [exact H|]. split; [exact Hget|]. split; [exact Hacc|].
  split; [exact Hcount|]. split; reflexivity.
Defined.

(** X6, witness: the same evaluation, read back. *)
Lemma EvaluateSchedules_is_read_back_witness :
  exists res schedule' args,
    EvaluateSchedules Examples.strftime_2024 Samples.crossed_schedule Samples.four_stops
      Samples.four_dists "circular" [("iterations", JInt 1)] = Ok res /\
    SchedulesFromJsonDict Examples.strptime_2024 res = Ok (schedule', args) /\
    Forall2 (Forall2 Trip_eq) schedule' Samples.crossed_schedule /\
    PyDict.get args "Global trip count" = Some (JInt (Z.of_nat (length (concat schedule')))).
Proof.
  eassert (EvaluateSchedules Examples.strftime_2024 Samples.crossed_schedule
             Samples.four_stops Samples.four_dists "circular" [("iterations", JInt 1)]
           = Ok _) as H
    by (vm_compute; reflexivity).
  assert (Forall (Forall (Spec.readable Examples.strftime_2024 Examples.strptime_2024))
            Samples.crossed_schedule) as Hr.
  { repeat constructor; try discriminate; intros d [=]. }
  destruct (EvaluateSchedules_is_read_back _ _ _ _ _ _ _ _ Hr H)
    as (schedule' & args & Hread & Heq & Hcount).
  eexists _, schedule', args. split; [exact H|]. split; [exact Hread|].
  split; [exact Heq | exact Hcount].
Defined.

(** X7, witness: the method "exact" is refused; a schedule whose first
    duty is empty, or whose second is, is not evaluated. *)
Lemma EvaluateSchedules_refuses_witness :
  EvaluateSchedules Examples.strftime_2024 Samples.crossed_schedule Samples.four_stops
    Samples.four_dists "exact" [] = Raise (ValueError "Unknown scheduling mode") /\
  EvaluateSchedules Examples.strftime_2024 ([] :: Samples.crossed_schedule) Samples.four_stops
    Samples.four_dists "default" [] = Raise IndexError /\
  ~ Py.is_Ok (EvaluateSchedules Examples.strftime_2024 [Examples.scenario_trips; []]
                Examples.scenario_stops Examples.scenario_dists "default" []).
Proof.
  split; [|split].
  - apply (EvaluateSchedules_refuses Examples.strftime_2024 Samples.crossed_schedule
             Samples.four_stops Samples.four_dists "exact" []).
    apply (bool_decide_unpack (_ ∉ _)). vm_compute. exact I.
  - apply (EvaluateSchedules_refuses Examples.strftime_2024 ([] :: Samples.crossed_schedule)
             Samples.four_stops Samples.four_dists "default" []).
    + apply (bool_decide_unpack (_ ∈ _)). vm_compute. exact I.
    + reflexivity.
  - apply (EvaluateSchedules_refuses Examples.strftime_2024 [Examples.scenario_trips; []]
             Examples.scenario_stops Examples.scenario_dists "default" []).
    + apply (bool_decide_unpack (_ ∈ _)). vm_compute. exact I.
    + apply elem_of_cons. right. apply elem_of_cons. left. reflexivity.
Defined.

(** ** Times and pairs written as strings *)

Lemma ConvertToHxM_of_the_day :
  forallb (fun m => Fields.result_Z_eqb (Utilities.ParseHxM (ConvertToHxM m)) (Ok m)) (Py.range 1440)
  = true.
Proof. vm_compute. reflexivity. Qed.

Lemma ConvertToHxM_mod mins : ConvertToHxM (mins `mod` 1440) = ConvertToHxM mins.
Proof.
  unfold ConvertToHxM. change (24 * 60) with 1440.
  rewrite Z.mod_mod by lia. reflexivity.
Qed.

Lemma ParseHxM_ConvertToHxM mins :
  Utilities.ParseHxM (ConvertToHxM mins) = Ok (mins `mod` 1440).
Proof.
  rewrite <- ConvertToHxM_mod.
  pose proof ConvertToHxM_of_the_day as H. rewrite forallb_forall in H.
  apply result_Z_eqb_eq, H, list_elem_of_In, elem_of_range.
  apply Z.mod_pos_bound. lia.
Qed.

(** X8. [ConvertToHxM] writes a time that [ParseHxM] reads back as the
    minute of the day: for every number of minutes, negative ones
    included, the value read back is the number modulo 1440. So whole
    days are dropped, and two numbers of minutes are written alike
    exactly when they differ by a whole number of days. *)
Theorem ConvertToHxM_is_read_back (mins : Z) :
  Utilities.ParseHxM (ConvertToHxM mins) = Ok (mins `mod` 1440) /\
  ConvertToHxM (mins + 1440) = ConvertToHxM mins /\
  forall mins', ConvertToHxM mins = ConvertToHxM mins' <-> mins `mod` 1440 = mins' `mod` 1440.
Proof.
  split; [apply ParseHxM_ConvertToHxM|]. split.
  - rewrite <- (ConvertToHxM_mod (mins + 1440)), <- (ConvertToHxM_mod mins).
    f_equal. rewrite <- (Z.mul_1_l 1440) at 1. apply Z.mod_add. lia.
  - intros mins'. split.
    + intros H. pose proof (ParseHxM_ConvertToHxM mins) as H1.
      rewrite H, ParseHxM_ConvertToHxM in H1. congruence.
    + intros H. rewrite <- (ConvertToHxM_mod mins), <- (ConvertToHxM_mod mins'), H.
      reflexivity.
Qed.

Section Decimal.
Import PyStr.

Lemma digit_val_digit_char d : 0 <= d <= 9 -> Py.digit_val (digit_char d) = Some d.
Proof.
  intros H.
  assert (d = 0 \/ d = 1 \/ d = 2 \/ d = 3 \/ d = 4 \/ d = 5 \/ d = 6 \/ d = 7 \/ d = 8
          \/ d = 9) as Hd by lia.
  repeat (destruct Hd as [->|Hd]; [reflexivity|]). subst d. reflexivity.
Qed.

Lemma digit_char_plain d :
  0 <= d <= 9 ->
  Py.is_space (digit_char d) = false /\ Ascii.eqb (digit_char d) "," = false /\
  Ascii.eqb (digit_char d) "+" = false /\ Ascii.eqb (digit_char d) "-" = false.
Proof.
  intros H.
  assert (d = 0 \/ d = 1 \/ d = 2 \/ d = 3 \/ d = 4 \/ d = 5 \/ d = 6 \/ d = 7 \/ d = 8
          \/ d = 9) as Hd by lia.
  repeat (destruct Hd as [->|Hd]; [repeat split|]). subst d. repeat split.
Qed.

(** Reading the digits written for [n]. *)
Lemma digits_digits_of fuel n rest seen :
  0 <= n < 2 ^ Z.of_nat fuel -> (1 <= fuel)%nat ->
  Py.digits 0 seen (digits_of fuel n rest) = Py.digits n true rest.
Proof.
  revert n rest. induction fuel as [|fuel IH]; intros n rest Hn Hf; [lia|].
  cbn [digits_of]. destruct (Z.ltb_spec n 10) as [Hlt|Hge].
  - cbn [Py.digits]. rewrite Z.mod_small by lia.
    rewrite digit_val_digit_char by lia. f_equal; lia.
  - assert (2 ^ Z.of_nat (S fuel) = 2 * 2 ^ Z.of_nat fuel) as E
      by (rewrite Nat2Z.inj_succ, Z.pow_succ_r by lia; reflexivity).
    assert (1 <= fuel)%nat as Hf'.
    { destruct fuel; [|lia]. simpl in Hn. lia. }
    rewrite IH; [| |exact Hf'].
    + pose proof (Z.mod_pos_bound n 10) as Hm.
      cbn [Py.digits]. rewrite digit_val_digit_char by lia.
      f_equal; rewrite (Z.div_mod n 10) at 3 by lia; reflexivity.
    + split; [apply Z.div_pos; lia|]. apply Z.div_lt_upper_bound; lia.
Qed.


Lemma digits_of_plain fuel n rest : plain rest -> plain (digits_of fuel n rest).
Proof.
  revert n rest. induction fuel as [|fuel IH]; intros n rest Hrest; [exact Hrest|].
  pose proof (Z.mod_pos_bound n 10) as Hm.
  destruct (digit_char_plain (n `mod` 10)) as (H1 & H2 & _); [lia|].
  cbn [digits_of]. destruct (n <? 10).
  - split; [exact H1|]. split; [exact H2 | exact Hrest].
  - apply IH. split; [exact H1|]. split; [exact H2 | exact Hrest].
Qed.

Lemma digits_of_head fuel n rest :
  exists d r, 0 <= d <= 9 /\ digits_of (S fuel) n rest = String (digit_char d) r.
Proof.
  revert n rest. induction fuel as [|fuel IH]; intros n rest.
  - pose proof (Z.mod_pos_bound n 10) as Hm. exists (n `mod` 10), rest.
    split; [lia|]. cbn [digits_of]. destruct (n <? 10); reflexivity.
  - pose proof (Z.mod_pos_bound n 10) as Hm.
    change (digits_of (S (S fuel)) n rest)
      with (if n <? 10 then String (digit_char (n `mod` 10)) rest
            else digits_of (S fuel) (n / 10) (String (digit_char (n `mod` 10)) rest)).
    destruct (n <? 10); [exists (n `mod` 10), rest; split; [lia | reflexivity]|].
    apply IH.
Qed.

Lemma rev_app_plain s acc : plain s -> plain acc -> plain (String.rev_app s acc).
Proof.
  revert acc. induction s as [|c s IH]; intros acc Hs Hacc; [exact Hacc|].
  destruct Hs as (H1 & H2 & Hs). simpl. apply IH; [exact Hs|].
  split; [exact H1|]. split; [exact H2 | exact Hacc].
Qed.

Lemma rev_app_rev_app s a b :
  String.rev_app (String.rev_app s a) b = String.rev_app a (s +:+ b).
Proof.
  revert a b. induction s as [|c s IH]; intros a b; [reflexivity|].
  simpl. rewrite IH. reflexivity.
Qed.

Lemma lstrip_plain s : plain s -> Py.lstrip s = s.
Proof. destruct s as [|c s]; [reflexivity|]. intros (H & _). simpl. rewrite H. reflexivity. Qed.

Lemma strip_plain s : plain s -> Py.strip s = s.
Proof.
  intros H. unfold Py.strip. rewrite (lstrip_plain s H).
  unfold String.rev. rewrite lstrip_plain by (apply rev_app_plain; [exact H | exact I]).
  rewrite rev_app_rev_app. simpl. apply string_app_empty.
Qed.

Lemma plain_no_comma s : plain s -> Fields.occurs "," s = false.
Proof.
  induction s as [|c s IH]; [reflexivity|]. intros (_ & H & Hs). simpl.
  rewrite H. apply IH, Hs.
Qed.

Lemma str_nonneg_plain n : plain (str_nonneg n).
Proof. apply digits_of_plain. exact I. Qed.

Lemma str_plain n : plain (str n).
Proof.
  unfold str. destruct (n <? 0); [|apply str_nonneg_plain].
  split; [reflexivity|]. split; [reflexivity | apply str_nonneg_plain].
Qed.

Lemma digits_str_nonneg n seen : 0 <= n -> Py.digits 0 seen (str_nonneg n) = Some n.
Proof.
  intros Hn. unfold str_nonneg. rewrite digits_digits_of; [reflexivity | | lia].
  split; [exact Hn|].
  replace (Z.of_nat (S (Z.to_nat (Z.log2 n)))) with (Z.succ (Z.log2 n))
    by (pose proof (Z.log2_nonneg n); lia).
  destruct (Z.eq_dec n 0) as [->|Hne]; [reflexivity|].
  apply Z.log2_spec. lia.
Qed.

(** [int(str(n)) == n] *)
Lemma int_str n : Py.int (str n) = Ok n.
Proof.
  unfold Py.int. rewrite (strip_plain _ (str_plain n)). unfold str.
  destruct (Z.ltb_spec n 0) as [Hneg|Hpos].
  - change (Ascii.eqb "-" "+") with false. change (Ascii.eqb "-" "-") with true.
    cbv iota. rewrite digits_str_nonneg by lia. simpl. f_equal. lia.
  - pose proof (digits_str_nonneg n false Hpos) as Hd. unfold str_nonneg in *.
    destruct (digits_of_head (Z.to_nat (Z.log2 n)) n EmptyString) as (d & r & Hdr & E).
    rewrite E in *. destruct (digit_char_plain d Hdr) as (_ & _ & -> & ->).
    rewrite Hd. reflexivity.
Qed.

Lemma int_space_str n : Py.int (String " " (str n)) = Ok n.
Proof. rewrite <- (int_str n). reflexivity. Qed.

Lemma init_app_one s c : init (s +:+ String c EmptyString) = s.
Proof.
  induction s as [|a s IH]; [reflexivity|].
  change (init (String a (s +:+ String c EmptyString)) = String a s).
  cbn [init]. rewrite IH. destruct s; reflexivity.
Qed.

Lemma StrToTuple_pair (a b : string) u v :
  plain a -> Fields.occurs "," b = false -> Py.int a = Ok u -> Py.int b = Ok v ->
  StrToTuple ("(" +:+ a +:+ "," +:+ b +:+ ")") = Ok (u, v).
Proof.
  intros Ha Hb Hu Hv. unfold StrToTuple.
  change (slice_1_m1 ("(" +:+ a +:+ "," +:+ b +:+ ")"))
    with (init (a +:+ "," +:+ b +:+ ")")).
  replace (a +:+ "," +:+ b +:+ ")") with ((a +:+ String "," b) +:+ ")")
    by (rewrite !string_app_assoc; reflexivity).
  rewrite init_app_one.
  rewrite (proj2 (split_two "," _ a b))
    by (split; [reflexivity | split; [apply plain_no_comma, Ha | exact Hb]]).
  rewrite Hu, Hv. reflexivity.
Qed.
End Decimal.

(** X9. The name that the linear-programming solvers give the variable
    of an edge is read back by [StrToTuple] as the edge: for all ints
    [u] and [v], the markers -1 and -2 of the depot included,
    [StrToTuple(str((u, v)))] and [StrToTuple(f"({u},{v})")] are
    [(u, v)], and [GetDistFromEdgeStr] on the name is [GetDistFromEdge]
    on the edge. *)
Theorem StrToTuple_reads_edge_names (u v : Z) :
  StrToTuple (PyStr.str_pair u v) = Ok (u, v) /\
  StrToTuple ("(" +:+ PyStr.str u +:+ "," +:+ PyStr.str v +:+ ")") = Ok (u, v) /\
  forall trips stops distances depotIdx depotVal linePenalty,
    GetDistFromEdgeStr (PyStr.str_pair u v) trips stops distances depotIdx depotVal
      linePenalty
    = GetDistFromEdge (u, v) trips stops distances depotIdx depotVal linePenalty.
Proof.
  assert (StrToTuple (PyStr.str_pair u v) = Ok (u, v)) as Hpair.
  { apply (StrToTuple_pair (PyStr.str u) (String " " (PyStr.str v))).
    - apply str_plain.
    - apply (plain_no_comma (PyStr.str v)), str_plain.
    - apply int_str.
    - apply int_space_str. }
  split; [exact Hpair|]. split.
  - apply StrToTuple_pair.
    + apply str_plain.
    + apply plain_no_comma, str_plain.
    + apply int_str.
    + apply int_str.
  - intros. unfold GetDistFromEdgeStr. rewrite Hpair. reflexivity.
Qed.

(** ** The weighted choice *)

Section Weighted_choice.
Local Open Scope Qc_scope.

Lemma Qc_lt_add_pos (base w rnd : Qc) : base <= rnd -> rnd < base + w -> 0 < w.
Proof.
  unfold Qclt, Qcle. rewrite this_plus. simpl. change (Qred 0) with 0%Q.
  intros H1 H2. lra.
Qed.

Lemma first_above_spec rnd i base wts :
  base <= rnd -> rnd < base + Qc_sum wts ->
  exists k w,
    first_above rnd i (running_totals base wts) = Some (i + Z.of_nat k)%Z /\
    wts !! k = Some w /\ 0 < w /\
    base + Qc_sum (take k wts) <= rnd /\ rnd < base + Qc_sum (take (S k) wts).
Proof.
  revert i base. induction wts as [|w wts IH]; intros i base Hle Hlt.
  - exfalso. replace (base + Qc_sum []) with base in Hlt by (unfold Qc_sum; simpl; ring).
    exact (Qcle_not_lt _ _ Hle Hlt).
  - simpl. destruct (decide (rnd < base + w)) as [Hw|Hw].
    + rewrite bool_decide_eq_true_2 by exact Hw. exists 0%nat, w.
      split; [f_equal; lia|]. split; [reflexivity|].
      split; [eapply Qc_lt_add_pos; eassumption|]. cbn [take]. rewrite take_0. split.
      * replace (base + Qc_sum []) with base by (unfold Qc_sum; simpl; ring). exact Hle.
      * replace (Qc_sum [w]) with w by (unfold Qc_sum; simpl; ring). exact Hw.
    + rewrite bool_decide_eq_false_2 by exact Hw. apply Qcnot_lt_le in Hw.
      destruct (IH (i + 1)%Z (base + w) Hw) as (k & w' & Hk & Hw' & Hpos & H1 & H2).
      { rewrite Qc_sum_cons in Hlt. rewrite <- Qcplus_assoc. exact Hlt. }
      exists (S k), w'. split; [rewrite Hk; f_equal; lia|]. split; [exact Hw'|].
      split; [exact Hpos|]. cbn [take]. rewrite !Qc_sum_cons, !Qcplus_assoc. auto.
Qed.
End Weighted_choice.

(** X10. [SelectRandomWeightedIdx], called with the weights alone,
    returns the index whose interval of the running totals holds the
    drawn number: for a draw [r] of [random.random()], which is at least
    0 and below 1, and weights of positive sum, the result is the index
    [i] of a positive weight such that the sum of the weights before [i]
    is at most [r] times the sum of all weights, which is less than the
    sum of the weights up to [i]. *)
Theorem SelectRandomWeightedIdx_interval (r : Qc) (wts : list Qc) :
  (0 <= r)%Qc -> (r < 1)%Qc -> (0 < Qc_sum wts)%Qc ->
  exists (i : nat) (w : Qc),
    SelectRandomWeightedIdx r wts None None = Some (Z.of_nat i) /\
    wts !! i = Some w /\ (0 < w)%Qc /\
    (Qc_sum (take i wts) <= r * Qc_sum wts)%Qc /\
    (r * Qc_sum wts < Qc_sum (take (S i) wts))%Qc.
Proof.
  intros Hr0 Hr1 Hsum. unfold SelectRandomWeightedIdx.
  change (foldl Qcplus 0%Qc wts) with (Qc_sum wts).
  destruct (first_above_spec (r * Qc_sum wts)%Qc 0 0%Qc wts)
    as (k & w & Hk & Hw & Hpos & H1 & H2).
  - revert Hr0 Hsum. unfold Qclt, Qcle. rewrite this_mult. simpl.
    change (Qred 0) with 0%Q. intros. nra.
  - revert Hr1 Hsum. unfold Qclt. rewrite this_plus, this_mult. simpl.
    change (Qred 0) with 0%Q. change (Qred 1) with 1%Q. intros. nra.
  - exists k, w. split; [exact Hk|]. split; [exact Hw|]. split; [exact Hpos|].
    rewrite !Qcplus_0_l in *. auto.
Qed.

(** X10, witness: the weights 1, 0, 3 and the draw 1/2, which falls in
    the interval of the last weight. *)
Lemma SelectRandomWeightedIdx_interval_witness :
  exists w,
    SelectRandomWeightedIdx (Q2Qc (1 # 2)) [1%Qc; 0%Qc; Qc_of_Z 3] None None = Some 2 /\
    [1%Qc; 0%Qc; Qc_of_Z 3] !! 2%nat = Some w /\ (0 < w)%Qc.
Proof.
  destruct (SelectRandomWeightedIdx_interval (Q2Qc (1 # 2)) [1%Qc; 0%Qc; Qc_of_Z 3])
    as (i & w & Hi & Hw & Hpos & _);
    [vm_compute; discriminate | vm_compute; reflexivity | vm_compute; reflexivity |].
  assert (i = 2%nat) as ->.
  { assert (SelectRandomWeightedIdx (Q2Qc (1 # 2)) [1%Qc; 0%Qc; Qc_of_Z 3] None None
            = Some 2) as E by (vm_compute; reflexivity).
    rewrite E in Hi. injection Hi as Hi. lia. }
  exists w. split; [exact Hi|]. split; [exact Hw | exact Hpos].
Defined.

(** ** Terminals *)

Lemma string_leb_total a b : String.leb a b = false -> String.leb b a = true.
Proof. intros H. destruct (String.leb_total a b) as [H'|H']; congruence. Qed.

Lemma string_leb_trans a b c :
  String.leb a b = true -> String.leb b c = true -> String.leb a c = true.
Proof.
  intros H1 H2. apply Is_true_true.
  apply (transitivity (R := String.le) (y := b)); apply Is_true_true; assumption.
Qed.

(** X11. [GetTerminals] lists the stops at which a trip starts or ends:
    each of them once, no other string, in the lexicographic order of
    their characters. *)
Theorem GetTerminals_lists_the_end_stops (trips : list Trip) :
  (forall s, s ∈ GetTerminals trips <->
             exists t, t ∈ trips /\ (StartStop t = s \/ EndStop t = s)) /\
  NoDup (GetTerminals trips) /\
  StronglySorted (fun a b => String.ltb a b = true) (GetTerminals trips).
Proof.
  unfold GetTerminals.
  set (l := remove_dups (map StartStop trips ++ map EndStop trips)).
  pose proof (sort_by_Permutation String.leb id l) as Hperm.
  assert (NoDup (Py.sort_by String.leb id l)) as Hnd
    by (rewrite Hperm; apply NoDup_remove_dups).
  split; [|split; [exact Hnd|]].
  - intros s. rewrite Hperm. unfold l.
    rewrite elem_of_remove_dups, elem_of_app, !list_elem_of_fmap. split.
    + intros [(t & -> & Ht)|(t & -> & Ht)]; exists t; auto.
    + intros (t & Ht & [<-|<-]); [left | right]; exists t; auto.
  - pose proof (sort_by_sorted String.leb id string_leb_total string_leb_trans l) as Hs.
    revert Hnd Hs. generalize (Py.sort_by String.leb id l). clear.
    induction 2 as [|a k Hs IH Ha]; [constructor|].
    apply NoDup_cons in Hnd as [Hnotin Hnd]. constructor; [apply IH, Hnd|].
    apply Forall_forall. intros b Hb. rewrite Forall_forall in Ha.
    specialize (Ha b Hb). unfold id in Ha.
    unfold String.ltb. unfold String.leb in Ha.
    destruct (String.compare a b) eqn:E; [|reflexivity|discriminate].
    apply String.compare_eq_iff in E. subst b. contradiction.
Qed.

(** ** Minutes from the first day *)

Lemma min_Day_from_Ok b days r :
  min_Day_from (Some b) days = Ok r ->
  exists m, r = Some m /\ m <= b /\ (m = b \/ Some m ∈ days) /\
    Forall (fun day => exists d, day = Some d /\ m <= d) days.
Proof.
  revert b. induction days as [|[d|] days IH]; intros b; simpl; [| |discriminate].
  - intros [= <-]. exists b. repeat split; [lia | auto | constructor].
  - intros (m & -> & Hle & Hin & Hall)%IH. exists m. split; [reflexivity|].
    destruct (Z.ltb_spec d b).
    + split; [lia|]. split.
      * right. apply elem_of_cons. destruct Hin as [->|Hin]; auto.
      * constructor; [exists d; split; [reflexivity | lia] | exact Hall].
    + split; [lia|]. split.
      * destruct Hin as [->|Hin]; [auto|]. right. apply elem_of_cons. auto.
      * constructor; [exists d; split; [reflexivity | lia] | exact Hall].
Qed.

Lemma min_Day_from_None best days :
  days <> [] -> best = None \/ None ∈ days -> min_Day_from best days = Raise TypeError.
Proof.
  revert best. induction days as [|day days IH]; intros best Hne H; [congruence|].
  simpl. destruct day as [d|]; [|reflexivity]. destruct best as [b|]; [|reflexivity].
  destruct H as [H|H]; [discriminate|].
  apply elem_of_cons in H as [H|H]; [discriminate|].
  apply IH; [|auto]. intros ->. apply elem_of_nil in H. exact H.
Qed.

Lemma RecalcMinutes_Ok t firstDay t' :
  RecalcMinutes t firstDay = Ok t' ->
  exists s e,
    Utilities.ParseHxM (StartTime t) = Ok s /\ Utilities.ParseHxM (EndTime t) = Ok e /\
    t' = with_minutes t
           (s + match Day t, firstDay with
                | Some d, Some f => (d - f) * 1440
                | _, _ => 0
                end)
           ((if e <? s then e + 1440 else e)
            + match Day t, firstDay with
              | Some d, Some f => (d - f) * 1440
              | _, _ => 0
              end).
Proof.
  unfold RecalcMinutes. intros (s & Hs & H)%bind_Ok. apply bind_Ok in H as (e & He & H).
  apply bind_Ok in H as (_ & _ & H). apply bind_Ok in H as (_ & _ & H).
  exists s, e. split; [exact Hs|]. split; [exact He|].
  change (24 * 60) with 1440 in H.
  destruct (Day t) as [d|], firstDay as [f|]; injection H as <-;
    f_equal; lia.
Qed.

Lemma Forall2_impl_elem {A B} (P Q : A -> B -> Prop) l k :
  Forall2 P l k -> (forall x y, x ∈ l -> P x y -> Q x y) -> Forall2 Q l k.
Proof.
  induction 1 as [|x y l k Hxy _ IH]; intros H; constructor.
  - apply H; [apply elem_of_cons; auto | exact Hxy].
  - apply IH. intros x' y' Hx'. apply H. apply elem_of_cons. auto.
Qed.

Section Recalc.
Variables (trips trips' : list Trip).
Hypothesis Hrecalc : RecalcAllTrips trips None = Ok trips'.
Hypothesis Hdays : forall t, t ∈ trips -> Day t <> None.

Lemma RecalcAllTrips_Ok :
  exists first,
    (trips <> [] -> exists t, t ∈ trips /\ Day t = Some first) /\
    Forall2 (from_first_day first) trips trips'.
Proof.
  unfold RecalcAllTrips in Hrecalc. destruct trips as [|t0 rest] eqn:Etrips.
  { injection Hrecalc as <-. exists 0. split; [congruence | constructor]. }
  rewrite <- Etrips in *. apply bind_Ok in Hrecalc as (firstDay & Hmin & Hmap).
  assert (exists first, firstDay = Some first /\
            (exists t, t ∈ trips /\ Day t = Some first) /\
            forall t d, t ∈ trips -> Day t = Some d -> first <= d)
    as (first & -> & Hfirst & Hleast).
  { rewrite Etrips in Hmin. simpl in Hmin.
    destruct (Day t0) as [d0|] eqn:Ed0;
      [|exfalso; apply (Hdays t0); [rewrite Etrips; apply elem_of_cons; auto | exact Ed0]].
    apply min_Day_from_Ok in Hmin as (m & -> & Hle & Hin & Hall).
    exists m. split; [reflexivity|]. split.
    - destruct Hin as [->|Hin].
      + exists t0. rewrite Etrips. split; [apply elem_of_cons; auto | exact Ed0].
      + apply list_elem_of_fmap in Hin as (t & Ht & Hin). exists t.
        rewrite Etrips. split; [apply elem_of_cons; auto | congruence].
    - intros t d Ht Hd. rewrite Etrips in Ht.
      apply elem_of_cons in Ht as [->|Ht]; [congruence|].
      rewrite Forall_forall in Hall.
      destruct (Hall (Day t)) as (d' & Hd' & Hm); [apply list_elem_of_fmap; eauto|].
      congruence. }
  exists first. split; [intros _; exact Hfirst|].
  apply mapM_Ok in Hmap. clear Etrips.
  eapply Forall2_impl_elem; [exact Hmap|]. intros t t' Hin Ht. simpl in Ht.
  apply RecalcMinutes_Ok in Ht as (s & e & Hs & He & ->).
  destruct (Day t) as [d|] eqn:Ed; [|exfalso; exact (Hdays t Hin Ed)].
  exists d, s, e. repeat split; try assumption; try reflexivity.
  exact (Hleast t d Hin Ed).
Qed.
End Recalc.

Lemma from_first_day_on_time_line first t t' :
  from_first_day first t t' -> on_time_line first t'.
Proof.
  intros (d & s & e & Hd & Hle & Hs%ParseHxM_range & He%ParseHxM_range & ->).
  exists d. split; [exact Hd|]. split; [exact Hle|]. simpl.
  destruct (Z.ltb_spec e s); lia.
Qed.

Lemma on_time_line_by_day first t u d e :
  on_time_line first t -> on_time_line first u ->
  Day t = Some d -> Day u = Some e -> d < e -> StartTimeMins t < StartTimeMins u.
Proof.
  intros (d' & Hd & _ & Ht & _) (e' & He & _ & Hu & _) Hd' He' Hlt.
  assert (d' = d) as -> by congruence. assert (e' = e) as -> by congruence. nia.
Qed.

(** X12. [RecalcAllTrips], called without a first day on trips that all
    have a day, counts the minutes of every trip from midnight of the
    earliest day of the trips: each trip starts within its own day on
    this time line and ends less than 24 hours later, so a trip of an
    earlier day starts before every trip of a later day. With two trips
    or more of which one has no day it raises [TypeError]. *)
Theorem RecalcAllTrips_counts_from_the_first_day :
  (forall trips trips',
     RecalcAllTrips trips None = Ok trips' ->
     (forall t, t ∈ trips -> Day t <> None) ->
     exists first,
       (trips <> [] -> exists t, t ∈ trips /\ Day t = Some first) /\
       Forall2 (from_first_day first) trips trips' /\
       Forall (on_time_line first) trips' /\
       forall t u d e,
         t ∈ trips' -> u ∈ trips' -> Day t = Some d -> Day u = Some e -> d < e ->
         StartTimeMins t < StartTimeMins u) /\
  (forall trips,
     (2 <= length trips)%nat -> None ∈ map Day trips ->
     RecalcAllTrips trips None = Raise TypeError).
Proof.
  split.
  - intros trips trips' Hrecalc Hdays.
    destruct (RecalcAllTrips_Ok trips trips' Hrecalc Hdays) as (first & Hfirst & Hall).
    assert (Forall (on_time_line first) trips') as Hline.
    { apply Forall_forall. intros t' Ht'. apply list_elem_of_lookup in Ht' as [i Hi].
      destruct (Forall2_lookup_r _ _ _ _ _ Hall Hi) as (t & _ & Ht).
      eapply from_first_day_on_time_line, Ht. }
    exists first. split; [exact Hfirst|]. split; [exact Hall|]. split; [exact Hline|].
    intros t u d e Ht Hu. rewrite Forall_forall in Hline.
    apply on_time_line_by_day with (first := first); auto.
  - intros trips Hlen Hnone. unfold RecalcAllTrips.
    destruct trips as [|t0 [|t1 rest]]; simpl in Hlen; [lia | lia |].
    assert (min_Day (map Day (t0 :: t1 :: rest)) = Raise TypeError) as ->; [|reflexivity].
    cbn [map min_Day]. apply min_Day_from_None; [discriminate|].
    cbn [map] in Hnone. apply elem_of_cons in Hnone as [H|H]; auto.
Qed.

(** X12, witness: the two trips of two days. The trip of the second day
    starts 1800 minutes after midnight of the first. *)
Lemma RecalcAllTrips_counts_from_the_first_day_witness :
  exists trips',
    RecalcAllTrips Samples.two_days None = Ok trips' /\
    map StartTimeMins trips' = [1800; 1430] /\
    map EndTimeMins trips' = [1860; 1460] /\
    Forall (on_time_line 738886) trips'.
Proof.
  eassert (RecalcAllTrips Samples.two_days None = Ok _) as H by (vm_compute; reflexivity).
  destruct (proj1 RecalcAllTrips_counts_from_the_first_day _ _ H)
    as (first & Hfirst & _ & Hline & _).
  { intros t Ht. apply elem_of_cons in Ht as [->|Ht]; [discriminate|].
    apply elem_of_cons in Ht as [->|Ht]; [discriminate|].
    apply elem_of_nil in Ht. contradiction. }
  assert (first = 738886) as ->.
  { destruct Hfirst as (t & Ht & Hd); [discriminate|].
    rewrite Forall_forall in Hline.
    destruct (Hline (with_minutes (new_Trip 1 2 "B" "A" "23:50" "0:20" None (Some 738886))
                       1430 1460)) as (d & Hd' & Hle & _).
    { apply elem_of_cons. right. apply elem_of_cons. left. reflexivity. }
    injection Hd' as <-.
    apply elem_of_cons in Ht as [->|Ht]; [injection Hd as <-; lia|].
    apply elem_of_cons in Ht as [->|Ht]; [injection Hd as <-; reflexivity|].
    apply elem_of_nil in Ht. contradiction. }
  eexists. split; [exact H|]. split; [reflexivity|]. split; [reflexivity | exact Hline].
Defined.

(** ** Reading the trips of several days *)

Lemma Trip_of_Ok t day trip :
  Trip_of t day = Ok trip -> Day trip <> None.
Proof.
  unfold Trip_of. intros (? & _ & H)%bind_Ok.
  repeat (apply bind_Ok in H as (? & _ & H)). injection H as <-. discriminate.
Qed.

(** X13. The trips that [CompactMultiDayTrips] reads from the trips of
    several days all have a day, and their minutes are counted from
    midnight of the earliest of these days: each trip starts within its
    own day on this time line and ends less than 24 hours later, and a
    trip of an earlier day starts before every trip of a later day, in
    whatever order the days are listed. *)
Theorem CompactMultiDayTrips_time_line (strptime : string -> result Z)
    (days : list json) (trips : list Trip) :
  CompactMultiDayTrips strptime days = Ok trips ->
  exists first,
    (trips <> [] -> exists t, t ∈ trips /\ Day t = Some first) /\
    Forall (on_time_line first) trips /\
    forall t u d e,
      t ∈ trips -> u ∈ trips -> Day t = Some d -> Day u = Some e -> d < e ->
      StartTimeMins t < StartTimeMins u.
Proof.
  unfold CompactMultiDayTrips. intros (res & Hres & Hrecalc)%bind_Ok.
  assert (forall t, t ∈ concat res -> Day t <> None) as Hdays.
  { intros t (l & Ht & Hl)%elem_of_concat. apply mapM_Ok in Hres.
    apply list_elem_of_lookup in Hl as [i Hi].
    destruct (Forall2_lookup_r _ _ _ _ _ Hres Hi) as (d & _ & Hd).
    apply bind_Ok in Hd as (? & _ & Hd). apply bind_Ok in Hd as (? & _ & Hd).
    apply bind_Ok in Hd as (? & _ & Hd). apply mapM_Ok in Hd.
    apply list_elem_of_lookup in Ht as [j Hj].
    destruct (Forall2_lookup_r _ _ _ _ _ Hd Hj) as (tj & _ & Htj).
    eapply Trip_of_Ok, Htj. }
  destruct (RecalcAllTrips_Ok _ _ Hrecalc Hdays) as (first & Hfirst & Hall).
  assert (Forall (on_time_line first) trips) as Hline.
  { apply Forall_forall. intros t' Ht'. apply list_elem_of_lookup in Ht' as [i Hi].
    destruct (Forall2_lookup_r _ _ _ _ _ Hall Hi) as (t & _ & Ht).
    eapply from_first_day_on_time_line, Ht. }
  exists first. split; [|split; [exact Hline|]].
  - intros Hne. destruct Hfirst as (t & Ht & Hd).
    + intros E. rewrite E in Hall. apply Forall2_nil_inv_l in Hall. congruence.
    + apply list_elem_of_lookup in Ht as [i Hi].
      destruct (Forall2_lookup_l _ _ _ _ _ Hall Hi) as (t' & Hi' & Ht').
      exists t'. split; [eapply list_elem_of_lookup_2, Hi'|].
      destruct Ht' as (d & s & e & Hd' & _ & _ & _ & ->). simpl. congruence.
  - intros t u d e Ht Hu. rewrite Forall_forall in Hline.
    apply on_time_line_by_day with (first := first); auto.
Qed.

(** X13, witness: the file that lists 2024-01-02 before 2024-01-01. *)
Lemma CompactMultiDayTrips_time_line_witness :
  exists trips,
    CompactMultiDayTrips Examples.strptime_2024 Samples.two_days_json = Ok trips /\
    map StartTimeMins trips = [1800; 1430] /\
    exists first, Forall (on_time_line first) trips.
Proof.
  eassert (CompactMultiDayTrips Examples.strptime_2024 Samples.two_days_json = Ok _) as H
    by (vm_compute; reflexivity).
  destruct (CompactMultiDayTrips_time_line _ _ _ H) as (first & _ & Hline & _).
  eexists. split; [exact H|]. split; [reflexivity|]. exists first. exact Hline.
Defined.

(** ** The cache of deadhead costs *)

Lemma get_elem_of_NoDup {K V} `{EqDecision K} (d : list (K * V)) k v :
  NoDup (map fst d) -> (k, v) ∈ d -> PyDict.get d k = Some v.
Proof.
  induction d as [|[k' v'] d IH]; simpl; [intros _ H%elem_of_nil; tauto|].
  intros [Hk' Hd]%NoDup_cons [[= -> ->]|Hin]%elem_of_cons.
  - destruct (decide (k' = k')); congruence.
  - destruct (decide (k' = k)) as [->|_]; [|apply IH; assumption].
    exfalso. apply Hk'. apply list_elem_of_fmap. exists (k, v). auto.
Qed.

(** A dictionary built from computed values holds, for each key listed,
    the value computed for it. *)
Lemma get_update_computed {K V} `{EqDecision K} (g : K -> result V)
    (keys : list K) (items d : list (K * V)) k :
  Forall2 (fun e item => (w ← g e; Ok (e, w)) = Ok item) keys items ->
  PyDict.get (PyDict.update d items) k =
  if decide (k ∈ keys) then match g k with Ok w => Some w | _ => None end
  else PyDict.get d k.
Proof.
  unfold PyDict.update. intros H. revert d.
  induction H as [|e item keys items He _ IH]; intros d; simpl.
  - destruct (decide (k ∈ [])) as [Hin|_]; [apply elem_of_nil in Hin; tauto | reflexivity].
  - apply bind_Ok in He as (w & Hw & [= <-]). simpl. rewrite IH.
    destruct (decide (k ∈ keys)) as [Hin|Hnin].
    + rewrite decide_True by (apply elem_of_cons; auto). reflexivity.
    + destruct (decide (k = e)) as [->|Hne].
      * rewrite decide_True by (apply elem_of_cons; auto).
        rewrite get_set_eq, Hw. reflexivity.
      * rewrite decide_False by (rewrite elem_of_cons; tauto).
        apply get_set_ne. exact Hne.
Qed.

Lemma index_map_position (stops : list string) s i :
  NoDup stops ->
  PyDict.get (PyDict.of_items (map (fun '(i, stop) => (stop, i)) (Py.enumerate stops))) s
    = Some i <->
  0 <= i /\ stops !! Z.to_nat i = Some s.
Proof.
  intros Hnd.
  set (items := map (fun '(i, stop) => (stop, i)) (Py.enumerate stops)).
  assert (map fst items = stops) as Hkeys.
  { unfold items. rewrite map_map. rewrite <- (enumerate_snd stops) at 2.
    apply map_ext. intros [? ?]. reflexivity. }
  rewrite of_items_NoDup by (rewrite Hkeys; exact Hnd).
  assert ((s, i) ∈ items <-> 0 <= i /\ stops !! Z.to_nat i = Some s) as <-.
  { unfold items. rewrite list_elem_of_fmap. split.
    - intros ([i' s'] & [= -> ->] & H). apply elem_of_enumerate, H.
    - intros H. exists (i, s). split; [reflexivity | apply elem_of_enumerate, H]. }
  split; [apply get_Some_elem_of|].
  apply get_elem_of_NoDup. rewrite Hkeys. exact Hnd.
Qed.

(** X14. The dictionary of [CreateDeadheadMap] is a cache of
    [GetDistFromEdge]: for every edge of the list it holds the cost that
    [GetDistFromEdge] computes for the edge with the map that sends each
    stop to its position in the list of stops, and looking up any other
    edge raises [KeyError]. If one cost cannot be computed, no dictionary
    is returned. *)
Theorem CreateDeadheadMap_caches_the_costs
    (edges : list (Z * Z)) (trips : list Trip) (stops : list string)
    (distances : list (list Z)) (depotIdx : option Z) (depotVal linePenalty : Z) :
  let indexMap :=
    PyDict.of_items (map (fun '(i, stop) => (stop, i)) (Py.enumerate stops)) in
  (NoDup stops ->
   forall s i, PyDict.get indexMap s = Some i <-> 0 <= i /\ stops !! Z.to_nat i = Some s) /\
  (forall edgesWeights,
     CreateDeadheadMap edges trips stops distances depotIdx depotVal linePenalty
       = Ok edgesWeights ->
     (forall e, e ∈ edges ->
        GetDistFromEdgeCached e edgesWeights
        = GetDistFromEdge e trips indexMap distances depotIdx depotVal linePenalty /\
        Py.is_Ok (GetDistFromEdgeCached e edgesWeights)) /\
     (forall e, e ∉ edges -> GetDistFromEdgeCached e edgesWeights = Raise KeyError)) /\
  (forall e,
     e ∈ edges ->
     ~ Py.is_Ok (GetDistFromEdge e trips indexMap distances depotIdx depotVal linePenalty) ->
     ~ Py.is_Ok (CreateDeadheadMap edges trips stops distances depotIdx depotVal linePenalty)).
Proof.
  intros indexMap. split; [|split].
  - intros Hnd s i. apply index_map_position, Hnd.
  - intros ew. unfold CreateDeadheadMap. fold indexMap.
    intros (items & Hitems & [= <-])%bind_Ok. apply mapM_Ok in Hitems.
    pose proof (fun k => get_update_computed
      (fun e => GetDistFromEdge e trips indexMap distances depotIdx depotVal linePenalty)
      edges items [] k Hitems) as Hget.
    unfold GetDistFromEdgeCached, PyDict.getitem, PyDict.of_items. split.
    + intros e He. rewrite Hget, decide_True by exact He.
      apply list_elem_of_lookup in He as [i Hi].
      destruct (Forall2_lookup_l _ _ _ _ _ Hitems Hi) as (item & _ & Hitem).
      apply bind_Ok in Hitem as (w & Hw & _). rewrite Hw. split; [reflexivity | eexists; reflexivity].
    + intros e He. rewrite Hget, decide_False by exact He. reflexivity.
  - intros e He Hfail [ew Hew]. unfold CreateDeadheadMap in Hew. fold indexMap in Hew.
    apply bind_Ok in Hew as (items & Hitems & _). apply mapM_Ok in Hitems.
    apply list_elem_of_lookup in He as [i Hi].
    destruct (Forall2_lookup_l _ _ _ _ _ Hitems Hi) as (item & _ & Hitem).
    apply bind_Ok in Hitem as (w & Hw & _). apply Hfail. exists w. exact Hw.
Qed.

(** X14, witness: two edges of the trips of the two lines. *)
Lemma CreateDeadheadMap_caches_the_costs_witness :
  exists edgesWeights,
    CreateDeadheadMap [(0, 1); (0, 3)] Samples.four_trips ["A"; "B"; "C"; "D"]
      Samples.four_dists None 0 0 = Ok edgesWeights /\
    GetDistFromEdgeCached (0, 3) edgesWeights
    = GetDistFromEdge (0, 3) Samples.four_trips Samples.four_stops Samples.four_dists
        None 0 0 /\
    as_Q (GetDistFromEdgeCached (0, 3) edgesWeights) = Ok (1003 # 100)%Q /\
    GetDistFromEdgeCached (1, 0) edgesWeights = Raise KeyError.
Proof.
  eassert (CreateDeadheadMap [(0, 1); (0, 3)] Samples.four_trips ["A"; "B"; "C"; "D"]
             Samples.four_dists None 0 0 = Ok _) as H by (vm_compute; reflexivity).
  destruct (CreateDeadheadMap_caches_the_costs [(0, 1); (0, 3)] Samples.four_trips
              ["A"; "B"; "C"; "D"] Samples.four_dists None 0 0) as (_ & Hcache & _).
  destruct (Hcache _ H) as [Hin Hout].
  eexists. split; [exact H|]. split; [|split].
  - apply Hin. apply elem_of_cons. right. apply elem_of_cons. left. reflexivity.
  - reflexivity.
  - apply Hout. apply (bool_decide_unpack (_ ∉ _)). vm_compute. exact I.
Defined.

(** ** Costs of the edges of the feasibility graph *)



Section Feasible_costs.
Variable trips : list Trip.
Variable stopsMap : list (string * Z).
Variable distances : list (list Z).
Hypothesis no_negative_distance : Forall (Forall (fun x => 0 <= x)) distances.

End Feasible_costs.



(** ** A stop that is missing from the map *)

Lemma filterM_all_Ok {A} (c : A -> result bool) l ys x :
  Py.filterM c l = Ok ys -> x ∈ l -> Py.is_Ok (c x).
Proof.
  revert ys. induction l as [|y l IH]; intros ys; simpl.
  - intros _ H%elem_of_nil. tauto.
  - intros (b & Hb & H)%bind_Ok. apply bind_Ok in H as (ys' & Hys & _).
    intros [->|Hx]%elem_of_cons; [exists b; exact Hb | eapply IH; eassumption].
Qed.

Lemma filterM_lookup_failure {A} (c : A -> result bool) l :
  (forall x, Py.is_Ok (c x) \/ c x = Raise KeyError \/ c x = Raise IndexError) ->
  Py.is_Ok (Py.filterM c l) \/
  Py.filterM c l = Raise KeyError \/ Py.filterM c l = Raise IndexError.
Proof.
  intros Hc. induction l as [|x l IH]; simpl; [left; eexists; reflexivity|].
  destruct (Hc x) as [[b ->]|[-> | ->]]; simpl; [|auto..].
  destruct IH as [[ys ->]|[-> | ->]]; simpl; [left; eexists; reflexivity | auto..].
Qed.

Lemma getitem_lookup_failure {A} (l : list A) i :
  Py.is_Ok (Py.getitem l i) \/ Py.getitem l i = Raise IndexError.
Proof.
  unfold Py.getitem. destruct (_ || _); [auto|].
  destruct (l !! _); [left; eexists; reflexivity | auto].
Qed.

Lemma can_follow_lookup_failure stopsMap distances w t1 t2 :
  Py.is_Ok (can_follow stopsMap distances w t1 t2) \/
  can_follow stopsMap distances w t1 t2 = Raise KeyError \/
  can_follow stopsMap distances w t1 t2 = Raise IndexError.
Proof.
  unfold can_follow, PyDict.getitem, Py.getitem2.
  destruct (PyDict.get stopsMap (EndStop t1)) as [a|]; simpl; [|auto].
  destruct (PyDict.get stopsMap (StartStop t2)) as [b|]; simpl; [|auto].
  destruct (getitem_lookup_failure distances a) as [[row ->]| ->]; simpl; [|auto].
  destruct (getitem_lookup_failure row b) as [[d ->]| ->]; simpl; [|auto].
  left. eexists. reflexivity.
Qed.

Lemma CreateFeasibilityGraph_lookup_failure trips stopsMap distances w :
  Py.is_Ok (CreateFeasibilityGraph trips stopsMap distances w) \/
  CreateFeasibilityGraph trips stopsMap distances w = Raise KeyError \/
  CreateFeasibilityGraph trips stopsMap distances w = Raise IndexError.
Proof.
  unfold CreateFeasibilityGraph.
  destruct (filterM_lookup_failure
    (fun '((i, t1), (j, t2)) => can_follow stopsMap distances w t1 t2)
    (it1 ← Py.enumerate trips; it2 ← Py.enumerate trips; [(it1, it2)]))
    as [[pairs ->]|[-> | ->]]; simpl; [|left; eexists; reflexivity|auto..].
  intros [[i t1] [j t2]]. apply can_follow_lookup_failure.
Qed.

Lemma CreateFeasibilityGraph_needs_stops trips stopsMap distances w t :
  t ∈ trips ->
  PyDict.get stopsMap (StartStop t) = None \/ PyDict.get stopsMap (EndStop t) = None ->
  ~ Py.is_Ok (CreateFeasibilityGraph trips stopsMap distances w).
Proof.
  intros Ht Hmiss [edges H]. unfold CreateFeasibilityGraph in H.
  apply bind_Ok in H as (pairs & Hp & _). apply list_elem_of_lookup in Ht as [i Hi].
  assert ((Z.of_nat i, t) ∈ Py.enumerate trips) as Hit
    by (apply elem_of_enumerate; rewrite Nat2Z.id; split; [lia | exact Hi]).
  destruct (filterM_all_Ok _ _ _ ((Z.of_nat i, t), (Z.of_nat i, t)) Hp) as [b Hb].
  - apply list_elem_of_bind. exists (Z.of_nat i, t). split; [|exact Hit].
    apply list_elem_of_bind. exists (Z.of_nat i, t). split; [|exact Hit].
    apply list_elem_of_singleton. reflexivity.
  - simpl in Hb. unfold can_follow, PyDict.getitem in Hb.
    destruct Hmiss as [Hm|Hm].
    + destruct (PyDict.get stopsMap (EndStop t)); [|discriminate]. simpl in Hb.
      rewrite Hm in Hb. discriminate.
    + rewrite Hm in Hb. discriminate.
Qed.

(** X16. A trip whose first or last stop is not a key of the map of
    stops is fatal to the feasibility graph: [CreateFeasibilityGraph]
    raises, a [KeyError] or an [IndexError], and so does the estimate
    [EstimateTripsNoDepot]; no partial result is returned. When it is the
    last stop of the first trip that is missing, the error is a
    [KeyError]. *)
Theorem CreateFeasibilityGraph_missing_stop
    (trips : list Trip) (stopsMap : list (string * Z)) (distances : list (list Z))
    (maxWaitHours : Z) (t : Trip) :
  t ∈ trips ->
  PyDict.get stopsMap (StartStop t) = None \/ PyDict.get stopsMap (EndStop t) = None ->
  (CreateFeasibilityGraph trips stopsMap distances maxWaitHours = Raise KeyError \/
   CreateFeasibilityGraph trips stopsMap distances maxWaitHours = Raise IndexError) /\
  (EstimateTripsNoDepot trips distances stopsMap = Raise KeyError \/
   EstimateTripsNoDepot trips distances stopsMap = Raise IndexError) /\
  (head trips = Some t -> PyDict.get stopsMap (EndStop t) = None ->
   CreateFeasibilityGraph trips stopsMap distances maxWaitHours = Raise KeyError).
Proof.
  intros Ht Hmiss. split; [|split].
  - destruct (CreateFeasibilityGraph_lookup_failure trips stopsMap distances maxWaitHours)
      as [H|H]; [|exact H].
    exfalso. eapply CreateFeasibilityGraph_needs_stops; eassumption.
  - unfold EstimateTripsNoDepot.
    destruct (CreateFeasibilityGraph_lookup_failure trips stopsMap distances 24)
      as [H|[-> | ->]]; [|auto..].
    exfalso. eapply CreateFeasibilityGraph_needs_stops; eassumption.
  - intros Hhead Hend. destruct trips as [|t0 rest]; [discriminate|].
    injection Hhead as ->.
    assert (can_follow stopsMap distances maxWaitHours t t = Raise KeyError) as Hc
      by (unfold can_follow, PyDict.getitem; rewrite Hend; reflexivity).
    unfold CreateFeasibilityGraph. cbn -[can_follow]. rewrite Hc. reflexivity.
Qed.

(** X16, witness: the three trips of the scenario with a map of stops
    that lacks stop C. *)
Lemma CreateFeasibilityGraph_missing_stop_witness :
  CreateFeasibilityGraph Examples.scenario_trips [("A", 0); ("B", 1)]
    Examples.scenario_dists 24 = Raise KeyError /\
  (EstimateTripsNoDepot Examples.scenario_trips Examples.scenario_dists [("A", 0); ("B", 1)]
     = Raise KeyError \/
   EstimateTripsNoDepot Examples.scenario_trips Examples.scenario_dists [("A", 0); ("B", 1)]
     = Raise IndexError).
Proof.
  destruct (CreateFeasibilityGraph_missing_stop Examples.scenario_trips
              [("A", 0); ("B", 1)] Examples.scenario_dists 24 Examples.T2)
    as (_ & Hest & _).
  - apply elem_of_cons. right. apply elem_of_cons. left. reflexivity.
  - right. reflexivity.
  - split; [vm_compute; reflexivity | exact Hest].
Defined.

(** ** What [RecalcMinutes] raises *)

(** X17. [RecalcMinutes] fails only as [ParseHxM] fails: it returns when
    both times of the trip parse, and otherwise it raises the
    [ValueError] of [ParseHxM] for the departure time or, when that one
    parses, for the arrival time. Its two assertions never fail. *)
Theorem RecalcMinutes_raises_as_ParseHxM (t : Trip) (firstDay : option Z) :
  (Py.is_Ok (RecalcMinutes t firstDay) <->
   Py.is_Ok (Utilities.ParseHxM (StartTime t)) /\
   Py.is_Ok (Utilities.ParseHxM (EndTime t))) /\
  (forall e, RecalcMinutes t firstDay = Raise e ->
     (exists msg, e = ValueError msg) /\
     (Utilities.ParseHxM (StartTime t) = Raise e \/
      Py.is_Ok (Utilities.ParseHxM (StartTime t)) /\
      Utilities.ParseHxM (EndTime t) = Raise e)) /\
  RecalcMinutes t firstDay <> Raise AssertionError /\
  RecalcMinutes t firstDay <> Hang.
Proof.
  unfold RecalcMinutes.
  destruct (ParseHxM_Ok_or_ValueError (StartTime t)) as [[s Hs]|[msg Hs]]; rewrite Hs; simpl.
  2: { split; [|split; [|split]]; try discriminate.
       - split; [intros [? ?]; discriminate | intros [[? ?] _]; discriminate].
       - intros e [= <-]. split; [eauto | auto]. }
  destruct (ParseHxM_Ok_or_ValueError (EndTime t)) as [[e He]|[msg He]]; rewrite He; simpl.
  2: { split; [|split; [|split]]; try discriminate.
       - split; [intros [? ?]; discriminate | intros [_ [? ?]]; discriminate].
       - intros e [= <-]. split; [eauto|]. right. split; [eexists; reflexivity | reflexivity]. }
  apply ParseHxM_range in Hs. apply ParseHxM_range in He.
  rewrite (proj2 (Z.leb_le 0 s)) by lia. rewrite (proj2 (Z.leb_le 0 e)) by lia. simpl.
  assert (exists t', match Day t, firstDay with
                     | Some day, Some first =>
                         Ok (with_minutes t (s + (day - first) * 24 * 60)
                               ((if e <? s then e + 24 * 60 else e) + (day - first) * 24 * 60))
                     | _, _ => Ok (with_minutes t s (if e <? s then e + 24 * 60 else e))
                     end = Ok t') as [t' ->]
    by (destruct (Day t), firstDay; eexists; reflexivity).
  split; [|split; [|split]]; try discriminate.
  split; [intros _; split; eexists; reflexivity | intros _; eexists; reflexivity].
Qed.

(** X17, witness: a trip whose departure time names the hour 25. *)
Lemma RecalcMinutes_raises_as_ParseHxM_witness :
  RecalcMinutes (new_Trip 1 1 "A" "B" "25:00" "7:00" None None) None
    = Raise (ValueError "More than 23 hours") /\
  exists msg, ValueError "More than 23 hours" = ValueError msg.
Proof.
  assert (RecalcMinutes (new_Trip 1 1 "A" "B" "25:00" "7:00" None None) None
          = Raise (ValueError "More than 23 hours")) as H by (vm_compute; reflexivity).
  split; [exact H|].
  destruct (RecalcMinutes_raises_as_ParseHxM
              (new_Trip 1 1 "A" "B" "25:00" "7:00" None None) None) as (_ & Hraise & _).
  exact (proj1 (Hraise _ H)).
Defined.

(** ** Duties along the edges, for any edges *)

Lemma chained_snoc edges cur v w :
  chained edges cur -> last cur = Some v -> (v, w) ∈ edges -> chained edges (cur ++ [w]).
Proof.
  intros Hc Hlast Hvw i a b Ha Hb.
  destruct (decide (S i < length cur)%nat) as [Hlt|Hge].
  - rewrite lookup_app_l in Ha, Hb by lia. eapply Hc; eassumption.
  - assert (S i = length cur) as Hi.
    { apply lookup_lt_Some in Hb. rewrite length_app in Hb. simpl in Hb. lia. }
    rewrite lookup_app_l in Ha by lia.
    rewrite lookup_app_r, Hi, Nat.sub_diag in Hb by lia. injection Hb as <-.
    rewrite last_lookup in Hlast. replace (pred (length cur)) with i in Hlast by lia.
    assert (a = v) as -> by congruence. exact Hvw.
Qed.

Section Chainer_any_edges.
Variable n : Z.
Variable be : list (Z * Z).
Variable Q : Z -> Prop.

Lemma follow_chained fuel v used cur used' cur' :
  follow fuel be n v used cur = Ok (used', cur') ->
  last cur = Some v -> chained be cur ->
  (forall x, x ∈ used -> x < n -> Q x \/ x ∈ cur) ->
  chained be cur' /\ (forall x, x ∈ used' -> x < n -> Q x \/ x ∈ cur').
Proof.
  revert v used cur. induction fuel as [|fuel IH]; intros v used cur; [discriminate|].
  cbn [follow]. destruct (PyDict.get be v) as [w|] eqn:Ew; [|intros [= <- <-]; auto].
  destruct (w =? 0); [intros [= <- <-]; auto|].
  destruct (Z.leb_spec n w) as [Hn|Hn].
  - intros [= <- <-] _ Hc Hused. split; [exact Hc|].
    intros x [Hx|Hx%elem_of_singleton]%elem_of_union Hlt; [auto | lia].
  - intros H Hlast Hc Hused. apply (IH _ _ _ H).
    + apply last_snoc.
    + eapply chained_snoc; [exact Hc | exact Hlast | apply get_Some_elem_of, Ew].
    + intros x [Hx|Hx%elem_of_singleton]%elem_of_union Hlt.
      * destruct (Hused x Hx Hlt) as [?|?]; [auto|]. right. apply elem_of_app. auto.
      * right. apply elem_of_app. right. apply list_elem_of_singleton. exact Hx.
Qed.
End Chainer_any_edges.

Lemma chain_step_chained n be fuel used chains u v used' chains' :
  (u, v) ∈ be ->
  chain_step fuel be n (used, chains) (u, v) = Ok (used', chains') ->
  (forall x, x ∈ used -> x < n -> x ∈ concat chains) /\ Forall (chained be) chains ->
  (forall x, x ∈ used' -> x < n -> x ∈ concat chains') /\ Forall (chained be) chains'.
Proof.
  intros Huv. unfold chain_step. destruct (_ || _); [intros [= <- <-]; auto|].
  intros ([used1 cur] & Hf & [= <- <-])%bind_Ok [Hused Hchains].
  destruct (follow_chained n be (fun x => x ∈ concat chains) _ _ _ _ _ _ Hf)
    as [Hc Hu1].
  - reflexivity.
  - intros [|[|i]] a b; simpl; try discriminate. intros [= <-] [= <-]. exact Huv.
  - intros x Hx Hlt. apply elem_of_union in Hx as [Hx|Hx%elem_of_singleton].
    + apply elem_of_union in Hx as [Hx|Hx%elem_of_singleton]; [left; auto|].
      right. apply elem_of_cons. auto.
    + right. apply elem_of_cons. right. apply elem_of_cons. auto.
  - split.
    + intros x Hx Hlt. rewrite concat_app. simpl. rewrite app_nil_r.
      apply elem_of_app. destruct (Hu1 x Hx Hlt); auto.
    + apply Forall_app. split; [exact Hchains | constructor; [exact Hc | constructor]].
Qed.

Lemma chained_subseteq edges edges' bus :
  (forall e, e ∈ edges -> e ∈ edges') -> chained edges bus -> chained edges' bus.
Proof. intros H Hc i a b Ha Hb. apply H. eapply Hc; eassumption. Qed.

(** X18. For any list of edges on which [ConvertEdgesToBuses] returns,
    every trip index below the trip count is in one duty at least, and
    two trips that follow one another in a duty are joined by an edge of
    the list. *)
Theorem ConvertEdgesToBuses_covers_along_edges
    (tripsCount : Z) (edges : list (Z * Z)) (buses : list (list Z)) :
  ConvertEdgesToBuses tripsCount edges = Ok buses ->
  (forall i, 0 <= i < tripsCount -> exists bus, bus ∈ buses /\ i ∈ bus) /\
  Forall (chained edges) buses.
Proof.
  unfold ConvertEdgesToBuses.
  set (be := PyDict.of_items (Py.sort_by Py.pair_leb id edges)).
  assert (forall e, e ∈ be -> e ∈ edges) as Hbe.
  { intros e He. apply elem_of_of_items in He. rewrite sort_by_Permutation in He. exact He. }
  intros ([used chains] & Hloop & Hsort)%bind_Ok.
  assert ((forall x, x ∈ used -> x < tripsCount -> x ∈ concat chains) /\
          Forall (chained be) chains) as [Hused Hchains].
  { revert Hloop.
    apply (foldM_invariant
             (fun st : gset Z * list (list Z) =>
                (forall x, x ∈ st.1 -> x < tripsCount -> x ∈ concat st.2) /\
                Forall (chained be) st.2)).
    - intros [used0 chains0] [u v] [used1 chains1] Huv Hinv Hstep.
      eapply chain_step_chained; eassumption.
    - split; [intros x Hx%elem_of_empty; tauto | constructor]. }
  apply sort_buses_Ok in Hsort as [_ Hperm]. split.
  - intros i Hi. destruct (decide (i ∈ used)) as [Hin|Hnin].
    + destruct (elem_of_concat _ _ (Hused i Hin (proj2 Hi))) as (bus & Hib & Hbus).
      exists bus. split; [|exact Hib]. rewrite Hperm. apply elem_of_app. auto.
    + exists [i]. split; [|apply list_elem_of_singleton; reflexivity].
      rewrite Hperm. apply elem_of_app. right. apply list_elem_of_fmap.
      exists i. split; [reflexivity|]. apply list_elem_of_filter.
      split; [exact Hnin | apply elem_of_range, Hi].
  - rewrite Hperm. apply Forall_app. split.
    + eapply Forall_impl; [exact Hchains|]. intros bus. apply chained_subseteq, Hbe.
    + apply Forall_fmap, Forall_forall. intros i _ [|k] a b; simpl; discriminate.
Qed.

(** X18, witness: the matching on which a part of a chain is given
    twice. Every trip is in a duty and the duties run along the edges. *)
Lemma ConvertEdgesToBuses_covers_along_edges_witness :
  ConvertEdgesToBuses 5 Examples.backward_edges = Ok [[3; 4; 1; 2]; [1; 2]; [0]] /\
  (forall i, 0 <= i < 5 -> exists bus, bus ∈ [[3; 4; 1; 2]; [1; 2]; [0]] /\ i ∈ bus) /\
  Forall (chained Examples.backward_edges) [[3; 4; 1; 2]; [1; 2]; [0]].
Proof.
  assert (ConvertEdgesToBuses 5 Examples.backward_edges = Ok [[3; 4; 1; 2]; [1; 2]; [0]])
    as H by (vm_compute; reflexivity).
  split; [exact H|]. exact (ConvertEdgesToBuses_covers_along_edges _ _ _ H).
Defined.

(** ** The order of the feasible pairs *)

Lemma filterM_sublist {A} (c : A -> result bool) l ys :
  Py.filterM c l = Ok ys -> ys `sublist_of` l.
Proof.
  revert ys. induction l as [|x l IH]; intros ys; simpl.
  - intros [= <-]. constructor.
  - intros (b & _ & (zs & Hzs & [= <-])%bind_Ok)%bind_Ok.
    destruct b; [apply sublist_skip | apply sublist_cons]; apply IH, Hzs.
Qed.

Lemma StronglySorted_sublist {A} (R : relation A) (k l : list A) :
  k `sublist_of` l -> StronglySorted R l -> StronglySorted R k.
Proof.
  induction 1 as [|x k l Hsub IH|x k l Hsub IH]; intros Hs.
  - constructor.
  - apply StronglySorted_inv in Hs as [Hs Hx]. constructor; [apply IH, Hs|].
    rewrite Forall_forall in Hx |- *. intros y Hy. apply Hx.
    eapply elem_of_sublist; eassumption.
  - apply StronglySorted_inv in Hs as [Hs _]. apply IH, Hs.
Qed.

Lemma StronglySorted_lookup {A} (R : relation A) (l : list A) :
  (forall i j x y, (i < j)%nat -> l !! i = Some x -> l !! j = Some y -> R x y) ->
  StronglySorted R l.
Proof.
  induction l as [|a l IH]; intros H; constructor.
  - apply IH. intros i j x y Hij Hx Hy. apply (H (S i) (S j)); [lia | exact Hx | exact Hy].
  - apply Forall_forall. intros y [j Hy]%list_elem_of_lookup.
    apply (H 0%nat (S j)); [lia | reflexivity | exact Hy].
Qed.

Lemma enumerate_sorted {A} (l : list A) :
  StronglySorted (fun a b : Z * A => a.1 < b.1) (Py.enumerate l).
Proof.
  apply StronglySorted_lookup. intros i j x y Hij Hx Hy. unfold Py.enumerate in *.
  rewrite list_lookup_imap in Hx, Hy.
  destruct (l !! i); [|discriminate]. destruct (l !! j); [|discriminate].
  injection Hx as <-. injection Hy as <-. simpl. lia.
Qed.

Lemma product_sorted {A} (l1 l2 : list (Z * A)) :
  StronglySorted (fun a b : Z * A => a.1 < b.1) l1 ->
  StronglySorted (fun a b : Z * A => a.1 < b.1) l2 ->
  StronglySorted (fun p q : (Z * A) * (Z * A) => pair_lt (p.1.1, p.2.1) (q.1.1, q.2.1))
    (it1 ← l1; it2 ← l2; [(it1, it2)]).
Proof.
  intros H1 H2. induction H1 as [|a l1 H1 IH Ha]; [constructor|].
  rewrite bind_cons. apply StronglySorted_app_2; [| |exact IH].
  - intros p q (b & Hp & _)%list_elem_of_bind (a' & Hq & Ha')%list_elem_of_bind.
    apply list_elem_of_singleton in Hp as ->.
    apply list_elem_of_bind in Hq as (c & Hq & _).
    apply list_elem_of_singleton in Hq as ->. rewrite Forall_forall in Ha.
    left. simpl. apply Ha, Ha'.
  - clear -H2. induction H2 as [|b l2 H2 IH Hb]; [constructor|].
    rewrite bind_cons. simpl. constructor; [exact IH|].
    apply Forall_forall. intros p (c & Hp & Hc)%list_elem_of_bind.
    apply list_elem_of_singleton in Hp as ->. rewrite Forall_forall in Hb.
    right. simpl. split; [reflexivity | apply Hb, Hc].
Qed.

Lemma product_length {A} (l1 l2 : list A) :
  length (x ← l1; y ← l2; [(x, y)]) = (length l1 * length l2)%nat.
Proof.
  induction l1 as [|a l1 IH]; [reflexivity|].
  rewrite bind_cons, length_app, IH. simpl. f_equal.
  clear. induction l2 as [|b l2 IH]; [reflexivity|].
  rewrite bind_cons, length_app, IH. reflexivity.
Qed.

(** X19. The pairs that [CreateFeasibilityGraph] returns are in the
    strictly increasing order of Python's tuples, first by the first
    trip index and then by the second, so that no pair is listed twice,
    and there are at most as many of them as the square of the number of
    trips. *)
Theorem CreateFeasibilityGraph_in_order (trips : list Trip) (stopsMap : list (string * Z))
    (distances : list (list Z)) (maxWaitHours : Z) (edges : list (Z * Z)) :
  CreateFeasibilityGraph trips stopsMap distances maxWaitHours = Ok edges ->
  StronglySorted pair_lt edges /\ NoDup edges /\
  (length edges <= length trips * length trips)%nat.
Proof.
  unfold CreateFeasibilityGraph. intros (pairs & Hp & [= <-])%bind_Ok.
  apply filterM_sublist in Hp.
  assert (StronglySorted pair_lt
            (map (fun '((i, _), (j, _)) => (i, j) : Z * Z) pairs)) as Hs.
  { apply (StronglySorted_fmap _
             (fun p q : (Z * Trip) * (Z * Trip) => pair_lt (p.1.1, p.2.1) (q.1.1, q.2.1))).
    - intros [[i t1] [j t2]] [[i' t1'] [j' t2']] H. exact H.
    - eapply StronglySorted_sublist; [exact Hp|].
      apply product_sorted; apply enumerate_sorted. }
  split; [exact Hs|]. split.
  - clear -Hs. induction Hs as [|p l Hs IH Hp]; constructor; [|exact IH].
    intros Hin. rewrite Forall_forall in Hp. specialize (Hp p Hin).
    destruct Hp as [Hp|[_ Hp]]; lia.
  - rewrite length_map. etransitivity; [apply sublist_length, Hp|].
    rewrite product_length. unfold Py.enumerate. rewrite length_imap. reflexivity.
Qed.

(** X19, witness: the pairs of the three trips that follow one another. *)
Lemma CreateFeasibilityGraph_in_order_witness :
  exists edges,
    CreateFeasibilityGraph Examples.scenario_trips Examples.scenario_stops
      Examples.scenario_dists 24 = Ok edges /\
    StronglySorted pair_lt edges /\ NoDup edges /\ (length edges <= 3 * 3)%nat.
Proof.
  eassert (CreateFeasibilityGraph Examples.scenario_trips Examples.scenario_stops
             Examples.scenario_dists 24 = Ok _) as H by (vm_compute; reflexivity).
  eexists. split; [exact H|].
  exact (CreateFeasibilityGraph_in_order _ _ _ _ _ H).
Defined.

(** ** Reading the trips of one day *)

Lemma Trip_of_fresh t day trip :
  Trip_of t (Ok day) = Ok trip ->
  Day trip = Some day /\ StartTimeMins trip = -1 /\ EndTimeMins trip = -1.
Proof.
  unfold Trip_of. intros (? & _ & H)%bind_Ok.
  repeat (apply bind_Ok in H as (? & ? & H)). injection H as <-.
  simpl. match goal with E : Ok day = Ok _ |- _ => injection E as <- end. auto.
Qed.

(** X20. [CompactOneDayTrips] gives every trip the day it is called
    with and, unlike [CompactMultiDayTrips], leaves the minutes of the
    trips at the -1 of a new trip: it returns as many trips as it reads
    and does not call [RecalcAllTrips]. Once [RecalcAllTrips] is called
    on its result, every trip starts within the minutes 0 to 1439 of
    that day and ends less than 24 hours later. *)
Theorem CompactOneDayTrips_leaves_the_minutes (trips : list json) (day : Z)
    (res : list Trip) :
  CompactOneDayTrips trips day = Ok res ->
  length res = length trips /\
  Forall (fun t => Day t = Some day /\ StartTimeMins t = -1 /\ EndTimeMins t = -1) res /\
  forall res',
    RecalcAllTrips res None = Ok res' ->
    Forall (fun t => Day t = Some day /\ 0 <= StartTimeMins t < 1440 /\
                     StartTimeMins t <= EndTimeMins t < StartTimeMins t + 1440) res'.
Proof.
  unfold CompactOneDayTrips. intros H%mapM_Ok.
  assert (Forall (fun t => Day t = Some day /\ StartTimeMins t = -1 /\ EndTimeMins t = -1)
            res) as Hfresh.
  { apply Forall_forall. intros t [i Hi]%list_elem_of_lookup.
    destruct (Forall2_lookup_r _ _ _ _ _ H Hi) as (j & _ & Hj).
    eapply Trip_of_fresh, Hj. }
  split; [symmetry; eapply Forall2_length, H|]. split; [exact Hfresh|].
  intros res' Hrecalc. rewrite Forall_forall in Hfresh.
  destruct (RecalcAllTrips_Ok res res' Hrecalc) as (first & Hfirst & Hall).
  { intros t Ht. destruct (Hfresh t Ht) as [-> _]. discriminate. }
  apply Forall_forall. intros t' [i Hi]%list_elem_of_lookup.
  destruct (Forall2_lookup_r _ _ _ _ _ Hall Hi) as (t & Ht & Hfrom).
  assert (t ∈ res) as Hin by (eapply list_elem_of_lookup_2, Ht).
  assert (first = day) as ->.
  { destruct Hfirst as (t0 & Ht0 & Hd0); [intros ->; apply elem_of_nil in Hin; exact Hin|].
    destruct (Hfresh t0 Ht0) as [Hd _]. congruence. }
  destruct (from_first_day_on_time_line _ _ _ Hfrom) as (d & Hd & _ & Hstart & Hend).
  destruct Hfrom as (d' & s & e & Hd' & _ & _ & _ & ->). simpl in *.
  destruct (Hfresh t Hin) as [Hday _].
  assert (d = day) as -> by congruence.
  split; [exact Hd|]. split; [lia | exact Hend].
Qed.

(** X20, witness: the two trips of one day, read for 2024-01-01. *)
Lemma CompactOneDayTrips_leaves_the_minutes_witness :
  exists res,
    CompactOneDayTrips one_day_json 738886 = Ok res /\
    map StartTimeMins res = [-1; -1] /\
    exists res', RecalcAllTrips res None = Ok res' /\
      map StartTimeMins res' = [360; 1430] /\ map EndTimeMins res' = [420; 1460] /\
      Forall (fun t => Day t = Some 738886 /\ 0 <= StartTimeMins t < 1440 /\
                       StartTimeMins t <= EndTimeMins t < StartTimeMins t + 1440) res'.
Proof.
  eassert (CompactOneDayTrips one_day_json 738886 = Ok _) as H by (vm_compute; reflexivity).
  destruct (CompactOneDayTrips_leaves_the_minutes _ _ _ H) as (_ & _ & Hrecalc).
  match type of H with
  | _ = Ok ?r => eassert (RecalcAllTrips r None = Ok _) as H' by (vm_compute; reflexivity)
  end.
  eexists. split; [exact H|]. split; [reflexivity|].
  eexists. split; [exact H'|]. split; [reflexivity|]. split; [reflexivity|].
  exact (Hrecalc _ H').
Defined.

(** ** Deadheads between the trips of a duty *)

Lemma foldM_range_from {St} (P : nat -> St -> Prop) (body : St -> Z -> result St)
    (a : Z) (m j : nat) st0 st :
  P j st0 ->
  (forall k s s', (j <= k < j + m)%nat -> P k s -> body s (a + Z.of_nat k) = Ok s' ->
                  P (S k) s') ->
  foldM body st0 (map (fun k => a + Z.of_nat k) (seq j m)) = Ok st ->
  P (j + m)%nat st.
Proof.
  revert j st0. induction m as [|m IH]; intros j st0 H0 Hstep; simpl.
  - intros [= <-]. rewrite Nat.add_0_r. exact H0.
  - intros (s1 & H1 & H)%bind_Ok. replace (j + S m)%nat with (S j + m)%nat by lia.
    apply (IH (S j) s1); [| |exact H].
    + apply (Hstep j st0); [lia | exact H0 | exact H1].
    + intros k s s' Hk. apply Hstep. lia.
Qed.

Lemma trips_of_app rows rows' : trips_of (rows ++ rows') = trips_of rows ++ trips_of rows'.
Proof. apply omap_app. Qed.

Lemma deadheads_of_app rows rows' :
  deadheads_of (rows ++ rows') = deadheads_of rows ++ deadheads_of rows'.
Proof. apply omap_app. Qed.

Section Format_facts.
Variable distances : list (list Z).
Variable stops : list string.
Variable addFinalDeadhead : bool.

Lemma deadhead_between_fits OldTrip NewTrip d :
  EndStop OldTrip <> StartStop NewTrip ->
  deadhead_between distances stops OldTrip NewTrip = Ok d ->
  deadhead_fits distances stops d /\
  EarliestTimeMins d = EndTimeMins OldTrip + DurationMins (dh d).
Proof.
  intros Hne. unfold deadhead_between.
  intros (a & Ha & (b & Hb & (dist & Hdist & [= <-])%bind_Ok)%bind_Ok)%bind_Ok.
  split; [|reflexivity]. split; [exact Hne|]. split; [|reflexivity].
  exists a, b. auto.
Qed.

(** What holds of the entries and of the deadhead time of one duty. *)
Lemma format_one_Ok schedule rows time :
  format_one distances stops addFinalDeadhead schedule = Ok (rows, time) ->
  trips_of rows = schedule /\ schedule <> [] /\
  time = Z_sum (map (fun d => DurationMins (dh d)) (deadheads_of rows)) /\
  Forall (deadhead_fits distances stops) (deadheads_of rows).
Proof.
  unfold format_one. intros (first & Hfirst & H)%bind_Ok.
  apply bind_Ok in H as ([cs t0] & Hloop & Hfinal).
  assert (schedule <> []) as Hne by (intros ->; discriminate).
  assert (trips_of cs = schedule /\
          t0 = Z_sum (map (fun d => DurationMins (dh d)) (deadheads_of cs)) /\
          Forall (deadhead_fits distances stops) (deadheads_of cs)) as (Htrips & Htime & Hfit).
  { unfold range_from in Hloop.
    apply (foldM_range_from
             (fun k (st : list row * Z) =>
                trips_of st.1 = take (S k) schedule /\
                st.2 = Z_sum (map (fun d => DurationMins (dh d)) (deadheads_of st.1)) /\
                Forall (deadhead_fits distances stops) (deadheads_of st.1))) in Hloop.
    - destruct Hloop as (Htrips & Htime & Hfit). cbn [fst snd] in Htrips, Htime, Hfit.
      split; [|auto]. rewrite Htrips. apply take_ge.
      destruct schedule; [congruence | simpl; lia].
    - simpl. split; [|split; [reflexivity | constructor]].
      apply getitem_head in Hfirst. destruct schedule; [discriminate|].
      injection Hfirst as ->. reflexivity.
    - intros k [rows0 time0] [rows1 time1] Hk (Htrips & Htime & Hfit). simpl in *.
      intros (OldTrip & Hold & (NewTrip & Hnew & Hstep)%bind_Ok)%bind_Ok.
      apply getitem_lookup in Hnew; [|lia].
      replace (Z.to_nat (1 + Z.of_nat k)) with (S k) in Hnew by lia.
      rewrite (take_S_r _ _ _ Hnew).
      destruct (String.eqb_spec (EndStop OldTrip) (StartStop NewTrip)) as [Heq|Hneq].
      + injection Hstep as <- <-. rewrite trips_of_app, deadheads_of_app, Htrips. simpl.
        rewrite app_nil_r. auto.
      + apply bind_Ok in Hstep as (d & Hd & [= <- <-]).
        destruct (deadhead_between_fits _ _ _ Hneq Hd) as [Hdfit _].
        rewrite trips_of_app, deadheads_of_app, Htrips. simpl. split; [reflexivity|].
        rewrite map_app, Z_sum_app, <- Htime. simpl. rewrite Z_sum_cons.
        split; [unfold Z_sum; simpl; lia|].
        apply Forall_app. split; [exact Hfit | constructor; [exact Hdfit | constructor]]. }
  destruct addFinalDeadhead; [|injection Hfinal as <- <-; auto].
  apply bind_Ok in Hfinal as (OldTrip & _ & (NewTrip & _ & Hfinal)%bind_Ok).
  destruct (String.eqb_spec (EndStop OldTrip) (StartStop NewTrip)) as [Heq|Hneq]; simpl in Hfinal.
  - injection Hfinal as <- <-. auto.
  - apply bind_Ok in Hfinal as (d & Hd & [= <- <-]).
    destruct (deadhead_between_fits _ _ _ Hneq Hd) as [Hdfit _].
    rewrite trips_of_app, deadheads_of_app. simpl. rewrite app_nil_r.
    split; [exact Htrips|]. split; [exact Hne|]. split.
    + rewrite map_app, Z_sum_app, <- Htime. simpl. rewrite Z_sum_cons.
      unfold Z_sum. simpl. lia.
    + apply Forall_app. split; [exact Hfit | constructor; [exact Hdfit | constructor]].
Qed.
End Format_facts.

(** X21. When [FormatSchedule], called without a depot, returns, the
    entries of every formatted duty that are trips are the trips of the
    duty, in their order, and its deadhead time is the sum of the
    durations of its deadheads. Every deadhead joins two different stops,
    lasts as long as the matrix says between them, and has its earliest
    time written by [ConvertToHxM]. No duty is empty: with an empty duty
    among the duties the function does not return. *)
Theorem FormatSchedule_keeps_the_trips (distances : list (list Z)) (stops : list string)
    (addFinalDeadhead : bool) (scheduledTrips : list (list Trip))
    (formattedTrips : list (list row)) (deadheadTimes : list Z) :
  FormatSchedule distances stops addFinalDeadhead scheduledTrips
    = Ok (formattedTrips, deadheadTimes) ->
  map trips_of formattedTrips = scheduledTrips /\
  deadheadTimes
    = map (fun rows => Z_sum (map (fun d => DurationMins (dh d)) (deadheads_of rows)))
        formattedTrips /\
  Forall (fun rows => Forall (deadhead_fits distances stops) (deadheads_of rows))
    formattedTrips /\
  Forall (fun schedule => schedule <> []) scheduledTrips.
Proof.
  unfold FormatSchedule. intros (res & Hres%mapM_Ok & [= <- <-])%bind_Ok.
  induction Hres as [|schedule [rows time] l res Hone _ IH]; simpl.
  - repeat split; constructor.
  - apply format_one_Ok in Hone as (Htrips & Hne & Htime & Hfit).
    destruct IH as (IH1 & IH2 & IH3 & IH4).
    split; [rewrite Htrips, IH1; reflexivity|].
    split; [rewrite Htime, IH2; reflexivity|].
    split; constructor; assumption.
Qed.

(** X21, witness: the duty from A to B and on from C to A gets a
    deadhead of one minute from B to C, at 8:31 at the earliest, and no
    deadhead at its end. *)
Lemma FormatSchedule_keeps_the_trips_witness :
  exists d,
    FormatSchedule Examples.depot_dists gap_stops true [gap_duty]
      = Ok ([[a_Trip Examples.T1; a_Deadhead d; a_Trip Examples.T3]], [1]) /\
    dh d = mkDeadhead "B" "C" 1 /\ EarliestTime d = "8:31" /\
    deadhead_fits Examples.depot_dists gap_stops d.
Proof.
  eexists.
  eassert (FormatSchedule Examples.depot_dists gap_stops true [gap_duty] = Ok (_, _)) as H
    by (vm_compute; reflexivity).
  split; [exact H|]. split; [reflexivity|]. split; [reflexivity|].
  destruct (FormatSchedule_keeps_the_trips _ _ _ _ _ _ H) as (_ & _ & Hfit & _).
  apply Forall_inv in Hfit. apply Forall_inv in Hfit. exact Hfit.
Defined.
